(** * creatorflow-backend: the credit ledger, the billing handlers and the
      script pipeline of [api/views.py], embedded in Rocq.

    The Python of [api/views.py] is translated function by function.  Python
    values are a tagged union ([PyVal]); text is a list of Unicode code
    points; exceptions are an explicit result type ([Exc]); the document
    store and the completion endpoint, which the code only talks to, are
    explicit state. *)

From Stdlib Require Import ZArith NArith List String Ascii Bool Lia.
Import ListNotations.
Open Scope Z_scope.
Set Warnings "-register-all".

(* ===================================================================== *)
(** * Text *)
(* ===================================================================== *)

(** A Python [str] is a sequence of Unicode code points. *)
Definition str := list N.

(** Source literals are written as Rocq strings, which hold the UTF-8 bytes
    of the literal; [utf8] recovers the code points. *)
Fixpoint utf8 (bs : list N) : str :=
  match bs with
  | [] => []
  | b :: r =>
      if (b <? 128)%N then b :: utf8 r
      else if (b <? 224)%N then
        match r with
        | b1 :: r1 => ((b - 192) * 64 + (b1 - 128))%N :: utf8 r1
        | _ => [b]
        end
      else if (b <? 240)%N then
        match r with
        | b1 :: b2 :: r2 =>
            ((b - 224) * 4096 + (b1 - 128) * 64 + (b2 - 128))%N :: utf8 r2
        | _ => [b]
        end
      else
        match r with
        | b1 :: b2 :: b3 :: r3 =>
            ((b - 240) * 262144 + (b1 - 128) * 4096 + (b2 - 128) * 64
             + (b3 - 128))%N :: utf8 r3
        | _ => [b]
        end
  end.

Definition u (s : string) : str :=
  utf8 (map N_of_ascii (list_ascii_of_string s)).

(** JSON texts are written with an apostrophe where the text has a double
    quote: [j "{'uid': 'u1'}"] is the text [{"uid": "u1"}]. *)
Definition j (s : string) : str :=
  map (fun c => if (c =? 39)%N then 34%N else c) (u s).

Fixpoint str_eqb (a b : str) : bool :=
  match a, b with
  | [], [] => true
  | x :: a', y :: b' => (x =? y)%N && str_eqb a' b'
  | _, _ => false
  end.

(* ===================================================================== *)
(** * Python values and exceptions *)
(* ===================================================================== *)

(** The values that JSON bodies and store documents hold.  A float is its
    IEEE-754 binary64 bit pattern; a dict is an association list in
    insertion order with the first binding of a key the live one. *)
Inductive PyVal : Type :=
| PNone
| PBool (b : bool)
| PInt (z : Z)
| PFloat (bits : Z)
| PStr (s : str)
| PList (l : list PyVal)
| PDict (d : list (str * PyVal))
| PDatetime (t : Z).

Definition Dict := list (str * PyVal).

Inductive exn : Type :=
| TypeError | AttributeError | NameError (name : string) | IndexError
| KeyError | ValueError | JSONDecodeError | UnicodeDecodeError
| RecursionError | IllTyped.

Inductive Exc (A : Type) : Type :=
| Ok (a : A)
| Raise (e : exn).
Arguments Ok {A} a.
Arguments Raise {A} e.

Definition ebind {A B} (m : Exc A) (k : A -> Exc B) : Exc B :=
  match m with Ok a => k a | Raise e => Raise e end.

Declare Scope exc_scope.
Delimit Scope exc_scope with exc.
Notation "x <- m ;; k" := (ebind m (fun x => k))
  (at level 61, m at next level, right associativity) : exc_scope.
Open Scope exc_scope.

(** [bool(v)]. *)
Definition truthy (v : PyVal) : bool :=
  match v with
  | PNone => false
  | PBool b => b
  | PInt z => negb (z =? 0)
  | PFloat bits => negb (bits mod 2 ^ 63 =? 0)
  | PStr s => match s with [] => false | _ => true end
  | PList l => match l with [] => false | _ => true end
  | PDict d => match d with [] => false | _ => true end
  | PDatetime _ => true
  end.

(** [a or b]. *)
Definition py_or (a b : PyVal) : PyVal := if truthy a then a else b.

Fixpoint dict_find (d : Dict) (k : str) : option PyVal :=
  match d with
  | [] => None
  | (k', v) :: d' => if str_eqb k k' then Some v else dict_find d' k
  end.

(** [d.get(k)] on a dict. *)
Definition dict_get (d : Dict) (k : str) : PyVal :=
  match dict_find d k with Some v => v | None => PNone end.

(** [d[k] = v]. *)
Fixpoint dict_set (d : Dict) (k : str) (v : PyVal) : Dict :=
  match d with
  | [] => [(k, v)]
  | (k', v') :: d' =>
      if str_eqb k k' then (k', v) :: d' else (k', v') :: dict_set d' k v
  end.

(** [v.get(k)] on any value: only a dict has the method. *)
Definition py_get (v : PyVal) (k : str) : Exc PyVal :=
  match v with
  | PDict d => Ok (dict_get d k)
  | _ => Raise AttributeError
  end.

(* ===================================================================== *)
(** * The document store *)
(* ===================================================================== *)

(** The [users] collection: document id to fields.  [fs_db] is [None] when
    the client could not be initialised. *)
Definition Doc := Dict.
Definition Store := list (str * Doc).

Fixpoint store_find (db : Store) (id : str) : option Doc :=
  match db with
  | [] => None
  | (i, d) :: r => if str_eqb id i then Some d else store_find r id
  end.

(** [snap.to_dict() or {}]: a missing document reads as the empty dict. *)
Definition doc_of (db : Store) (id : str) : Doc :=
  match store_find db id with Some d => d | None => [] end.

(** [.where("email", "==", e).limit(1).get()], reduced to the id of the
    document found. *)
Fixpoint query_email (db : Store) (e : str) : option str :=
  match db with
  | [] => None
  | (i, d) :: r =>
      match dict_find d (u "email") with
      | Some (PStr e') => if str_eqb e e' then Some i else query_email r e
      | _ => query_email r e
      end
  end.

(** [ref.set(updates, merge=True)] on one document: every key of [updates]
    names one top-level field, which is overwritten; fields not named stay.
    A key is a field NAME here: [set] does not read a dot in a key as a
    path into a nested map (only [update] does). *)
Definition doc_merge (d : Doc) (updates : Dict) : Doc :=
  fold_right (fun kv acc => dict_set acc (fst kv) (snd kv)) d updates.

(** [ref.set(updates, merge=True)]: the document is created when absent. *)
Fixpoint store_set_merge (db : Store) (id : str) (updates : Dict) : Store :=
  match db with
  | [] => [(id, doc_merge [] updates)]
  | (i, d) :: r =>
      if str_eqb id i then (i, doc_merge d updates) :: r
      else (i, d) :: store_set_merge r id updates
  end.

(* ===================================================================== *)
(** * Plans *)
(* ===================================================================== *)

Definition PLAN_CREDITS : list (str * Z) :=
  [(u "Basic", 50); (u "Pro", 200); (u "Premium", 1000)].

Definition PAID_PLANS : list str := [u "Pro"; u "Premium"].

Fixpoint assoc_get {V} (l : list (str * V)) (k : str) (dflt : V) : V :=
  match l with
  | [] => dflt
  | (k', v) :: r => if str_eqb k k' then v else assoc_get r k dflt
  end.

Fixpoint str_in (k : str) (l : list str) : bool :=
  match l with
  | [] => false
  | k' :: r => str_eqb k k' || str_in k r
  end.

(* ===================================================================== *)
(** * [_fs_set_user] *)
(* ===================================================================== *)

(** "locate doc": by uid the reference is built without a read; by email
    the query must find a document. *)
Definition locate (db : Store) (uid_or_email : str) (by_uid : bool)
  : option str :=
  if by_uid then Some uid_or_email else query_email db uid_or_email.

(** The fields staged in [updates], from the document read and the
    arguments.  The only operation that can raise is [.get] on a
    [processedTxns] field that is not a map. *)
Definition staged_updates (doc : Doc) (plan : str)
    (credits_to_grant : option Z) (transaction_id : option str)
  : Exc Dict :=
  let updates :=
    [ (u "subscriptionSelected", PBool true);
      (u "subscriptionPlan", PStr plan);
      (u "creditDepletedAt", PNone) ] in
  if str_eqb plan (u "Basic") then
    if negb (truthy (dict_get doc (u "freeBasicGranted"))) then
      let updates := dict_set updates (u "credits")
                       (PInt (assoc_get PLAN_CREDITS (u "Basic") 0)) in
      Ok (dict_set updates (u "freeBasicGranted") (PBool true))
    else Ok updates
  else if str_in plan PAID_PLANS then
    match transaction_id with
    | Some (c0 :: t0) =>
        let t := c0 :: t0 in
        already <- py_get (py_or (dict_get doc (u "processedTxns")) (PDict []))
                     t ;;
        if truthy already then Ok updates
        else
          let credits_to_grant :=
            match credits_to_grant with
            | None => assoc_get PLAN_CREDITS plan 0
            | Some c => c
            end in
          let updates := dict_set updates (u "credits") (PInt credits_to_grant) in
          let updates := dict_set updates (u "processedTxns." ++ t) (PBool true) in
          Ok (dict_set updates (u "lastPaidTxn") (PStr t))
    | _ =>
        let credits_to_grant :=
          match credits_to_grant with
          | None => assoc_get PLAN_CREDITS plan 0
          | Some c => c
          end in
        Ok (dict_set updates (u "credits") (PInt credits_to_grant))
    end
  else Ok updates.

(** The body of the [try]. *)
Definition fs_set_user_try (db : Store) (uid_or_email plan : str)
    (credits_to_grant : option Z) (by_uid : bool)
    (transaction_id : option str) : Exc (bool * Store) :=
  match locate db uid_or_email by_uid with
  | None => Ok (false, db)
  | Some ref =>
      let doc := doc_of db ref in
      updates <- staged_updates doc plan credits_to_grant transaction_id ;;
      Ok (true, store_set_merge db ref updates)
  end.

(** [_fs_set_user(uid_or_email, plan, *, credits_to_grant, by_uid=True,
    transaction_id=None) -> bool], with the store passed in and out.  The
    parameters have the types the signature annotates. *)
Definition _fs_set_user (fs_db : option Store) (uid_or_email plan : str)
    (credits_to_grant : option Z) (by_uid : bool)
    (transaction_id : option str) : bool * option Store :=
  match fs_db with
  | None => (false, None)
  | Some db =>
      match fs_set_user_try db uid_or_email plan credits_to_grant by_uid
              transaction_id with
      | Ok (r, db') => (r, Some db')
      | Raise _ => (false, Some db)
      end
  end.

(** The [credits] field of a document, as stored. *)
Definition credits_at (fs_db : option Store) (id : str) : option PyVal :=
  match fs_db with
  | None => None
  | Some db => dict_find (doc_of db id) (u "credits")
  end.

Definition field_at (fs_db : option Store) (id k : str) : option PyVal :=
  match fs_db with
  | None => None
  | Some db => dict_find (doc_of db id) k
  end.

(** A field of the staged [updates], when the staging does not raise. *)
Definition staged_field (r : Exc Dict) (k : str) : option PyVal :=
  match r with Ok d => dict_find d k | Raise _ => None end.

(* ===================================================================== *)
(** * The grant rules, as the specification words them *)
(* ===================================================================== *)

(** The default pack of a paid plan. *)
Definition paid_default (plan : str) : option Z :=
  if str_eqb plan (u "Pro") then Some 200
  else if str_eqb plan (u "Premium") then Some 1000
  else None.

(** Whether the record marks transaction [t] as processed, read the way the
    specification describes [processedTxns]: a map from transaction id to
    a boolean. *)
Definition txn_marked (doc : Doc) (t : str) : bool :=
  match dict_get doc (u "processedTxns") with
  | PDict m => truthy (dict_get m t)
  | _ => false
  end.

(** The [processedTxns] field is absent, empty or a map. *)
Definition txns_readable (doc : Doc) : bool :=
  match dict_get doc (u "processedTxns") with
  | PDict _ => true
  | v => negb (truthy v)
  end.

(** The three situations in which credits are granted, with the amount. *)
Inductive grant_case (doc : Doc) (credits_to_grant : option Z)
  : str -> option str -> Z -> Prop :=
| GrantBasic t :
    truthy (dict_get doc (u "freeBasicGranted")) = false ->
    grant_case doc credits_to_grant (u "Basic") t 50
| GrantPaidTxn plan dflt c0 t0 :
    paid_default plan = Some dflt ->
    txns_readable doc = true ->
    txn_marked doc (c0 :: t0) = false ->
    grant_case doc credits_to_grant plan (Some (c0 :: t0))
      (match credits_to_grant with Some c => c | None => dflt end)
| GrantPaidNoTxn plan dflt t :
    paid_default plan = Some dflt ->
    t = None \/ t = Some [] ->
    grant_case doc credits_to_grant plan t
      (match credits_to_grant with Some c => c | None => dflt end).

(* ===================================================================== *)
(** * [json.loads] *)
(* ===================================================================== *)

(** The decoder of the standard library on a [str], following its scanner:
    values, objects, arrays, strings with escapes, numbers, and the three
    constants [NaN], [Infinity], [-Infinity].  The [fuel] bounds the number
    of nested and successive values; the text length plus one is enough, and
    running out is reported as [RecursionError]. *)

Definition is_json_ws (c : N) : bool :=
  ((c =? 32) || (c =? 9) || (c =? 10) || (c =? 13))%N.

Fixpoint skip_ws (s : str) : str :=
  match s with
  | c :: r => if is_json_ws c then skip_ws r else s
  | [] => []
  end.

Definition is_digit (c : N) : bool := ((48 <=? c) && (c <=? 57))%N.

Definition hex_val (c : N) : option N :=
  if is_digit c then Some (c - 48)%N
  else if ((97 <=? c) && (c <=? 102))%N then Some (c - 87)%N
  else if ((65 <=? c) && (c <=? 70))%N then Some (c - 55)%N
  else None.

Definition hex4 (a b c d : N) : option N :=
  match hex_val a, hex_val b, hex_val c, hex_val d with
  | Some x, Some y, Some z, Some w => Some (x * 4096 + y * 256 + z * 16 + w)%N
  | _, _, _, _ => None
  end.

Definition is_high_surrogate (c : N) : bool := ((55296 <=? c) && (c <=? 56319))%N.
Definition is_low_surrogate (c : N) : bool := ((56320 <=? c) && (c <=? 57343))%N.
Definition join_surrogates (hi lo : N) : N :=
  (65536 + (hi - 55296) * 1024 + (lo - 56320))%N.

(** The one-letter escapes: quote, backslash, slash, b, f, n, r, t. *)
Definition simple_escape (e : N) : option N :=
  if (e =? 34)%N then Some 34%N
  else if (e =? 92)%N then Some 92%N
  else if (e =? 47)%N then Some 47%N
  else if (e =? 98)%N then Some 8%N
  else if (e =? 102)%N then Some 12%N
  else if (e =? 110)%N then Some 10%N
  else if (e =? 114)%N then Some 13%N
  else if (e =? 116)%N then Some 9%N
  else None.

Definition cons_result (c : N) (r : Exc (str * str)) : Exc (str * str) :=
  match r with
  | Ok (x, rest) => Ok (c :: x, rest)
  | Raise e => Raise e
  end.

(** [scanstring], strict, from just after the opening quote: the decoded
    text and what follows the closing quote. *)
Fixpoint scanstring (s : str) : Exc (str * str) :=
  match s with
  | [] => Raise JSONDecodeError
  | c :: r =>
      if (c =? 34)%N then Ok ([], r)
      else if (c =? 92)%N then
        match r with
        | [] => Raise JSONDecodeError
        | e :: r1 =>
            if (e =? 117)%N then
              match r1 with
              | h1 :: h2 :: h3 :: h4 :: r2 =>
                  match r2 with
                  | [] => Raise JSONDecodeError
                  | _ :: _ =>
                      match hex4 h1 h2 h3 h4 with
                      | None => Raise JSONDecodeError
                      | Some c1 =>
                          if is_high_surrogate c1 then
                            match r2 with
                            | 92%N :: 117%N :: g1 :: g2 :: g3 :: g4 :: r3 =>
                                match r3 with
                                | [] => cons_result c1 (scanstring r2)
                                | _ :: _ =>
                                    match hex4 g1 g2 g3 g4 with
                                    | None => Raise JSONDecodeError
                                    | Some c2 =>
                                        if is_low_surrogate c2
                                        then cons_result (join_surrogates c1 c2)
                                               (scanstring r3)
                                        else cons_result c1 (scanstring r2)
                                    end
                                end
                            | _ => cons_result c1 (scanstring r2)
                            end
                          else cons_result c1 (scanstring r2)
                      end
                  end
              | _ => Raise JSONDecodeError
              end
            else
              match simple_escape e with
              | Some c' => cons_result c' (scanstring r1)
              | None => Raise JSONDecodeError
              end
        end
      else if (c <=? 31)%N then Raise JSONDecodeError
      else cons_result c (scanstring r)
  end.

Fixpoint take_digits (s : str) : str * str :=
  match s with
  | c :: r => if is_digit c then let '(d, rest) := take_digits r in (c :: d, rest)
              else ([], s)
  | [] => ([], [])
  end.

Definition digits_value (d : str) : Z :=
  fold_left (fun acc c => acc * 10 + Z.of_N (c - 48)) d 0.

(** ** Decimal text to binary64, rounding to nearest, ties to even *)

(** The bits of the binary64 nearest to [n / d], for [n, d > 0]. *)
Definition float_of_ratio (n d : Z) : Z :=
  let scaled (e : Z) : Z * Z :=
    if 0 <=? e then (n, d * 2 ^ e) else (n * 2 ^ (- e), d) in
  let e0 := Z.log2 n - Z.log2 d - 52 in
  let '(n0, d0) := scaled e0 in
  let e1 := if n0 / d0 <? 2 ^ 52 then e0 - 1 else e0 in
  let e := Z.max e1 (-1074) in
  let '(n1, d1) := scaled e in
  let q := n1 / d1 in
  let r := n1 mod d1 in
  let q := if (d1 <? 2 * r) || ((d1 =? 2 * r) && Z.odd q) then q + 1 else q in
  let '(q, e) := if q =? 2 ^ 53 then (2 ^ 52, e + 1) else (q, e) in
  if q <? 2 ^ 52 then q
  else if 2046 <? e + 1075 then 2047 * 2 ^ 52
  else (e + 1075) * 2 ^ 52 + (q - 2 ^ 52).

(** [float(text)] for the digits [m] scaled by [10 ^ e10]. *)
Definition float_of_decimal (neg : bool) (m : Z) (ndigits : Z) (e10 : Z) : Z :=
  let magnitude :=
    if m =? 0 then 0
    else if 400 <? e10 + ndigits then 2047 * 2 ^ 52
    else if e10 + ndigits <? -400 then 0
    else if 0 <=? e10 then float_of_ratio (m * 10 ^ e10) 1
    else float_of_ratio m (10 ^ (- e10)) in
  if neg then 2 ^ 63 + magnitude else magnitude.

Definition float_nan : Z := 0x7FF8000000000000.
Definition float_inf : Z := 0x7FF0000000000000.

(** The exponent part: e or E, an optional sign, one digit or more. *)
Definition take_exponent (s : str) : option (Z * str) :=
  match s with
  | e :: r =>
      if ((e =? 101) || (e =? 69))%N then
        let '(neg, r1) :=
          match r with
          | sg :: r' => if (sg =? 45)%N then (true, r')
                        else if (sg =? 43)%N then (false, r') else (false, r)
          | [] => (false, r)
          end in
        match take_digits r1 with
        | ([], _) => None
        | (d, rest) =>
            Some (if neg then - digits_value d else digits_value d, rest)
        end
      else None
  | [] => None
  end.

(** A number at the head of [s], after an optional minus sign. *)
Definition match_number (s : str) : option (PyVal * str) :=
  let '(neg, s1) :=
    match s with
    | 45%N :: r => (true, r)
    | _ => (false, s)
    end in
  match s1 with
  | c :: r =>
      if is_digit c then
        let '(int_digits, r1) :=
          if (c =? 48)%N then ([c], r)
          else let '(d, rest) := take_digits r in (c :: d, rest) in
        let '(frac_digits, r2) :=
          match r1 with
          | 46%N :: f :: r' =>
              if is_digit f then let '(d, rest) := take_digits r' in (f :: d, rest)
              else ([], r1)
          | _ => ([], r1)
          end in
        let '(exp, r3) :=
          match take_exponent r2 with
          | Some (x, rest) => (Some x, rest)
          | None => (None, r2)
          end in
        match frac_digits, exp with
        | [], None =>
            let z := digits_value int_digits in
            Some (PInt (if neg then - z else z), r3)
        | _, _ =>
            let m := digits_value (int_digits ++ frac_digits) in
            let nd := Z.of_nat (List.length (int_digits ++ frac_digits)) in
            let e10 := match exp with Some x => x | None => 0 end
                       - Z.of_nat (List.length frac_digits) in
            Some (PFloat (float_of_decimal neg m nd e10), r3)
        end
      else None
  | [] => None
  end.

(** [s] starts with the literal [lit]: what follows it. *)
Fixpoint strip_prefix (lit s : str) : option str :=
  match lit, s with
  | [], _ => Some s
  | a :: lit', b :: s' => if (a =? b)%N then strip_prefix lit' s' else None
  | _ :: _, [] => None
  end.

Fixpoint scan_once (fuel : nat) (s : str) {struct fuel} : Exc (PyVal * str) :=
  match fuel with
  | O => Raise RecursionError
  | S f =>
      match s with
      | [] => Raise JSONDecodeError
      | c :: r =>
          if (c =? 34)%N then
            match scanstring r with
            | Ok (x, rest) => Ok (PStr x, rest)
            | Raise e => Raise e
            end
          else if (c =? 123)%N then
            match skip_ws r with
            | 125%N :: rest => Ok (PDict [], rest)
            | r' => parse_members f r' []
            end
          else if (c =? 91)%N then
            match skip_ws r with
            | 93%N :: rest => Ok (PList [], rest)
            | r' => parse_items f r' []
            end
          else
            match strip_prefix (u "null") s with
            | Some rest => Ok (PNone, rest)
            | None =>
            match strip_prefix (u "true") s with
            | Some rest => Ok (PBool true, rest)
            | None =>
            match strip_prefix (u "false") s with
            | Some rest => Ok (PBool false, rest)
            | None =>
            match strip_prefix (u "NaN") s with
            | Some rest => Ok (PFloat float_nan, rest)
            | None =>
            match strip_prefix (u "Infinity") s with
            | Some rest => Ok (PFloat float_inf, rest)
            | None =>
            match strip_prefix (u "-Infinity") s with
            | Some rest => Ok (PFloat (2 ^ 63 + float_inf), rest)
            | None =>
            match match_number s with
            | Some (v, rest) => Ok (v, rest)
            | None => Raise JSONDecodeError
            end end end end end end end
      end
  end

(** The members of an object, from the first key on; [acc] holds the pairs
    read so far. *)
with parse_members (fuel : nat) (s : str) (acc : Dict) {struct fuel}
  : Exc (PyVal * str) :=
  match fuel with
  | O => Raise RecursionError
  | S f =>
      match s with
      | 34%N :: r =>
          match scanstring r with
          | Raise e => Raise e
          | Ok (key, r1) =>
              match skip_ws r1 with
              | 58%N :: r2 =>
                  match scan_once f (skip_ws r2) with
                  | Raise e => Raise e
                  | Ok (v, r3) =>
                      let acc := dict_set acc key v in
                      match skip_ws r3 with
                      | 125%N :: rest => Ok (PDict acc, rest)
                      | 44%N :: r4 => parse_members f (skip_ws r4) acc
                      | _ => Raise JSONDecodeError
                      end
                  end
              | _ => Raise JSONDecodeError
              end
          end
      | _ => Raise JSONDecodeError
      end
  end

(** The items of an array, from the first value on. *)
with parse_items (fuel : nat) (s : str) (acc : list PyVal) {struct fuel}
  : Exc (PyVal * str) :=
  match fuel with
  | O => Raise RecursionError
  | S f =>
      match scan_once f s with
      | Raise e => Raise e
      | Ok (v, r1) =>
          match skip_ws r1 with
          | 93%N :: rest => Ok (PList (acc ++ [v]), rest)
          | 44%N :: r2 => parse_items f (skip_ws r2) (acc ++ [v])
          | _ => Raise JSONDecodeError
          end
      end
  end.

(** [json.loads(s)] for a [str]. *)
Definition json_loads (s : str) : Exc PyVal :=
  match s with
  | 65279%N :: _ => Raise JSONDecodeError        (* byte order mark *)
  | _ =>
      match scan_once (2 * List.length s + 2) (skip_ws s) with
      | Raise e => Raise e
      | Ok (v, rest) =>
          match skip_ws rest with
          | [] => Ok v
          | _ => Raise JSONDecodeError           (* extra data *)
          end
      end
  end.

(* ===================================================================== *)
(** * [str] methods *)
(* ===================================================================== *)

(** [c.isspace()]: the white space of [strip], [split] and the pattern
    class [\s]. *)
Definition is_space (c : N) : bool :=
  (((9 <=? c) && (c <=? 13)) || ((28 <=? c) && (c <=? 32)) || (c =? 133)
   || (c =? 160) || (c =? 5760) || ((8192 <=? c) && (c <=? 8202))
   || (c =? 8232) || (c =? 8233) || (c =? 8239) || (c =? 8287)
   || (c =? 12288))%N.

Fixpoint lstrip (s : str) : str :=
  match s with
  | c :: r => if is_space c then lstrip r else s
  | [] => []
  end.

Definition rstrip (s : str) : str := rev (lstrip (rev s)).

(** [s.strip()]. *)
Definition strip (s : str) : str := rstrip (lstrip s).

Definition is_upper (c : N) : bool := ((65 <=? c) && (c <=? 90))%N.
Definition is_lower (c : N) : bool := ((97 <=? c) && (c <=? 122))%N.
Definition to_lower (c : N) : N := if is_upper c then (c + 32)%N else c.
Definition to_upper (c : N) : N := if is_lower c then (c - 32)%N else c.

(** [s.lower()] and [s.title()], with the letters A-Z and a-z as the cased
    characters.  Python also cases letters outside ASCII; no such letter
    maps to the ASCII letters of a plan name, so the comparisons made on the
    results ([in PLAN_CREDITS], [in PAID_PLANS], [== "Premium"], the
    substring tests for [premium] and [pro]) come out the same. *)
Definition lower (s : str) : str := map to_lower s.

Fixpoint title_from (prev_cased : bool) (s : str) : str :=
  match s with
  | [] => []
  | c :: r =>
      let cased := is_upper c || is_lower c in
      (if prev_cased then to_lower c else to_upper c) :: title_from cased r
  end.

Definition title (s : str) : str := title_from false s.

(** [sub in s]. *)
Fixpoint contains (sub s : str) : bool :=
  match strip_prefix sub s with
  | Some _ => true
  | None => match s with [] => false | _ :: r => contains sub r end
  end.

(** [s.replace(c, empty)] for a one-character [c]. *)
Definition remove_char (c : N) (s : str) : str :=
  filter (fun x => negb (x =? c)%N) s.

(* ===================================================================== *)
(** * Operations on values *)
(* ===================================================================== *)

(** [v == "literal"]. *)
Definition py_eq_str (v : PyVal) (s : str) : bool :=
  match v with PStr x => str_eqb x s | _ => false end.

(** [hash(v)] succeeds. *)
Definition hashable (v : PyVal) : bool :=
  match v with PList _ | PDict _ => false | _ => true end.

(** [v.strip()], [v.title()], [v.lower()]: methods of [str] only. *)
Definition py_strip (v : PyVal) : Exc str :=
  match v with PStr s => Ok (strip s) | _ => Raise AttributeError end.
Definition py_title (v : PyVal) : Exc str :=
  match v with PStr s => Ok (title s) | _ => Raise AttributeError end.
Definition py_lower (v : PyVal) : Exc str :=
  match v with PStr s => Ok (lower s) | _ => Raise AttributeError end.

(** [v[0]]. *)
Definition py_index0 (v : PyVal) : Exc PyVal :=
  match v with
  | PList (x :: _) => Ok x
  | PList [] => Raise IndexError
  | PStr (c :: _) => Ok (PStr [c])
  | PStr [] => Raise IndexError
  | PDict _ => Raise KeyError
  | _ => Raise TypeError
  end.

(** [v == z] for an [int] literal [z] whose float has the bits [zbits]. *)
Definition py_eq_int (v : PyVal) (z zbits : Z) : bool :=
  match v with
  | PInt x => x =? z
  | PFloat b => b =? zbits
  | PBool b => (if b then 1 else 0) =? z
  | _ => false
  end.

(** [v == f] for a float literal with the bits [fbits], not an integer. *)
Definition py_eq_float (v : PyVal) (fbits : Z) : bool :=
  match v with PFloat b => b =? fbits | _ => false end.

(** [a or b], where [b] is evaluated only when [a] is falsy. *)
Definition or_else (a : Exc PyVal) (b : Exc PyVal) : Exc PyVal :=
  x <- a ;; if truthy x then Ok x else b.

(* ===================================================================== *)
(** * Calling [_fs_set_user] *)
(* ===================================================================== *)

(** Argument binding for

      def _fs_set_user(uid_or_email, plan, *, credits_to_grant,
                       by_uid=True, transaction_id=None)

    A call gives its positional values in order and, for each keyword it
    writes, the value.  Two parameters at most bind positionally;
    [credits_to_grant] is keyword-only and has no default.  A call that does
    not bind raises [TypeError] before the body runs.  Values of another
    type than the signature annotates are outside this model ([IllTyped]);
    no call site below makes such a call that binds. *)
Definition call_fs_set_user (fs_db : option Store) (positional : list PyVal)
    (credits_to_grant : option (option Z)) (by_uid : option bool)
    (transaction_id : option (option str)) : Exc (bool * option Store) :=
  match positional with
  | [a; b] =>
      match credits_to_grant with
      | None => Raise TypeError
      | Some c =>
          match a, b with
          | PStr uid_or_email, PStr plan =>
              Ok (_fs_set_user fs_db uid_or_email plan c
                    (match by_uid with Some x => x | None => true end)
                    (match transaction_id with Some t => t | None => None end))
          | _, _ => Raise IllTyped
          end
      end
  | _ => Raise TypeError
  end.

(* ===================================================================== *)
(** * Requests and responses *)
(* ===================================================================== *)

(** A request: the method, and the body decoded as UTF-8 ([None] when the
    bytes do not decode). *)
Record HttpRequest := { method : str; body : option str }.

Inductive Response : Type :=
| JsonResponse (data : Dict) (status : Z)
| HttpResponseBadRequest (content : str)
| HttpResponseNotAllowed.

Definition status_of (r : Response) : Z :=
  match r with
  | JsonResponse _ status => status
  | HttpResponseBadRequest _ => 400
  | HttpResponseNotAllowed => 405
  end.

(** [request.body.decode("utf-8")]. *)
Definition decode_body (request : HttpRequest) : Exc str :=
  match body request with
  | Some text => Ok text
  | None => Raise UnicodeDecodeError
  end.

(** A view: the response or the exception that leaves it, and the store. *)
Definition View := HttpRequest -> option Store -> Exc Response * option Store.

Definition POST : str := u "POST".

(** [@require_POST]. *)
Definition require_POST (view : View) : View :=
  fun request fs_db =>
    if str_eqb (method request) POST then view request fs_db
    else (Ok HttpResponseNotAllowed, fs_db).

(* ===================================================================== *)
(** * Base64 text *)
(* ===================================================================== *)

(** [base64.b64encode(bytes)], as the text of the token. *)
Definition b64_char (i : N) : N :=
  (if i <? 26 then 65 + i
   else if i <? 52 then 97 + (i - 26)
   else if i <? 62 then 48 + (i - 52)
   else if i =? 62 then 43 else 47)%N.

Fixpoint b64encode (bs : list N) : str :=
  match bs with
  | [] => []
  | [a] => [b64_char (a / 4); b64_char ((a mod 4) * 16); 61; 61]%N
  | [a; b] =>
      [b64_char (a / 4); b64_char ((a mod 4) * 16 + b / 16);
       b64_char ((b mod 16) * 4); 61]%N
  | a :: b :: c :: r =>
      (b64_char (a / 4) :: b64_char ((a mod 4) * 16 + b / 16)
       :: b64_char ((b mod 16) * 4 + c / 64) :: b64_char (c mod 64)
       :: b64encode r)%N
  end.

(** A view body: exceptions and the store threaded together. *)
Definition SM (A : Type) : Type := option Store -> Exc A * option Store.

Definition sret {A} (a : A) : SM A := fun st => (Ok a, st).
Definition sraise {A} (e : exn) : SM A := fun st => (Raise e, st).
Definition lift {A} (m : Exc A) : SM A := fun st => (m, st).
Definition sbind {A B} (m : SM A) (k : A -> SM B) : SM B :=
  fun st =>
    match m st with
    | (Ok a, st') => k a st'
    | (Raise e, st') => (Raise e, st')
    end.

Notation "x <<- m ;; k" := (sbind m (fun x => k))
  (at level 61, m at next level, right associativity) : exc_scope.

(** [int(v)] on a float given by its bits: truncation toward zero. *)
Definition int_of_float (bits : Z) : Exc Z :=
  let neg := 2 ^ 63 <=? bits in
  let e := (bits / 2 ^ 52) mod 2048 in
  let m := bits mod 2 ^ 52 in
  if e =? 2047 then Raise ValueError
  else
    let mag :=
      if e =? 0 then 0
      else if 1075 <=? e then (m + 2 ^ 52) * 2 ^ (e - 1075)
      else (m + 2 ^ 52) / 2 ^ (1075 - e) in
    Ok (if neg then - mag else mag).

(** The library functions whose results are taken as given:
    [base64.b64decode(v).decode("utf-8")], [int(text)], the ISO form of a
    clock reading, [datetime.fromisoformat(text)] as microseconds with the
    flag "carries a UTC offset", [c.isalnum()] for a code point above 127,
    [str(v)] for a value that is not text, and [str(e)] for an exception
    the interpreter raises. *)
Record Library := {
  b64decode_utf8 : str -> Exc str;
  int_of_str : str -> Exc Z;
  isoformat : Z -> str;
  fromisoformat : str -> Exc (Z * bool);
  unicode_alnum : N -> bool;
  str_of : PyVal -> str;
  exn_message : exn -> str
}.

(** The names that [api/views.py] and its views use from the module
    namespace.  The module imports [json], [logging], [re], [time],
    [requests], [os], [datetime as _dt], [JsonResponse], [HttpRequest],
    [csrf_exempt], [require_POST] and the names of [typing], [decouple] and
    [firebase_admin], and binds its own constants and functions; it binds
    none of [base64], [HttpResponseBadRequest], [datetime], [timedelta]. *)
Definition views_namespace (name : string) : bool :=
  existsb (String.eqb name)
    [ "json"; "logging"; "re"; "time"; "requests"; "os"; "_dt"; "config";
      "JsonResponse"; "HttpRequest"; "csrf_exempt"; "require_POST";
      "firebase_admin"; "credentials"; "firestore"; "fs_db"; "logger";
      "PLAN_CREDITS"; "PAID_PLANS"; "PLAN_DEFAULTS" ]%string.

Section Views.

(** The module namespace in force and the library. *)
Variable ns : string -> bool.
Variable lib : Library.

(** Evaluating a global name. *)
Definition load_global {A} (name : string) (k : Exc A) : Exc A :=
  if ns name then k else Raise (NameError name).

(* --------------------------------------------------------------------- *)
(** ** Webhook helpers *)

Definition py_get_default (v : PyVal) (k : str) (dflt : PyVal) : Exc PyVal :=
  match v with
  | PDict d => Ok (match dict_find d k with Some x => x | None => dflt end)
  | _ => Raise AttributeError
  end.

(** [_decode_passthrough(value)]. *)
Definition _decode_passthrough (value : PyVal) : PyVal :=
  if negb (truthy value) then PDict []
  else
    match value with
    | PDict _ => value
    | PStr s =>
        match load_global "base64"
                (decoded <- b64decode_utf8 lib s ;; json_loads decoded) with
        | Ok v => v
        | Raise _ =>
            match json_loads s with
            | Ok v => v
            | Raise _ => PDict []
            end
        end
    | _ => PDict []
    end.

(** [(v.get(k) or {}).get(k2)]. *)
Definition get_in (v : PyVal) (k k2 : str) : Exc PyVal :=
  x <- py_get v k ;; py_get (py_or x (PDict [])) k2.

(** [_get_identity_and_plan(data)]: [(uid, email, plan_label)]. *)
Definition _get_identity_and_plan (data : PyVal)
  : Exc (PyVal * PyVal * PyVal) :=
  plan_label <-
    or_else (get_in data (u "custom_data") (u "plan"))
      (or_else (get_in data (u "metadata") (u "plan")) (Ok PNone)) ;;
  passthrough_raw <-
    or_else (py_get data (u "passthrough"))
      (or_else
         (x <- py_get_default data (u "checkout") (PDict []) ;;
          py_get (py_or x (PDict [])) (u "passthrough"))
         (x <- py_get_default data (u "transaction") (PDict []) ;;
          py_get (py_or x (PDict [])) (u "passthrough"))) ;;
  let pt := _decode_passthrough passthrough_raw in
  uid <- py_get pt (u "uid") ;;
  plan_label <-
    (if negb (truthy plan_label) then py_get pt (u "plan") else Ok plan_label) ;;
  email <-
    or_else (get_in data (u "customer") (u "email"))
      (or_else (py_get data (u "customer_email"))
         (or_else (get_in data (u "billing_details") (u "email"))
            (py_get pt (u "email")))) ;;
  plan <-
    (if truthy plan_label then (t <- py_title plan_label ;; Ok (PStr t))
     else Ok PNone) ;;
  Ok (uid, email, plan).

(** The name test shared by both places of [_infer_plan_from_names];
    [None] stands for "go on". *)
Definition plan_of_name (name : str) : option PyVal :=
  if contains (u "premium") name then Some (PStr (u "Premium"))
  else if contains (u "pro") name then Some (PStr (u "Pro"))
  else None.

(** [_infer_plan_from_names(data)]: any exception gives [None]. *)
Definition _infer_plan_from_names (data : PyVal) : PyVal :=
  let body : Exc PyVal :=
    items <- (x <- py_get data (u "items") ;; Ok (py_or x (PList []))) ;;
    from_items <-
      (if truthy items then
         first <- py_index0 items ;;
         price <- (x <- py_get first (u "price") ;; Ok (py_or x (PDict []))) ;;
         name <- (x <- py_get price (u "name") ;; py_lower (py_or x (PStr []))) ;;
         Ok (plan_of_name name)
       else Ok None) ;;
    match from_items with
    | Some p => Ok p
    | None =>
        li <- (x <- get_in data (u "details") (u "line_items") ;;
               Ok (py_or x (PList []))) ;;
        if truthy li then
          first <- py_index0 li ;;
          product <- (x <- py_get first (u "product") ;; Ok (py_or x (PDict []))) ;;
          prod_name <- (x <- py_get_default product (u "name") (PStr []) ;;
                        py_lower x) ;;
          match plan_of_name prod_name with
          | Some p => Ok p
          | None => Ok PNone
          end
        else Ok PNone
    end in
  match body with
  | Ok v => v
  | Raise _ => PNone
  end.

(** [_detect_credits(plan_label, data)]. *)
Definition _detect_credits (plan_label : PyVal) (data : PyVal) : Exc Z :=
  if py_eq_str plan_label (u "Pro") then Ok 200
  else if py_eq_str plan_label (u "Premium") then Ok 1000
  else
    amount <-
      (details <- py_get data (u "details") ;;
       totals <- py_get_default (py_or details (PDict [])) (u "totals") (PDict []) ;;
       py_get totals (u "grand_total")) ;;
    if py_eq_int amount 646 4648893491911327744
       || py_eq_str amount (u "6.46")
       || py_eq_float amount 4618959331825591255
       || py_eq_str amount (u "646")
    then Ok 200
    else if py_eq_int amount 1669 4655055155073384448
       || py_eq_str amount (u "16.69")
       || py_eq_float amount 4625391035043429745
       || py_eq_str amount (u "1669")
    then Ok 1000
    else if py_eq_int amount 575 4648268969306750976
       || py_eq_str amount (u "5.75")
       || py_eq_float amount 4618159942891732992
       || py_eq_str amount (u "575")
    then Ok 200
    else Ok 0.

(* --------------------------------------------------------------------- *)
(** ** Views *)

(** [HttpResponseBadRequest(content)]. *)
Definition bad_request (content : str) : Exc Response :=
  load_global "HttpResponseBadRequest" (Ok (HttpResponseBadRequest content)).

Definition interesting : list str :=
  [ u "transaction.completed"; u "subscription.activated";
    u "subscription.payment_succeeded"; u "checkout.completed" ].

(** [event_type not in interesting], a set. *)
Definition not_interesting (event_type : PyVal) : Exc bool :=
  if hashable event_type then
    Ok (negb (match event_type with PStr s => str_in s interesting | _ => false end))
  else Raise TypeError.

(** One call [_fs_set_user(...)] inside a view: on an exception the store
    is as it was. *)
Definition run_call (call : option Store -> Exc (bool * option Store))
  : SM bool :=
  fun st =>
    match call st with
    | Ok (r, st') => (Ok r, st')
    | Raise e => (Raise e, st)
    end.

(** What the webhook reads off a payload: an event to acknowledge without
    processing, or the identity, plan and credits to apply. *)
Inductive Event : Type :=
| Ignore (response : Response)
| Apply (uid email plan : PyVal) (credits : Z).

(** [paddle_webhook], from the parsed payload to the test [if not plan]. *)
Definition webhook_event (payload : PyVal) : Exc Event :=
  event <- (x <- py_get payload (u "event") ;; Ok (py_or x payload)) ;;
  event_type <-
    or_else (py_get event (u "type"))
      (or_else (py_get event (u "name")) (Ok (PStr (u "unknown")))) ;;
  data <-
    or_else (py_get event (u "data"))
      (or_else (py_get event (u "object")) (Ok payload)) ;;
  skip <- not_interesting event_type ;;
  if (skip : bool) then
    Ok (Ignore (JsonResponse
                  [(u "ok", PBool true); (u "ignored", event_type)] 200))
  else
    ident <- _get_identity_and_plan data ;;
    let '(uid, email, plan) := ident in
    let plan := if negb (truthy plan) then _infer_plan_from_names data
                else plan in
    credits <- _detect_credits plan data ;;
    if negb (truthy plan) then
      Ok (Ignore (JsonResponse
                    [(u "ok", PBool true); (u "ignored", PStr (u "unknown_plan"))]
                    200))
    else Ok (Apply uid email plan credits).

(** [paddle_webhook], from [updated = False] to the end. *)
Definition webhook_update (uid email plan : PyVal) (credits : Z) : SM Response :=
  updated <<-
    (if truthy uid then
       run_call (fun st => call_fs_set_user st [uid; plan; PInt credits] None
                             (Some true) None)
     else sret false) ;;
  updated <<-
    (if negb updated && truthy email then
       run_call (fun st => call_fs_set_user st [email; plan; PInt credits] None
                             (Some false) None)
     else sret updated) ;;
  if negb updated then
    sret (JsonResponse [(u "ok", PBool true); (u "no_user", PBool true)] 200)
  else sret (JsonResponse [(u "ok", PBool true)] 200).

(** [paddle_webhook(request)]. *)
Definition paddle_webhook : View := fun request =>
  if negb (str_eqb (method request) POST) then lift (bad_request (u "POST only"))
  else
    match (text <- decode_body request ;;
           json_loads (match text with [] => u "{}" | _ => text end)) with
    | Raise JSONDecodeError => lift (bad_request (u "Invalid JSON"))
    | Raise e => sraise e
    | Ok payload =>
        ev <<- lift (webhook_event payload) ;;
        match ev with
        | Ignore response => sret response
        | Apply uid email plan credits => webhook_update uid email plan credits
        end
    end.

(** [confirm_plan(request)]. *)
Definition confirm_plan : View := fun request =>
  if negb (str_eqb (method request) POST) then lift (bad_request (u "POST only"))
  else
    match (text <- decode_body request ;; json_loads text) with
    | Raise _ => lift (bad_request (u "Invalid JSON"))
    | Ok body =>
        uid <<- lift (py_get body (u "uid")) ;;
        plan <<- lift (py_get body (u "plan")) ;;
        if negb (truthy uid)
           || negb (py_eq_str plan (u "Pro") || py_eq_str plan (u "Premium")
                    || py_eq_str plan (u "Basic"))
        then lift (bad_request (u "Bad uid/plan"))
        else
          let credits :=
            if py_eq_str plan (u "Pro") then 200
            else if py_eq_str plan (u "Premium") then 1000 else 50 in
          updated <<-
            (run_call (fun st => call_fs_set_user st [uid; plan; PInt credits] None
                       (Some true) None)) ;;
          sret (JsonResponse [(u "ok", PBool updated)] 200)
    end.

(** The request fields: [body.get(k)], or the empty text, stripped. *)
Definition stripped_field (body : PyVal) (k : str) : Exc str :=
  x <- py_get body k ;; py_strip (py_or x (PStr [])).

Definition json_error (code : str) (status : Z) : Response :=
  JsonResponse [(u "ok", PBool false); (u "error", PStr code)] status.

(** [finalize_checkout(request)]. *)
Definition finalize_checkout : View := require_POST (fun request =>
  match (text <- decode_body request ;; json_loads text) with
  | Raise _ => sret (json_error (u "invalid_json") 400)
  | Ok body =>
      uid <<- lift (stripped_field body (u "uid")) ;;
      email <<- lift (stripped_field body (u "email")) ;;
      plan <<- lift (s <- stripped_field body (u "plan") ;; Ok (title s)) ;;
      ptxn <<- lift (stripped_field body (u "transaction_id")) ;;
      if negb (str_in plan (map fst PLAN_CREDITS)) then
        sret (json_error (u "invalid_plan") 400)
      else
        let ident := match uid with [] => email | _ => uid end in
        match ident with
        | [] => sret (json_error (u "uid_or_email_required") 400)
        | _ =>
            ok <<-
              (run_call (fun st => call_fs_set_user st [PStr ident; PStr plan]
                         (Some (Some (assoc_get PLAN_CREDITS plan 0)))
                         (Some (match uid with [] => false | _ => true end))
                         (Some (match ptxn with [] => None | _ => Some ptxn end)))) ;;
            sret (JsonResponse [(u "ok", PBool ok)] 200)
        end
  end).

(** [select_basic(request)]. *)
Definition select_basic : View := require_POST (fun request =>
  match (text <- decode_body request ;; json_loads text) with
  | Raise _ => sret (json_error (u "invalid_json") 400)
  | Ok body =>
      uid <<- lift (stripped_field body (u "uid")) ;;
      email <<- lift (stripped_field body (u "email")) ;;
      let ident := match uid with [] => email | _ => uid end in
      match ident with
      | [] => sret (json_error (u "uid_or_email_required") 400)
      | _ =>
          ok <<-
            (run_call (fun st => call_fs_set_user st [PStr ident; PStr (u "Basic")]
                       (Some None)
                       (Some (match uid with [] => false | _ => true end))
                       (Some None))) ;;
          sret (JsonResponse [(u "ok", PBool ok)] 200)
      end
  end).

(* --------------------------------------------------------------------- *)
(** ** Auto top-up *)

(** [int(v)]. *)
Definition py_int (v : PyVal) : Exc Z :=
  match v with
  | PInt z => Ok z
  | PBool b => Ok (if b then 1 else 0)
  | PFloat bits => int_of_float bits
  | PStr s => int_of_str lib s
  | _ => Raise TypeError
  end.

Definition day_us : Z := 24 * 3600 * 1000000.

(** The refill decision of [refresh_credits] on a stored timestamp, inside
    its [try]: [Ok true] when a day or more has passed.  A stored value that
    is not text has no [replace] taking two strings; subtracting a reading
    that carries an offset from the naive [now] raises. *)
Definition day_elapsed (now : Z) (depleted_at : PyVal) : Exc bool :=
  match depleted_at with
  | PStr s =>
      last <- load_global "datetime" (fromisoformat lib (remove_char 90 s)) ;;
      let '(last_us, aware) := last in
      if (aware : bool) then Raise TypeError
      else load_global "timedelta" (Ok (day_us <=? now - last_us))
  | PDatetime _ => Raise TypeError
  | _ => Raise AttributeError
  end.

(** [refresh_credits], from the document read to [if updates]: the staged
    [updates]. *)
Definition refresh_updates (now : Z) (doc : Doc) : Exc Dict :=
  plan <- py_title (py_or (dict_get doc (u "subscriptionPlan")) (PStr [])) ;;
  credits <- py_int (py_or (dict_get doc (u "credits")) (PInt 0)) ;;
  let updates : Dict := [] in
  let updates :=
    if str_in plan PAID_PLANS
       && negb (truthy (dict_get doc (u "subscriptionSelected")))
    then dict_set updates (u "subscriptionSelected") (PBool true)
    else updates in
  if str_in plan PAID_PLANS && (credits <=? 0) then
    let depleted_at := dict_get doc (u "creditDepletedAt") in
    load_global "datetime"
      (if negb (truthy depleted_at) then
         Ok (dict_set updates (u "creditDepletedAt")
               (PStr (isoformat lib now ++ u "Z")))
       else
         let refill :=
           dict_set
             (dict_set updates (u "credits")
                (PInt (assoc_get PLAN_CREDITS plan 0)))
             (u "creditDepletedAt") PNone in
         match day_elapsed now depleted_at with
         | Ok true => Ok refill
         | Ok false => Ok updates
         | Raise _ => Ok refill
         end)
  else Ok updates.

Definition updated_response (updated : bool) : Response :=
  JsonResponse [(u "ok", PBool true); (u "updated", PBool updated)] 200.

(** [refresh_credits], from [if fs_db is None] on, for the stripped [uid]
    and [email]. *)
Definition refresh_user (now : Z) (uid email : str) : SM Response :=
  fun fs_db =>
    match fs_db with
    | None => (Ok (json_error (u "fs_unavailable") 500), fs_db)
    | Some db =>
        match (match uid with
               | [] => query_email db email
               | _ => Some uid
               end) with
        | None =>
            (Ok (JsonResponse
                   [(u "ok", PBool false); (u "updated", PBool false)] 200),
             fs_db)
        | Some ref =>
            match refresh_updates now (doc_of db ref) with
            | Raise e => (Raise e, fs_db)
            | Ok [] => (Ok (updated_response false), fs_db)
            | Ok updates =>
                (Ok (updated_response true),
                 Some (store_set_merge db ref updates))
            end
        end
    end.

(** [refresh_credits(request)], with [now] the reading of the clock. *)
Definition refresh_credits (now : Z) : View := require_POST (fun request =>
  match (text <- decode_body request ;; json_loads text) with
  | Raise _ => sret (json_error (u "invalid_json") 400)
  | Ok body =>
      uid <<- lift (stripped_field body (u "uid")) ;;
      email <<- lift (stripped_field body (u "email")) ;;
      match uid, email with
      | [], [] => sret (json_error (u "uid_or_email_required") 400)
      | _, _ => refresh_user now uid email
      end
  end).

End Views.

(** A library none of whose functions succeeds. *)
Definition no_library : Library :=
  {| b64decode_utf8 := fun _ => Raise ValueError;
     int_of_str := fun _ => Raise ValueError;
     isoformat := fun _ => [];
     fromisoformat := fun _ => Raise ValueError;
     unicode_alnum := fun _ => false;
     str_of := fun _ => [];
     exn_message := fun _ => [] |}.

(* ===================================================================== *)
(** * Patterns of [re] *)
(* ===================================================================== *)

(** The patterns the module uses, as syntax trees.  [Chr p] is one
    character satisfying [p]; [Star g a] is [a*] (greedy when [g]) or [a*?];
    [Group a] is the first capturing group; [Bol m] and [Eol m] are [^] and
    [$], with [m] the MULTILINE flag; [EndZ] is [\Z]; [WordB] is [\b]. *)
Inductive re : Type :=
| Eps
| Chr (p : N -> bool)
| Seq (a b : re)
| Alt (a b : re)
| Star (greedy : bool) (a : re)
| Group (a : re)
| Bol (multiline : bool)
| Eol (multiline : bool)
| EndZ
| WordB.

Definition Plus (g : bool) (a : re) : re := Seq a (Star g a).
Definition Opt (a : re) : re := Alt a Eps.

Fixpoint seqs (l : list re) : re :=
  match l with
  | [] => Eps
  | [a] => a
  | a :: r => Seq a (seqs r)
  end.

Fixpoint alts (l : list re) : re :=
  match l with
  | [] => Chr (fun _ => false)
  | [a] => a
  | a :: r => Alt a (alts r)
  end.

Definition one_of (set : str) : re := Chr (fun c => existsb (N.eqb c) set).
Definition ws : re := Chr is_space.
Definition dot : re := Chr (fun c => negb (c =? 10)%N).
Definition any : re := Chr (fun _ => true).

(** A literal, and a literal under IGNORECASE: besides the two cases of a
    letter, [i] matches U+0130 and U+0131, [k] matches U+212A and [s]
    matches U+017F. *)
Definition lit (s : str) : re := seqs (map (fun a => Chr (N.eqb a)) s).

Definition ci_eq (a x : N) : bool :=
  ((to_lower x =? to_lower a)
   || ((to_lower a =? 105) && ((x =? 304) || (x =? 305)))
   || ((to_lower a =? 107) && (x =? 8490))
   || ((to_lower a =? 115) && (x =? 383)))%N.

Definition lit_ci (s : str) : re := seqs (map (fun a => Chr (ci_eq a)) s).

Section Matching.

Variable lib : Library.

(** The class [\w]. *)
Definition is_word (c : N) : bool :=
  if (c <? 128)%N then is_digit c || is_upper c || is_lower c || (c =? 95)%N
  else unicode_alnum lib c.

Definition word_at (s : str) (i : nat) : bool :=
  match nth_error s i with Some c => is_word c | None => false end.

Definition at_bol (m : bool) (s : str) (i : nat) : bool :=
  match i with
  | O => true
  | S i' => m && match nth_error s i' with Some 10%N => true | _ => false end
  end.

Definition at_eol (m : bool) (s : str) (i : nat) : bool :=
  (i =? List.length s)%nat
  || match nth_error s i with
     | Some 10%N => m || (S i =? List.length s)%nat
     | _ => false
     end.

Definition at_wordb (s : str) (i : nat) : bool :=
  negb (Bool.eqb (match i with O => false | S i' => word_at s i' end)
                 (word_at s i)).

(** The span of the first group, when it took part in the match. *)
Definition capt := option (nat * nat).

(** Backtracking match of [r] in [s] from index [i]: [k] continues with the
    index reached and the capture; the first continuation that succeeds
    decides.  An iteration of a star that consumes nothing ends the star. *)
Fixpoint rmatch {R} (r : re) (s : str) (i : nat) (g : capt)
    (k : nat -> capt -> option R) {struct r} : option R :=
  match r with
  | Eps => k i g
  | Chr p =>
      match nth_error s i with
      | Some c => if p c then k (S i) g else None
      | None => None
      end
  | Seq a b => rmatch a s i g (fun j g' => rmatch b s j g' k)
  | Alt a b =>
      match rmatch a s i g k with
      | Some x => Some x
      | None => rmatch b s i g k
      end
  | Star greedy a =>
      (fix loop (n : nat) (i : nat) (g : capt) {struct n} : option R :=
         match n with
         | O => k i g
         | S n' =>
             let more :=
               rmatch a s i g
                 (fun j g' => if (j <=? i)%nat then None else loop n' j g') in
             if greedy then
               match more with Some x => Some x | None => k i g end
             else
               match k i g with Some x => Some x | None => more end
         end) (S (List.length s)) i g
  | Group a => rmatch a s i g (fun j _ => k j (Some (i, j)))
  | Bol m => if at_bol m s i then k i g else None
  | Eol m => if at_eol m s i then k i g else None
  | EndZ => if (i =? List.length s)%nat then k i g else None
  | WordB => if at_wordb s i then k i g else None
  end.

(** The match that starts at [i]: its end and capture. *)
Definition match_at (r : re) (s : str) (i : nat) : option (nat * capt) :=
  rmatch r s i None (fun j g => Some (j, g)).

(** [re.search]: the leftmost start with a match. *)
Fixpoint search_from (r : re) (s : str) (n : nat) (i : nat)
  : option (nat * nat * capt) :=
  match match_at r s i with
  | Some (j, g) => Some (i, j, g)
  | None =>
      match n with
      | O => None
      | S n' => search_from r s n' (S i)
      end
  end.

Definition search (r : re) (s : str) : option (nat * nat * capt) :=
  search_from r s (List.length s) 0.

Definition found (r : re) (s : str) : bool :=
  match search r s with Some _ => true | None => false end.

Definition substr (s : str) (a b : nat) : str := firstn (b - a) (skipn a s).

(** [m.group(1)] of the first match. *)
Definition group1 (r : re) (s : str) : option str :=
  match search r s with
  | Some (_, _, Some (a, b)) => Some (substr s a b)
  | _ => None
  end.

(** [re.sub(r, repl, s)] for a replacement without group references. *)
Fixpoint sub_from (r : re) (repl s : str) (n : nat) (i : nat) : str :=
  match n with
  | O => []
  | S n' =>
      match match_at r s i with
      | Some (j, _) =>
          if (i <? j)%nat then repl ++ sub_from r repl s n' j
          else
            match nth_error s i with
            | Some c => repl ++ c :: sub_from r repl s n' (S i)
            | None => repl
            end
      | None =>
          match nth_error s i with
          | Some c => c :: sub_from r repl s n' (S i)
          | None => []
          end
      end
  end.

Definition sub (r : re) (repl s : str) : str :=
  sub_from r repl s (S (List.length s)) 0.

(* --------------------------------------------------------------------- *)
(** ** Words and lines *)

(** [s.split()]. *)
Fixpoint split (s : str) : list str :=
  match s with
  | [] => []
  | c :: r =>
      if is_space c then split r
      else
        match r with
        | [] => [[c]]
        | c' :: _ =>
            if is_space c' then [c] :: split r
            else
              match split r with
              | w :: ws' => (c :: w) :: ws'
              | [] => [[c]]
              end
        end
  end.

(** [sep.join(words)]. *)
Fixpoint join (sep : str) (words : list str) : str :=
  match words with
  | [] => []
  | [w] => w
  | w :: r => w ++ sep ++ join sep r
  end.

(** The line boundaries of [splitlines]. *)
Definition is_linebreak (c : N) : bool :=
  (((10 <=? c) && (c <=? 13)) || ((28 <=? c) && (c <=? 30)) || (c =? 133)
   || (c =? 8232) || (c =? 8233))%N.

(** [s.splitlines()]. *)
Fixpoint splitlines (s : str) : list str :=
  match s with
  | [] => []
  | c :: r =>
      if is_linebreak c then
        [] :: match c, r with
              | 13%N, 10%N :: r' => splitlines r'
              | _, _ => splitlines r
              end
      else
        match splitlines r with
        | l :: ls => (c :: l) :: ls
        | [] => [[c]]
        end
  end.

(** [s.rstrip(chars)]. *)
Fixpoint lstrip_chars (set : str) (s : str) : str :=
  match s with
  | c :: r => if existsb (N.eqb c) set then lstrip_chars set r else s
  | [] => []
  end.

Definition rstrip_chars (set : str) (s : str) : str :=
  rev (lstrip_chars set (rev s)).

(** [s.replace(a, b)] for a one-character [a]. *)
Definition replace_char (a : N) (b : str) (s : str) : str :=
  flat_map (fun c => if (c =? a)%N then b else [c]) s.

(* --------------------------------------------------------------------- *)
(** ** Sanitizers *)

Definition md_noise : re := Plus true (one_of (u "*_`>#~")).

(** [_strip_md_noise(s)]. *)
Definition _strip_md_noise (s : str) : str := strip (sub md_noise [] s).

Definition end_punct : re := Seq (one_of (u ".!?")) (Eol false).

(** [_ensure_end_punct(s)]. *)
Definition _ensure_end_punct (s : str) : str :=
  if found end_punct s then s
  else match s with [] => s | _ => s ++ u "." end.

(** The pattern [^(.+?[.!?])(\s|$)]. *)
Definition first_sentence : re :=
  seqs [Bol false; Group (Seq (Plus false dot) (one_of (u ".!?")));
        Alt ws (Eol false)].

(** [_first_sentence_or_line(s)]: the first line is taken with [[0]], which
    raises on a text without lines. *)
Definition _first_sentence_or_line (s : str) : Exc str :=
  match splitlines s with
  | [] => Raise IndexError
  | line :: _ =>
      let s := strip line in
      match group1 first_sentence s with
      | Some g => Ok (strip g)
      | None => Ok s
      end
  end.

Definition ELLIPSIS : str := u "…".

(** [_cap_words(s, max_words)]. *)
Definition _cap_words (s : str) (max_words : nat) : str :=
  let words := split s in
  if (List.length words <=? max_words)%nat then s
  else rstrip_chars (u ",;:–-") (join (u " ") (firstn max_words words))
       ++ ELLIPSIS.

(** The pattern at the end of [_extract_after_label]: under (?is), the
    word [undefined] between optional white space, once or more, up to
    [\Z]. *)
Definition undefined_tail : re :=
  Seq (Plus true (seqs [Star true ws; WordB; lit_ci (u "undefined"); WordB;
                        Star true ws]))
      EndZ.

(** The pattern of a label: under (?is), [\b], the label, a colon between
    optional white space, and the rest as the group. *)
Definition after_label (label : str) : re :=
  seqs [WordB; lit_ci label; Star true ws; lit (u ":"); Star true ws;
        Group (Star true any)].

(** [_extract_after_label(text, label)]. *)
Definition _extract_after_label (text label : str) : str :=
  let t := strip text in
  let t := match group1 (after_label label) t with
           | Some g => strip g
           | None => t
           end in
  strip (sub undefined_tail [] t).

(** [_tighten_hook(raw)]. *)
Definition _tighten_hook (raw : str) : Exc str :=
  let t := _extract_after_label raw (u "Hook") in
  let t := _strip_md_noise t in
  t <- _first_sentence_or_line t ;;
  let t := _cap_words t 16 in
  Ok (_ensure_end_punct t).

(** The pattern [^[\-\*•]\s*] under MULTILINE. *)
Definition bullet : re := seqs [Bol true; one_of (u "-*•"); Star true ws].

(** [_tighten_body(raw)]. *)
Definition _tighten_body (raw : str) : str :=
  let t := _extract_after_label raw (u "Body") in
  let t := _strip_md_noise t in
  let t := sub bullet [] t in
  let t := strip (sub (Plus true ws) (u " ") t) in
  let t := _cap_words t 80 in
  _ensure_end_punct t.

(** [_tighten_cta(raw)]. *)
Definition _tighten_cta (raw : str) : Exc str :=
  let t := _extract_after_label raw (u "CTA") in
  let t := _strip_md_noise t in
  t <- _first_sentence_or_line t ;;
  let t := _cap_words t 20 in
  Ok (_ensure_end_punct t).

End Matching.

(* ===================================================================== *)
(** * Quality gates and normalisation *)
(* ===================================================================== *)

Section Gates.

Variable lib : Library.

Definition GENERIC_Q_RE : re :=
  seqs [ WordB;
         alts [ lit_ci (u "ever wonder");
                lit_ci (u "have you ever");
                Seq (lit_ci (u "are you")) (Opt (lit_ci (u " a")));
                lit_ci (u "did you know");
                seqs [ lit_ci (u "in today"); Opt (lit (u "'"));
                       lit_ci (u "s ");
                       Alt (lit_ci (u "video")) (lit_ci (u "reel")) ];
                lit_ci (u "in this video");
                seqs [ lit_ci (u "let"); Opt (lit (u "'"));
                       lit_ci (u "s dive in") ] ];
         WordB ].

Definition YOU_RE : re :=
  seqs [ WordB; lit_ci (u "you");
         alts [ lit_ci (u "r"); lit_ci (u "’re"); lit_ci (u "'re"); WordB ] ].

Definition ACTION_VERBS_RE : re :=
  seqs [ WordB;
         alts (map (fun w => lit_ci (u w))
                 [ "save"; "comment"; "follow"; "dm"; "share"; "tap"; "try";
                   "use"; "apply"; "post"; "record"; "write"; "build";
                   "launch"; "fix"; "download"; "grab"; "join"; "watch";
                   "bookmark" ]%string);
         WordB ].

(** [_hook_needs_reforge(h)]. *)
Definition _hook_needs_reforge (h : str) : bool :=
  match h with
  | [] => true
  | _ =>
      let words := split h in
      let too_short := (List.length words <? 8)%nat in
      let too_long := (18 <? List.length words)%nat in
      let lacks_you := negb (found lib YOU_RE h) in
      let is_generic_q := found lib GENERIC_Q_RE h in
      too_short || too_long || lacks_you || is_generic_q
  end.

(** [_body_needs_reforge(b)]. *)
Definition _body_needs_reforge (b : str) : bool :=
  match b with
  | [] => true
  | _ =>
      let words := split b in
      let too_short := (List.length words <? 50)%nat in
      let too_long := (100 <? List.length words)%nat in
      let lacks_you := negb (found lib YOU_RE b) in
      let has_generic := found lib GENERIC_Q_RE b in
      let lacks_action := negb (found lib ACTION_VERBS_RE b) in
      too_short || too_long || lacks_you || has_generic || lacks_action
  end.

(** [_cta_needs_reforge(c)]. *)
Definition _cta_needs_reforge (c : str) : bool :=
  match c with
  | [] => true
  | _ =>
      let too_long := (24 <? List.length (split c))%nat in
      let lacks_imperative := negb (found lib ACTION_VERBS_RE c) in
      let lacks_you_hint := negb (found lib YOU_RE c) in
      too_long || lacks_imperative || lacks_you_hint
  end.

(** [s.replace(CR LF, LF)]. *)
Fixpoint replace_crlf (s : str) : str :=
  match s with
  | 13%N :: r =>
      match r with
      | 10%N :: r' => 10%N :: replace_crlf r'
      | _ => 13%N :: replace_crlf r
      end
  | c :: r => c :: replace_crlf r
  | [] => []
  end.

Definition fence : str := u "```".

(** The label patterns [(?im)^\s*<word>\s*:]. *)
Definition label_line (word : str) : re :=
  seqs [Bol true; Star true ws; lit_ci word; Star true ws; lit (u ":")].

(** [_normalize_sections(text)]. *)
Definition _normalize_sections (text : str) : str :=
  match text with
  | [] => text
  | _ =>
      let t := replace_char 13 [10%N] (replace_crlf text) in
      let t := sub lib (seqs [Bol false; lit fence;
                              Opt (Plus true (Chr (is_word lib)));
                              lit [10%N]]) [] t in
      let t := sub lib (seqs [lit [10%N]; lit fence; Eol false]) [] t in
      let t := sub lib (label_line (u "hok")) (u "Hook:") t in
      let t := sub lib (label_line (u "hook")) (u "Hook:") t in
      let t := sub lib (label_line (u "body")) (u "Body:") t in
      let t := sub lib (label_line (u "cta")) (u "CTA:") t in
      rstrip (sub lib undefined_tail [] t)
  end.

(** [_norm(s)]. *)
Definition _norm (s : PyVal) : str :=
  if negb (truthy s) then []
  else
    let s := match s with PStr x => x | v => str_of lib v end in
    strip (replace_char 13 (u " ") (replace_char 10 (u " ") s)).

(** [_limit_words(text, max_words)]. *)
Definition _limit_words (text : str) (max_words : nat) : str :=
  let words := split text in
  if (List.length words <=? max_words)%nat then text
  else join (u " ") (firstn max_words words).

(** [build_user_prompt(...)]. *)
Definition build_user_prompt (niche sub_category follower_count tone
                              more_specific : str) : str :=
  let part (present : str) (text : str) : list str :=
    match present with [] => [] | _ => [text] end in
  let parts :=
    [ match niche with
      | [] => u "I'm creating Reels"
      | _ => u "I'm creating Reels in the '" ++ niche ++ u "' niche"
      end ]
    ++ part sub_category (u "focused on '" ++ sub_category ++ u "'")
    ++ part follower_count
         (u "with a follower level of '" ++ follower_count ++ u "'")
    ++ part tone (u "in a '" ++ tone ++ u "' tone") in
  let base := join (u ", ") parts ++ u "." in
  let specific :=
    match more_specific with
    | [] => []
    | _ => u " The script should revolve around: '" ++ more_specific ++ u "'."
    end in
  let guidance :=
    u " Make it sound like spoken language, not an essay. "
    ++ u "Include one emotional shift and at least one concrete example or 2–3 steps "
    ++ u "relevant to my audience level. Keep total length ~80–110 words." in
  base ++ specific ++ guidance.

End Gates.

(* ===================================================================== *)
(** * The completion endpoint *)
(* ===================================================================== *)

(** The system prompts are constants of the module; a message carries one
    of them by name, or a text built at run time. *)
Inductive SystemPrompt : Type :=
| SYSTEM_PROMPT | HOOK_SYSTEM_PROMPT | BODY_SYSTEM_PROMPT | CTA_SYSTEM_PROMPT
| REFORGE_HOOK_SYSTEM_PROMPT | REFORGE_BODY_SYSTEM_PROMPT
| REFORGE_CTA_SYSTEM_PROMPT.

Inductive MsgContent : Type :=
| Prompt (p : SystemPrompt)
| Text (s : str).

Record Message := { msg_role : str; msg_content : MsgContent }.
Definition Messages := list Message.

Definition system_msg (p : SystemPrompt) : Message :=
  {| msg_role := u "system"; msg_content := Prompt p |}.
Definition user_msg (s : str) : Message :=
  {| msg_role := u "user"; msg_content := Text s |}.

(** The settings read from the environment at import. *)
Record Config := {
  OPENROUTER_API_KEY : str;
  OPENROUTER_MODEL_PRIMARY : str;
  OPENROUTER_MODEL_FALLBACK : str;
  MAX_RETRIES : Z;
  DEBUG_MODE : bool
}.

Definition RETRY_STATUS : list Z := [408; 409; 425; 429; 500; 502; 503; 504].

(** What one [requests.post] does: a response, with its status, the result
    of [resp.json()] (a value, or the message of the decoding error, which
    [requests] raises as a [RequestException]) and [resp.text]; or one of
    the exceptions the loop tells apart. *)
Inductive PostOutcome : Type :=
| Responded (status_code : Z) (json : PyVal + str) (text : str)
| RaisedTimeout
| RaisedRequestException (message : str)
| RaisedOther (message : str).

(** What is observed of a run: each entry of [call_openrouter], each POST,
    each back-off sleep with its multiplier. *)
Inductive Effect : Type :=
| EvCall (model : str) (messages : Messages)
| EvPost (model : str) (messages : Messages)
| EvSleep (tries : Z).

Record World := { posts : nat; calls : nat; trace : list Effect }.

Definition world0 : World := {| posts := 0; calls := 0; trace := [] |}.

Definition log (e : Effect) (w : World) : World :=
  {| posts := posts w; calls := calls w; trace := trace w ++ [e] |}.

(** Decimal text of an integer, for [f"{status}"]. *)
Fixpoint digits_of (fuel : nat) (n : Z) (acc : str) : str :=
  match fuel with
  | O => acc
  | S f =>
      let acc := Z.to_N (48 + n mod 10) :: acc in
      if n <? 10 then acc else digits_of f (n / 10) acc
  end.

Definition str_of_Z (z : Z) : str :=
  if z <? 0 then 45%N :: digits_of (S (Z.to_nat (Z.log2 (- z)))) (- z) []
  else digits_of (S (Z.to_nat (Z.log2 z))) z [].

Section Completion.

Variable cfg : Config.
Variable lib : Library.

(** The outcome of the k-th POST of the run, and the latency that the k-th
    call of [call_openrouter] measures. *)
Variable upstream : nat -> PostOutcome.
Variable latency_ms : nat -> Z.

Definition hint : PyVal :=
  PDict [(u "hint", PStr (u "Enable DEBUG to see upstream body"))].

Definition error_dict (code message : str) (extra : Dict) : PyVal :=
  PDict ([(u "code", PStr code); (u "message", PStr message)] ++ extra).

(** The variables of the retry loop. *)
Record Loop := {
  l_tries : Z;
  l_last_status : option Z;
  l_content : PyVal;
  l_error : PyVal
}.

(** [choices[0].get("message")], ..., [msg.get("content")] on the decoded
    body. *)
Definition content_of (data : PyVal) : Exc PyVal :=
  choices <- (x <- py_get data (u "choices") ;; Ok (py_or x (PList []))) ;;
  msg <- (if truthy choices
          then first <- py_index0 choices ;; py_get first (u "message")
          else Ok PNone) ;;
  if truthy msg then py_get msg (u "content") else Ok PNone.

(** The iterations of [for attempt in range(MAX_RETRIES + 1)] from
    [attempt] on, [n] of them being left; [None] as the first component is
    the [continue] into the next iteration, here the recursive call.  *)
Fixpoint attempts (model : str) (messages : Messages) (n : nat) (attempt : Z)
    (st : Loop) (w : World) {struct n} : Loop * World :=
  match n with
  | O => (st, w)
  | S n' =>
      let tries := attempt + 1 in
      let outcome := upstream (posts w) in
      let w := log (EvPost model messages)
                 {| posts := S (posts w); calls := calls w; trace := trace w |} in
      let retry (st : Loop) :=
        attempts model messages n' (attempt + 1) st (log (EvSleep tries) w) in
      let next (st : Loop) := attempts model messages n' (attempt + 1) st w in
      match outcome with
      | Responded status_code json text =>
          let st := {| l_tries := tries; l_last_status := Some status_code;
                       l_content := l_content st; l_error := l_error st |} in
          if 400 <=? status_code then
            let upstream_body :=
              match json with
              | inl v => v
              | inr _ => PDict [(u "raw", PStr (firstn 1000 text))]
              end in
            if existsb (Z.eqb status_code) RETRY_STATUS
               && (attempt <? MAX_RETRIES cfg)
            then retry st
            else
              ({| l_tries := tries; l_last_status := Some status_code;
                  l_content := l_content st;
                  l_error :=
                    error_dict (u "UPSTREAM_ERROR")
                      (str_of_Z status_code ++ u " from OpenRouter")
                      [(u "upstream",
                        if DEBUG_MODE cfg then upstream_body else hint)] |}, w)
          else
            match json with
            | inr message =>
                if attempt <? MAX_RETRIES cfg then retry st
                else
                  next {| l_tries := tries; l_last_status := Some status_code;
                          l_content := l_content st;
                          l_error :=
                            error_dict (u "UPSTREAM_REQUEST_ERROR")
                              (firstn 300 message) [] |}
            | inl data =>
                match content_of data with
                | Raise e =>
                    ({| l_tries := tries; l_last_status := Some status_code;
                        l_content := l_content st;
                        l_error :=
                          error_dict (u "SERVER_ERROR")
                            (firstn 300 (exn_message lib e)) [] |}, w)
                | Ok content =>
                    ({| l_tries := tries; l_last_status := Some status_code;
                        l_content := content;
                        l_error :=
                          if negb (truthy content) then
                            error_dict (u "BAD_RESPONSE")
                              (u "No content returned from model.")
                              [(u "upstream",
                                if DEBUG_MODE cfg then data else hint)]
                          else l_error st |}, w)
                end
            end
      | RaisedTimeout =>
          let st := {| l_tries := tries; l_last_status := l_last_status st;
                       l_content := l_content st; l_error := l_error st |} in
          if attempt <? MAX_RETRIES cfg then retry st
          else
            next {| l_tries := tries; l_last_status := l_last_status st;
                    l_content := l_content st;
                    l_error :=
                      error_dict (u "UPSTREAM_TIMEOUT")
                        (u "Model request timed out.") [] |}
      | RaisedRequestException message =>
          let st := {| l_tries := tries; l_last_status := l_last_status st;
                       l_content := l_content st; l_error := l_error st |} in
          if attempt <? MAX_RETRIES cfg then retry st
          else
            next {| l_tries := tries; l_last_status := l_last_status st;
                    l_content := l_content st;
                    l_error :=
                      error_dict (u "UPSTREAM_REQUEST_ERROR")
                        (firstn 300 message) [] |}
      | RaisedOther message =>
          ({| l_tries := tries; l_last_status := l_last_status st;
              l_content := l_content st;
              l_error :=
                error_dict (u "SERVER_ERROR") (firstn 300 message) [] |}, w)
      end
  end.

Definition meta_dict (status tries latency : Z) (model : str) : Dict :=
  [ (u "status", PInt status); (u "tries", PInt tries);
    (u "latency_ms", PInt latency); (u "model", PStr model) ].

(** The triple [(content, meta, error)] of a completion. *)
Definition Completion : Type := PyVal * Dict * PyVal.

(** [call_openrouter(messages, model)].  The URL, the headers and the
    sampling settings are the same in every request and are part of what
    [upstream] answers to; of the payload, the model and the messages are
    recorded.  The header entry [Referer] is read as the constant
    [APP_PUBLIC_URL] (the source line has a stray quote after the name). *)
Definition call_openrouter (messages : Messages) (model : str) (w : World)
  : Completion * World :=
  let w := log (EvCall model messages)
             {| posts := posts w; calls := S (calls w); trace := trace w |} in
  match OPENROUTER_API_KEY cfg with
  | [] =>
      ((PNone, meta_dict 0 0 0 model,
        error_dict (u "SERVER_CONFIG") (u "Missing OPENROUTER_API_KEY.") []), w)
  | _ =>
      let '(st, w') :=
        attempts model messages (Z.to_nat (MAX_RETRIES cfg + 1)) 0
          {| l_tries := 0; l_last_status := None; l_content := PNone;
             l_error := PNone |} w in
      ((l_content st,
        meta_dict (match l_last_status st with
                   | Some z => if z =? 0 then 0 else z
                   | None => 0
                   end)
          (l_tries st) (latency_ms (calls w)) model,
        l_error st), w')
  end.

(** [generate_with_fallback(messages)]. *)
Definition generate_with_fallback (messages : Messages) (w : World)
  : Completion * World :=
  let '((content, meta, err), w1) :=
    call_openrouter messages (OPENROUTER_MODEL_PRIMARY cfg) w in
  if truthy content then ((content, meta, PNone), w1)
  else
    let '((content2, meta2, err2), w2) :=
      call_openrouter messages (OPENROUTER_MODEL_FALLBACK cfg) w1 in
    if truthy content2 then ((content2, meta2, PNone), w2)
    else
      let combined_err := PDict [(u "primary", err); (u "fallback", err2)] in
      ((PNone, meta2, combined_err), w2).

End Completion.

(* ===================================================================== *)
(** * [generate_review] *)
(* ===================================================================== *)

(** A view body on the completion endpoint: the world threaded, an
    exception ending the run. *)
Definition GE (A : Type) : Type := World -> Exc A * World.

Definition gret {A} (a : A) : GE A := fun w => (Ok a, w).
Definition glift {A} (m : Exc A) : GE A := fun w => (m, w).
Definition gbind {A B} (m : GE A) (k : A -> GE B) : GE B :=
  fun w =>
    match m w with
    | (Ok a, w') => k a w'
    | (Raise e, w') => (Raise e, w')
    end.

Notation "x <~ m ;; k" := (gbind m (fun x => k))
  (at level 61, m at next level, right associativity) : exc_scope.

Definition nl : str := [10%N].

Section GenerateReview.

Variable cfg : Config.
Variable lib : Library.
Variable upstream : nat -> PostOutcome.
Variable latency_ms : nat -> Z.

(** A call of [generate_with_fallback] inside the view. *)
Definition generate (messages : Messages) : GE Completion :=
  fun w =>
    let '(r, w') := generate_with_fallback cfg lib upstream latency_ms messages w in
    (Ok r, w').

(** A [str] method applied to a completion: the value has it when it is
    text. *)
Definition as_text (v : PyVal) : Exc str :=
  match v with PStr s => Ok s | _ => Raise AttributeError end.

(** [_get_user_doc(uid, email)], by id first, then by e-mail; [None] also
    when the store is not available. *)
Definition _get_user_doc (fs : option Store) (uid email : str) : option Doc :=
  match fs with
  | None => None
  | Some db =>
      match (match uid with
             | [] => None
             | _ => store_find db (strip uid)
             end) with
      | Some d => Some d
      | None =>
          match email with
          | [] => None
          | _ =>
              match query_email db (strip email) with
              | Some id => Some (doc_of db id)
              | None => None
              end
          end
      end
  end.

Definition json_response (data : Dict) (status : Z) : Response :=
  JsonResponse data status.

(** The one-shot path, from [messages = ...] to the end of the view. *)
Definition one_shot (user_prompt : str) : GE Response :=
  let messages := [system_msg SYSTEM_PROMPT; user_msg user_prompt] in
  r <~ generate messages ;;
  let '(content, meta, upstream_err) := r in
  if truthy content then
    text <~ glift (as_text content) ;;
    let cleaned := _normalize_sections lib (strip text) in
    gret (json_response
            [ (u "response", PStr cleaned);
              (u "meta", PDict ((u "mode", PStr (u "single_shot")) :: meta)) ]
            200)
  else
    let payload :=
      [ (u "error", PStr (u "Upstream model failed")); (u "meta", PDict meta) ] in
    let payload :=
      if DEBUG_MODE cfg && truthy upstream_err
      then dict_set payload (u "upstream") upstream_err else payload in
    gret (json_response payload 502).

(** A section after its quality gate: one rewrite is asked for when the
    gate fires, and kept when it comes back with content. *)
Definition reforged (needs : str -> bool) (tighten : str -> Exc str)
    (messages : str -> Messages) (section : str) : GE str :=
  if needs section then
    r <~ generate (messages section) ;;
    let '(raw, _, _) := r in
    if truthy raw then glift (t <- as_text raw ;; tighten t)
    else gret section
  else gret section.

Definition hook_msgs (user_prompt : str) : Messages :=
  [system_msg HOOK_SYSTEM_PROMPT; user_msg user_prompt].

Definition body_msgs (user_prompt hook : str) : Messages :=
  [ system_msg BODY_SYSTEM_PROMPT;
    user_msg (user_prompt ++ nl ++ nl
              ++ u "Use this Hook (do not repeat it verbatim):" ++ nl ++ hook) ].

Definition cta_msgs (user_prompt body_txt : str) : Messages :=
  [ system_msg CTA_SYSTEM_PROMPT;
    user_msg (user_prompt ++ nl ++ nl
              ++ u "Here is the Body to build a CTA for:" ++ nl ++ body_txt) ].

(** Stage 1, HOOK: the accepted hook and the metadata of its call, or
    [None] when the call comes back without content. *)
Definition hook_stage (user_prompt : str) : GE (option (str * Dict)) :=
  r <~ generate (hook_msgs user_prompt) ;;
  let '(hook_raw, hook_meta, hook_err) := r in
  if truthy hook_raw then
    hook <~ glift (t <- as_text hook_raw ;; _tighten_hook lib t) ;;
    hook <~ reforged (_hook_needs_reforge lib) (_tighten_hook lib)
              (fun hook =>
                 [ system_msg REFORGE_HOOK_SYSTEM_PROMPT;
                   user_msg
                     (user_prompt ++ nl ++ nl
                      ++ u "Rewrite this into a direct, second-person, highly relatable one-liner (8–16 words), "
                      ++ u "no generic questions:" ++ nl ++ u "Hook: " ++ hook) ])
              hook ;;
    gret (Some (hook, hook_meta))
  else gret None.

(** Stage 2, BODY, conditioned on the hook. *)
Definition body_stage (user_prompt hook : str) : GE (option (str * Dict)) :=
  r <~ generate (body_msgs user_prompt hook) ;;
  let '(body_raw, body_meta, body_err) := r in
  if truthy body_raw then
    body_txt <~ glift (t <- as_text body_raw ;; Ok (_tighten_body lib t)) ;;
    body_txt <~ reforged (_body_needs_reforge lib)
                  (fun t => Ok (_tighten_body lib t))
                  (fun body_txt =>
                     [ system_msg REFORGE_BODY_SYSTEM_PROMPT;
                       user_msg
                         (user_prompt ++ nl ++ nl
                          ++ u "Rewrite this Body to be more human, persuasive, and concrete (60–90 words):"
                          ++ nl ++ u "Body: " ++ body_txt) ])
                  body_txt ;;
    gret (Some (body_txt, body_meta))
  else gret None.

(** Stage 3, CTA, conditioned on the body. *)
Definition cta_stage (user_prompt body_txt : str) : GE (option (str * Dict)) :=
  r <~ generate (cta_msgs user_prompt body_txt) ;;
  let '(cta_raw, cta_meta, cta_err) := r in
  if truthy cta_raw then
    cta_txt <~ glift (t <- as_text cta_raw ;; _tighten_cta lib t) ;;
    cta_txt <~ reforged (_cta_needs_reforge lib) (_tighten_cta lib)
                 (fun cta_txt =>
                    [ system_msg REFORGE_CTA_SYSTEM_PROMPT;
                      user_msg
                        (user_prompt ++ nl ++ nl
                         ++ u "Rewrite this CTA to be imperative, viewer-directed, and specific:"
                         ++ nl ++ u "CTA: " ++ cta_txt) ])
                 cta_txt ;;
    gret (Some (cta_txt, cta_meta))
  else gret None.

(** The response of the completed stepwise run. *)
Definition stepwise_response (hook body_txt cta_txt : str)
    (hook_meta body_meta cta_meta : Dict) : Response :=
  let combined :=
    u "Hook: " ++ hook ++ nl ++ nl ++ u "Body: " ++ body_txt ++ nl ++ nl
    ++ u "CTA: " ++ cta_txt in
  let cleaned := _normalize_sections lib (strip combined) in
  let meta :=
    [ (u "mode", PStr (u "premium_stepwise")); (u "hook", PDict hook_meta);
      (u "body", PDict body_meta); (u "cta", PDict cta_meta) ] in
  json_response [(u "response", PStr cleaned); (u "meta", PDict meta)] 200.

(** The Premium block: [Some response] when the three stages complete,
    [None] when the block falls through to the one-shot path. *)
Definition premium_stepwise (user_prompt : str) : GE (option Response) :=
  h <~ hook_stage user_prompt ;;
  match h with
  | None => gret None
  | Some (hook, hook_meta) =>
      b <~ body_stage user_prompt hook ;;
      match b with
      | None => gret None
      | Some (body_txt, body_meta) =>
          c <~ cta_stage user_prompt body_txt ;;
          match c with
          | None => gret None
          | Some (cta_txt, cta_meta) =>
              gret (Some (stepwise_response hook body_txt cta_txt
                            hook_meta body_meta cta_meta))
          end
      end
  end.

(** Where a request goes before any completion is asked for: refused, or
    on with the plan and the user prompt. *)
Inductive Routed : Type :=
| Refused (response : Response)
| Route (plan user_prompt : str).

(** [generate_review], from the method test to [user_prompt]. *)
Definition route (fs : option Store) (request : HttpRequest) : Exc Routed :=
  if negb (str_eqb (method request) POST) then
    Ok (Refused (json_response [(u "error", PStr (u "Only POST allowed."))] 405))
  else
    match (text <- decode_body request ;; json_loads text) with
    | Raise _ =>
        Ok (Refused (json_response
                       [(u "error", PStr (u "Invalid JSON body."))] 400))
    | Ok body =>
        niche <- py_get_default body (u "niche") (PStr (u "Instagram")) ;;
        sub_category <- py_get_default body (u "subCategory") (PStr []) ;;
        follower_count <- py_get_default body (u "followerCount") (PStr []) ;;
        tone <- py_get_default body (u "tone") (PStr []) ;;
        more_specific <- py_get_default body (u "moreSpecific") (PStr []) ;;
        uid <- py_get_default body (u "uid") (PStr []) ;;
        email <- py_get_default body (u "email") (PStr []) ;;
        let niche := _norm lib niche in
        let sub_category := _norm lib sub_category in
        let follower_count := _norm lib follower_count in
        let tone := _norm lib tone in
        let more_specific := _limit_words (_norm lib more_specific) 30 in
        let user_doc := _get_user_doc fs (_norm lib uid) (_norm lib email) in
        plan <- (x <- py_get_default
                        (PDict (match user_doc with Some d => d | None => [] end))
                        (u "subscriptionPlan") (PStr []) ;;
                 s <- py_strip x ;; Ok (title s)) ;;
        Ok (Route plan
              (build_user_prompt niche sub_category follower_count tone
                 more_specific))
    end.

(** [generate_review(request)], with the store it reads the plan from. *)
Definition generate_review (fs : option Store) (request : HttpRequest)
  : GE Response :=
  r <~ glift (route fs request) ;;
  match r with
  | Refused response => gret response
  | Route plan user_prompt =>
      if str_eqb plan (u "Premium") then
        r <~ premium_stepwise user_prompt ;;
        match r with
        | Some response => gret response
        | None => one_shot user_prompt
        end
      else one_shot user_prompt
  end.

(** A stage of the stepwise run comes back without content: the Hook call,
    or the Body call after an accepted hook, or the CTA call after an
    accepted hook and body.  [w] is the world before the run and [w1] the
    world after the failed call. *)
Inductive stage_fails (user_prompt : str) (w w1 : World) : Prop :=
| HookFails raw meta err :
    generate (hook_msgs user_prompt) w = (Ok (raw, meta, err), w1) ->
    truthy raw = false ->
    stage_fails user_prompt w w1
| BodyFails hook hook_meta wh raw meta err :
    hook_stage user_prompt w = (Ok (Some (hook, hook_meta)), wh) ->
    generate (body_msgs user_prompt hook) wh = (Ok (raw, meta, err), w1) ->
    truthy raw = false ->
    stage_fails user_prompt w w1
| CtaFails hook hook_meta wh body_txt body_meta wb raw meta err :
    hook_stage user_prompt w = (Ok (Some (hook, hook_meta)), wh) ->
    body_stage user_prompt hook wh = (Ok (Some (body_txt, body_meta)), wb) ->
    generate (cta_msgs user_prompt body_txt) wb = (Ok (raw, meta, err), w1) ->
    truthy raw = false ->
    stage_fails user_prompt w w1.

(** The two responses of the one-shot path. *)
Definition single_shot_200 (r : Response) : Prop :=
  exists cleaned meta,
    r = JsonResponse
          [ (u "response", PStr cleaned);
            (u "meta", PDict ((u "mode", PStr (u "single_shot")) :: meta)) ] 200.

Definition upstream_502 (r : Response) : Prop :=
  exists payload,
    r = JsonResponse payload 502 /\
    dict_find payload (u "error") = Some (PStr (u "Upstream model failed")).

End GenerateReview.

(** The calls of [call_openrouter] in a trace: model and messages. *)
Definition calls_of (tr : list Effect) : list (str * Messages) :=
  flat_map (fun e => match e with
                     | EvCall model messages => [(model, messages)]
                     | _ => []
                     end) tr.

(** A server that never answers in time. *)
Definition always_timeout : nat -> PostOutcome := fun _ => RaisedTimeout.

Definition sample_config : Config :=
  {| OPENROUTER_API_KEY := u "sk-test";
     OPENROUTER_MODEL_PRIMARY := u "openai/gpt-4o-mini";
     OPENROUTER_MODEL_FALLBACK := u "meta-llama/llama-3.1-70b-instruct";
     MAX_RETRIES := 2;
     DEBUG_MODE := false |}.

(* ===================================================================== *)
(** * Counting words *)
(* ===================================================================== *)

(** The number of words of [s] when the character before it is inside a
    word ([in_word]) or not, and whether the end of [s] is inside a word. *)
Fixpoint wc_from (in_word : bool) (s : str) : nat :=
  match s with
  | [] => O
  | c :: r =>
      if is_space c then wc_from false r
      else ((if in_word then 0 else 1) + wc_from true r)%nat
  end.

Fixpoint state_after (in_word : bool) (s : str) : bool :=
  match s with
  | [] => in_word
  | c :: r => state_after (negb (is_space c)) r
  end.

(** [s] is empty or ends in a character that is no white space. *)
Definition tail_ok (s : str) : bool :=
  match rev s with
  | [] => true
  | c :: _ => negb (is_space c)
  end.

(** [s] ends in one of the terminal punctuation marks [.], [!], [?]. *)
Definition ends_in_punct (s : str) : bool :=
  match rev s with
  | [] => false
  | c :: _ => existsb (N.eqb c) (u ".!?")
  end.

Definition spacefree (w : str) : Prop := forall c, In c w -> is_space c = false.

(** A word: white space nowhere in it, and not empty. *)
Definition good (w : str) : Prop := spacefree w /\ w <> [].

(** A store with one Premium user, and a request of that user. *)
Definition premium_store : option Store :=
  Some [(u "u1", [(u "subscriptionPlan", PStr (u "premium"))])].

Definition premium_request : HttpRequest :=
  {| method := POST; body := Some (j "{'uid': 'u1', 'niche': 'fitness'}") |}.

(** The record of a paid user without credits, as the view reads it. *)
Definition paid_and_empty (lib : Library) (doc : Doc) (plan : str) : Prop :=
  py_title (py_or (dict_get doc (u "subscriptionPlan")) (PStr [])) = Ok plan /\
  str_in plan PAID_PLANS = true /\
  exists credits,
    py_int lib (py_or (dict_get doc (u "credits")) (PInt 0)) = Ok credits /\
    credits <= 0.

(** The fields that [_fs_set_user] stages under a fixed name; the seventh,
    [processedTxns.<transaction id>], is named after the transaction. *)
Definition ledger_fields : list str :=
  [ u "subscriptionSelected"; u "subscriptionPlan"; u "creditDepletedAt";
    u "credits"; u "freeBasicGranted"; u "lastPaidTxn" ].

(** A text that is none of the plan names the ledger knows. *)
Definition unknown_plan (plan : str) : bool :=
  negb (str_eqb plan (u "Basic")) && negb (str_in plan PAID_PLANS).

(** One call of [_fs_set_user], as data, and a history of such calls run in
    order on the store. *)
Record Update := {
  upd_target : str;
  upd_plan : str;
  upd_credits : option Z;
  upd_by_uid : bool;
  upd_txn : option str
}.

Definition apply_update (fs_db : option Store) (c : Update) : option Store :=
  snd (_fs_set_user fs_db (upd_target c) (upd_plan c) (upd_credits c)
         (upd_by_uid c) (upd_txn c)).

Definition apply_updates (history : list Update) (fs_db : option Store)
  : option Store :=
  fold_left apply_update history fs_db.

(** [_apply_plan_to_user(uid, email, plan)]: by id first, then by e-mail.
    Both calls pass the credits as a third positional argument. *)
Definition _apply_plan_to_user (uid email : PyVal) (plan : str) : SM bool :=
  let credits := assoc_get PLAN_CREDITS plan 0 in
  updated <<-
    (if truthy uid then
       run_call (fun st => call_fs_set_user st [uid; PStr plan; PInt credits]
                             None (Some true) None)
     else sret false) ;;
  updated <<-
    (if negb updated && truthy email then
       run_call (fun st => call_fs_set_user st [email; PStr plan; PInt credits]
                             None (Some false) None)
     else sret updated) ;;
  sret updated.

(** A request field on which [(body.get(k) or <empty>).strip()] does not
    raise: a text, or any falsy value. *)
Definition text_or_falsy (v : PyVal) : bool :=
  match v with PStr _ => true | _ => negb (truthy v) end.

(** A value on which [(v or {}).get(k)] does not raise: a map, or any falsy
    value. *)
Definition mapping_or_falsy (v : PyVal) : bool :=
  match v with PDict _ => true | _ => negb (truthy v) end.

(** The back-off sleeps of a trace, by their multiplier. *)
Definition sleeps_of (tr : list Effect) : list Z :=
  flat_map (fun e => match e with EvSleep tries => [tries] | _ => [] end) tr.

(** An error of [call_openrouter]: a dict that starts with [code] and
    [message]. *)
Definition is_error (v : PyVal) : Prop :=
  exists code message extra, v = error_dict code message extra.

(** What a piece of [generate_review] may spend between two worlds: at
    most [k] calls of [call_openrouter], and at most [k] times the
    attempts of one call in POSTs. *)
Definition spent (cfg : Config) (k : nat) (w w' : World) : Prop :=
  (calls w' <= calls w + k)%nat /\
  (posts w' <= posts w + k * Z.to_nat (MAX_RETRIES cfg + 1))%nat.

(** The characters that [_strip_md_noise] deletes. *)
Definition is_md_noise (c : N) : bool := existsb (N.eqb c) (u "*_`>#~").

(** The length of the run of [p] at the head of a text. *)
Fixpoint span_len (p : N -> bool) (l : str) : nat :=
  match l with
  | c :: r => if p c then S (span_len p r) else 0
  | [] => 0
  end.

(** The loop that [rmatch] runs for a greedy star over one character
    class, with its fuel as an argument. *)
Section ChrStar.
Context {R : Type}.
Variable p : N -> bool.
Variable s : str.
Variable k : nat -> capt -> option R.

Fixpoint chr_star_loop (n i : nat) (g : capt) {struct n} : option R :=
  match n with
  | O => k i g
  | S n' =>
      let more :=
        match nth_error s i with
        | Some c =>
            if p c then
              if (S i <=? i)%nat then None else chr_star_loop n' (S i) g
            else None
        | None => None
        end in
      match more with Some x => Some x | None => k i g end
  end.

End ChrStar.

(* ##################################################################### *)
(** * Properties *)
(* ##################################################################### *)

(** ** Text and dictionaries *)

Lemma str_eqb_eq (a b : str) : str_eqb a b = true <-> a = b.
Proof.
  revert b; induction a as [|x a IH]; intros [|y b]; simpl;
    try (split; [discriminate | discriminate]); try tauto.
  rewrite andb_true_iff, N.eqb_eq, IH.
  split; [intros [-> ->]; reflexivity | intros H; inversion H; auto].
Qed.

Lemma str_eqb_refl (a : str) : str_eqb a a = true.
Proof. apply str_eqb_eq; reflexivity. Qed.

Lemma str_eqb_neq (a b : str) : a <> b -> str_eqb a b = false.
Proof.
  intros H; destruct (str_eqb a b) eqn:E; [|reflexivity].
  apply str_eqb_eq in E; contradiction.
Qed.

Lemma dict_find_set_same d k v : dict_find (dict_set d k v) k = Some v.
Proof.
  induction d as [|[k' v'] d IH]; simpl.
  - rewrite str_eqb_refl; reflexivity.
  - destruct (str_eqb k k') eqn:E; simpl; rewrite E; auto.
Qed.

Lemma dict_find_set_other d k v k' :
  k' <> k -> dict_find (dict_set d k v) k' = dict_find d k'.
Proof.
  intros Hne; induction d as [|[k0 v0] d IH]; simpl.
  - rewrite (str_eqb_neq k' k Hne); reflexivity.
  - destruct (str_eqb k k0) eqn:E; simpl.
    + apply str_eqb_eq in E; subst k0.
      rewrite (str_eqb_neq k' k Hne); reflexivity.
    + destruct (str_eqb k' k0); auto.
Qed.

(** ** The store *)

Lemma doc_merge_find d updates k :
  dict_find (doc_merge d updates) k =
  match dict_find updates k with
  | Some v => Some v
  | None => dict_find d k
  end.
Proof.
  induction updates as [|[k0 v0] r IH]; simpl; [reflexivity|].
  destruct (str_eqb k k0) eqn:E.
  - apply str_eqb_eq in E; subst k0. apply dict_find_set_same.
  - rewrite dict_find_set_other; [exact IH|].
    intros ->. rewrite str_eqb_refl in E; discriminate.
Qed.

Lemma doc_of_set_same db id updates :
  doc_of (store_set_merge db id updates) id = doc_merge (doc_of db id) updates.
Proof.
  unfold doc_of.
  induction db as [|[i d] r IH]; simpl.
  - rewrite str_eqb_refl; reflexivity.
  - destruct (str_eqb id i) eqn:E; simpl; rewrite E; auto.
Qed.

Lemma doc_of_set_other db id updates id' :
  id' <> id -> doc_of (store_set_merge db id updates) id' = doc_of db id'.
Proof.
  intros Hne; unfold doc_of.
  induction db as [|[i d] r IH]; simpl.
  - rewrite (str_eqb_neq _ _ Hne); reflexivity.
  - destruct (str_eqb id i) eqn:E; simpl.
    + apply str_eqb_eq in E; subst i.
      rewrite (str_eqb_neq _ _ Hne); reflexivity.
    + destruct (str_eqb id' i); auto.
Qed.

(** A field that [updates] does not name is the same in every document
    after the write. *)
Lemma field_kept_by_set db id updates id' k :
  dict_find updates k = None ->
  dict_find (doc_of (store_set_merge db id updates) id') k =
  dict_find (doc_of db id') k.
Proof.
  intros Hk.
  destruct (str_eqb id' id) eqn:E.
  - apply str_eqb_eq in E; subst id'.
    rewrite doc_of_set_same, doc_merge_find, Hk; reflexivity.
  - rewrite doc_of_set_other; [reflexivity|].
    intros ->; rewrite str_eqb_refl in E; discriminate.
Qed.

(** The e-mail query finds the same document after a write that does not
    name the [email] field. *)
Lemma query_email_set db id updates e :
  dict_find updates (u "email") = None ->
  query_email db e <> None ->
  query_email (store_set_merge db id updates) e = query_email db e.
Proof.
  intros Hk.
  induction db as [|[i d] r IH]; simpl; [congruence|].
  intros Hq.
  destruct (str_eqb id i) eqn:E; simpl.
  - rewrite doc_merge_find, Hk. reflexivity.
  - destruct (dict_find d (u "email")) as [[| | | |e'| | |]|]; auto.
    destruct (str_eqb e e'); auto.
Qed.

(** ** What [_fs_set_user] stages *)

Ltac stage_cases :=
  unfold staged_updates;
  repeat match goal with
  | |- context [if ?b then _ else _] => destruct b
  | |- context [match ?t with Some _ => _ | None => _ end] => destruct t
  | |- context [match ?t with [] => _ | _ :: _ => _ end] => destruct t
  | |- context [ebind ?m _] => destruct m; cbn [ebind]
  end.

(** None of the staged keys is [email] or [processedTxns]. *)
Lemma staged_field_email doc plan c t :
  staged_field (staged_updates doc plan c t) (u "email") = None.
Proof. stage_cases; vm_compute; reflexivity. Qed.

Lemma staged_field_processedTxns doc plan c t :
  staged_field (staged_updates doc plan c t) (u "processedTxns") = None.
Proof. stage_cases; vm_compute; reflexivity. Qed.

Lemma staged_no_email doc plan c t updates :
  staged_updates doc plan c t = Ok updates ->
  dict_find updates (u "email") = None.
Proof.
  intros H. change (staged_field (Ok updates) (u "email") = None).
  rewrite <- H. apply staged_field_email.
Qed.

Lemma staged_no_processedTxns doc plan c t updates :
  staged_updates doc plan c t = Ok updates ->
  dict_find updates (u "processedTxns") = None.
Proof.
  intros H. change (staged_field (Ok updates) (u "processedTxns") = None).
  rewrite <- H. apply staged_field_processedTxns.
Qed.

(** ** The credit grant *)

Lemma paid_default_in plan dflt :
  paid_default plan = Some dflt ->
  str_eqb plan (u "Basic") = false /\ str_in plan PAID_PLANS = true /\
  assoc_get PLAN_CREDITS plan 0 = dflt.
Proof.
  unfold paid_default; intros H.
  destruct (str_eqb plan (u "Pro")) eqn:E1.
  - apply str_eqb_eq in E1; subst plan. injection H as <-.
    vm_compute; auto.
  - destruct (str_eqb plan (u "Premium")) eqn:E2; [|discriminate].
    apply str_eqb_eq in E2; subst plan. injection H as <-.
    vm_compute; auto.
Qed.

(** Reading the marker of a transaction off a readable record does not
    raise, and gives the marker. *)
Lemma already_lookup doc t :
  txns_readable doc = true ->
  exists v,
    py_get (py_or (dict_get doc (u "processedTxns")) (PDict [])) t = Ok v /\
    truthy v = txn_marked doc t.
Proof.
  unfold txns_readable, txn_marked, py_or.
  destruct (dict_get doc (u "processedTxns")) as [|b|z|bits|s|l|m|tt];
    intros Hr; simpl in Hr;
    try (apply negb_true_iff in Hr; simpl; rewrite Hr);
    try discriminate Hr;
    try (exists PNone; split; reflexivity).
  destruct m; simpl; eexists; split; reflexivity.
Qed.

Lemma credits_after_grant (plan t : str) (z : Z) :
  dict_find
    (dict_set
       (dict_set
          (dict_set
             [ (u "subscriptionSelected", PBool true);
               (u "subscriptionPlan", PStr plan);
               (u "creditDepletedAt", PNone) ] (u "credits") (PInt z))
          (u "processedTxns." ++ t) (PBool true))
       (u "lastPaidTxn") (PStr t)) (u "credits") = Some (PInt z).
Proof.
  rewrite dict_find_set_other by (intro H; vm_compute in H; discriminate H).
  rewrite dict_find_set_other by (intro H; vm_compute in H; discriminate H).
  apply dict_find_set_same.
Qed.

(** In each grant situation the staged [credits] is the grant amount. *)
Lemma staged_grant doc c plan t amt :
  grant_case doc c plan t amt ->
  exists updates,
    staged_updates doc plan c t = Ok updates /\
    dict_find updates (u "credits") = Some (PInt amt).
Proof.
  intros G; destruct G as [t Hflag | plan dflt c0 t0 Hp Hr Hm | plan dflt t Hp Ht].
  - unfold staged_updates. rewrite str_eqb_refl, Hflag. simpl.
    eexists; split; [reflexivity|]. vm_compute; reflexivity.
  - destruct (paid_default_in _ _ Hp) as (Hb & Hin & Hd).
    destruct (already_lookup doc (c0 :: t0) Hr) as (v & Hv & Htv).
    unfold staged_updates. rewrite Hb, Hin, Hv. unfold ebind.
    rewrite Htv, Hm, Hd.
    eexists; split; [reflexivity|]. apply credits_after_grant.
  - destruct (paid_default_in _ _ Hp) as (Hb & Hin & Hd).
    unfold staged_updates. rewrite Hb, Hin, Hd.
    destruct Ht as [-> | ->]; (eexists; split; [reflexivity|]);
      apply dict_find_set_same.
Qed.

Lemma fs_set_user_grant_overwrites_aux
    (db : Store) (uid_or_email plan ref : str) (credits_to_grant : option Z)
    (by_uid : bool) (transaction_id : option str) (amt : Z) :
  locate db uid_or_email by_uid = Some ref ->
  grant_case (doc_of db ref) credits_to_grant plan transaction_id amt ->
  exists db',
    _fs_set_user (Some db) uid_or_email plan credits_to_grant by_uid
      transaction_id = (true, Some db') /\
    credits_at (Some db') ref = Some (PInt amt).
Proof.
  intros Hloc G.
  destruct (staged_grant _ _ _ _ _ G) as (updates & Hst & Hc).
  unfold _fs_set_user, fs_set_user_try. rewrite Hloc. simpl. rewrite Hst. simpl.
  eexists; split; [reflexivity|].
  unfold credits_at. rewrite doc_of_set_same, doc_merge_find, Hc. reflexivity.
Qed.

(** C10.  Whenever [_fs_set_user] grants credits (a Basic grant with
    [freeBasicGranted] unset, a paid grant with a transaction id not yet
    marked, a paid grant without a transaction id), the call succeeds and the
    [credits] field of the record is exactly the grant amount: 50 for Basic,
    and for Pro and Premium the explicit amount or, without one, 200 and
    1000.  The previous balance plays no part: the field is overwritten. *)
Theorem fs_set_user_grant_overwrites
    (db : Store) (uid_or_email plan ref : str) (credits_to_grant : option Z)
    (by_uid : bool) (transaction_id : option str) (amt : Z) :
  locate db uid_or_email by_uid = Some ref ->
  grant_case (doc_of db ref) credits_to_grant plan transaction_id amt ->
  exists db',
    _fs_set_user (Some db) uid_or_email plan credits_to_grant by_uid
      transaction_id = (true, Some db') /\
    credits_at (Some db') ref = Some (PInt amt).
Proof.
  intros Hloc G.
  destruct (staged_grant _ _ _ _ _ G) as (updates & Hst & Hc).
  unfold _fs_set_user, fs_set_user_try. rewrite Hloc. simpl. rewrite Hst. simpl.
  eexists; split; [reflexivity|].
  unfold credits_at. rewrite doc_of_set_same, doc_merge_find, Hc. reflexivity.
Qed.

(** A record with 999 credits and no Basic flag, granted Basic with an
    explicit amount of 70: the balance becomes 50. *)
Lemma fs_set_user_grant_overwrites_witness :
  exists db',
    _fs_set_user (Some [(u "u1", [(u "credits", PInt 999)])]) (u "u1")
      (u "Basic") (Some 70) true None = (true, Some db') /\
    credits_at (Some db') (u "u1") = Some (PInt 50).
Proof.
  apply (fs_set_user_grant_overwrites
           [(u "u1", [(u "credits", PInt 999)])] (u "u1") (u "Basic") (u "u1")
           (Some 70) true None 50).
  - reflexivity.
  - apply GrantBasic. reflexivity.
Defined.

(** ** The Basic pack is granted once *)

Lemma fs_set_user_ok_inv db uid_or_email plan c by_uid t db1 :
  _fs_set_user (Some db) uid_or_email plan c by_uid t = (true, Some db1) ->
  exists ref updates,
    locate db uid_or_email by_uid = Some ref /\
    staged_updates (doc_of db ref) plan c t = Ok updates /\
    db1 = store_set_merge db ref updates.
Proof.
  unfold _fs_set_user, fs_set_user_try.
  destruct (locate db uid_or_email by_uid) as [ref|] eqn:Hloc;
    [|simpl; intros H; discriminate H].
  destruct (staged_updates (doc_of db ref) plan c t) as [updates|e] eqn:Hst;
    simpl; intros H; [|discriminate H].
  injection H as <-. exists ref, updates; auto.
Qed.

Lemma locate_after_set db uid_or_email by_uid ref id updates :
  dict_find updates (u "email") = None ->
  locate db uid_or_email by_uid = Some ref ->
  locate (store_set_merge db id updates) uid_or_email by_uid = Some ref.
Proof.
  unfold locate; destruct by_uid; [auto|].
  intros Hk Hq. rewrite query_email_set; [exact Hq | exact Hk | congruence].
Qed.

(** With the flag set on the located record, a Basic update changes the
    [credits] field of no record. *)
Lemma basic_no_regrant db uid_or_email by_uid c t ref :
  locate db uid_or_email by_uid = Some ref ->
  truthy (dict_get (doc_of db ref) (u "freeBasicGranted")) = true ->
  forall id,
    credits_at (snd (_fs_set_user (Some db) uid_or_email (u "Basic") c by_uid t))
      id = credits_at (Some db) id.
Proof.
  intros Hloc Hflag id.
  unfold _fs_set_user, fs_set_user_try. rewrite Hloc.
  unfold staged_updates. rewrite str_eqb_refl, Hflag. simpl.
  apply field_kept_by_set. reflexivity.
Qed.

(** After a successful Basic update the flag is set on the record. *)
Lemma basic_sets_flag db uid_or_email by_uid c t db1 :
  _fs_set_user (Some db) uid_or_email (u "Basic") c by_uid t = (true, Some db1) ->
  exists ref,
    locate db1 uid_or_email by_uid = Some ref /\
    truthy (dict_get (doc_of db1 ref) (u "freeBasicGranted")) = true.
Proof.
  intros H. destruct (fs_set_user_ok_inv _ _ _ _ _ _ _ H)
    as (ref & updates & Hloc & Hst & ->).
  exists ref. split.
  - apply locate_after_set; [|exact Hloc].
    eapply staged_no_email; exact Hst.
  - unfold dict_get. rewrite doc_of_set_same, doc_merge_find.
    unfold staged_updates in Hst. rewrite str_eqb_refl in Hst.
    destruct (truthy (dict_get (doc_of db ref) (u "freeBasicGranted"))) eqn:Hf;
      simpl in Hst; injection Hst as <-.
    + exact Hf.
    + reflexivity.
Qed.

(** With the flag set on a record, no Basic update, whichever record it is
    addressed to, changes the [credits] field of that record. *)
Lemma basic_keeps_flagged db ref uid_or_email by_uid c t :
  truthy (dict_get (doc_of db ref) (u "freeBasicGranted")) = true ->
  credits_at (snd (_fs_set_user (Some db) uid_or_email (u "Basic") c by_uid t))
    ref = credits_at (Some db) ref.
Proof.
  intros Hflag. unfold _fs_set_user, fs_set_user_try.
  destruct (locate db uid_or_email by_uid) as [ref2|]; [|reflexivity].
  unfold staged_updates. rewrite str_eqb_refl.
  destruct (str_eqb ref ref2) eqn:E.
  - apply str_eqb_eq in E; subst ref2. rewrite Hflag. simpl.
    apply field_kept_by_set. reflexivity.
  - assert (Hne : ref <> ref2)
      by (intros ->; rewrite str_eqb_refl in E; discriminate).
    destruct (truthy (dict_get (doc_of db ref2) (u "freeBasicGranted")));
      simpl; rewrite doc_of_set_other by exact Hne; reflexivity.
Qed.


(** The flag is staged as [True] or not at all. *)
Lemma staged_field_flag doc plan c t :
  staged_field (staged_updates doc plan c t) (u "freeBasicGranted") = None \/
  staged_field (staged_updates doc plan c t) (u "freeBasicGranted")
  = Some (PBool true).
Proof. stage_cases; vm_compute; auto. Qed.

(** The flag, once set on a record, stays set through every update,
    whatever the plan and the record addressed. *)
Lemma flag_kept db uid_or_email plan c by_uid t ref db1 :
  truthy (dict_get (doc_of db ref) (u "freeBasicGranted")) = true ->
  snd (_fs_set_user (Some db) uid_or_email plan c by_uid t) = Some db1 ->
  truthy (dict_get (doc_of db1 ref) (u "freeBasicGranted")) = true.
Proof.
  intros Hflag. unfold _fs_set_user, fs_set_user_try.
  destruct (locate db uid_or_email by_uid) as [ref2|];
    [|simpl; intros H; injection H as <-; exact Hflag].
  pose proof (staged_field_flag (doc_of db ref2) plan c t) as S.
  destruct (staged_updates (doc_of db ref2) plan c t) as [updates|e];
    simpl; intros H; injection H as <-; [|exact Hflag].
  simpl in S. unfold dict_get.
  destruct (str_eqb ref ref2) eqn:E.
  - apply str_eqb_eq in E; subst ref2.
    rewrite doc_of_set_same, doc_merge_find.
    destruct S as [-> | ->]; [exact Hflag | reflexivity].
  - rewrite doc_of_set_other; [exact Hflag|].
    intros ->; rewrite str_eqb_refl in E; discriminate.
Qed.

(** An update that does not succeed leaves the store as it was. *)
Lemma fs_set_user_failed fs_db uid_or_email plan c by_uid t :
  fst (_fs_set_user fs_db uid_or_email plan c by_uid t) = false ->
  snd (_fs_set_user fs_db uid_or_email plan c by_uid t) = fs_db.
Proof.
  unfold _fs_set_user, fs_set_user_try. destruct fs_db as [db|]; [|reflexivity].
  destruct (locate db uid_or_email by_uid) as [ref|]; [|reflexivity].
  destruct (staged_updates (doc_of db ref) plan c t); simpl;
    [discriminate | reflexivity].
Qed.

(** A successful update returns a store. *)
Lemma fs_set_user_ok_store fs_db uid_or_email plan c by_uid t :
  fst (_fs_set_user fs_db uid_or_email plan c by_uid t) = true ->
  exists db db1,
    fs_db = Some db /\
    _fs_set_user fs_db uid_or_email plan c by_uid t = (true, Some db1).
Proof.
  unfold _fs_set_user, fs_set_user_try. destruct fs_db as [db|];
    [|simpl; discriminate].
  destruct (locate db uid_or_email by_uid) as [ref|]; [|simpl; discriminate].
  destruct (staged_updates (doc_of db ref) plan c t); simpl;
    [|discriminate].
  intros _. eexists _, _. split; reflexivity.
Qed.

(** C2.  After a successful Basic update of an account the
    [freeBasicGranted] flag is set on its record, and from then on a Basic
    update with the same identifier changes the [credits] field of no
    record, and no Basic update at all, by id or by e-mail, changes the
    [credits] field of that record, whatever amount and transaction id it
    carries. *)
Theorem fs_set_user_basic_once
    (db db1 : Store) (uid_or_email ref : str) (by_uid : bool)
    (c1 : option Z) (t1 : option str) :
  locate db uid_or_email by_uid = Some ref ->
  _fs_set_user (Some db) uid_or_email (u "Basic") c1 by_uid t1
    = (true, Some db1) ->
  truthy (dict_get (doc_of db1 ref) (u "freeBasicGranted")) = true /\
  (forall (c2 : option Z) (t2 : option str) (id : str),
     credits_at
       (snd (_fs_set_user (Some db1) uid_or_email (u "Basic") c2 by_uid t2)) id
     = credits_at (Some db1) id) /\
  (forall (uid_or_email2 : str) (by_uid2 : bool) (c2 : option Z)
          (t2 : option str),
     credits_at
       (snd (_fs_set_user (Some db1) uid_or_email2 (u "Basic") c2 by_uid2 t2))
       ref
     = credits_at (Some db1) ref).
Proof.
  intros Hloc H.
  destruct (basic_sets_flag _ _ _ _ _ _ H) as (ref1 & Hloc1 & Hflag).
  destruct (fs_set_user_ok_inv _ _ _ _ _ _ _ H)
    as (ref0 & updates & Hloc0 & Hst & ->).
  rewrite Hloc in Hloc0. injection Hloc0 as <-.
  rewrite (locate_after_set _ _ _ _ _ _ (staged_no_email _ _ _ _ _ Hst) Hloc)
    in Hloc1.
  injection Hloc1 as <-.
  split; [exact Hflag|]. split.
  - intros c2 t2 id. eapply basic_no_regrant; [|exact Hflag].
    apply locate_after_set; [|exact Hloc].
    eapply staged_no_email; exact Hst.
  - intros uid_or_email2 by_uid2 c2 t2.
    apply basic_keeps_flagged. exact Hflag.
Qed.

(** On an empty store: the first Basic update creates the record with 50
    credits, the second, carrying an amount of 70 and a transaction id,
    leaves 50. *)
Lemma fs_set_user_basic_once_witness :
  let s1 := snd (_fs_set_user (Some []) (u "u1") (u "Basic") None true None) in
  credits_at s1 (u "u1") = Some (PInt 50) /\
  credits_at
    (snd (_fs_set_user s1 (u "u1") (u "Basic") (Some 70) true (Some (u "tx9"))))
    (u "u1")
  = Some (PInt 50).
Proof.
  cbv zeta. split; [vm_compute; reflexivity|].
  destruct (fs_set_user_basic_once [] _ (u "u1") (u "u1") true None None
              eq_refl eq_refl) as (_ & K & _).
  exact (K (Some 70) (Some (u "tx9")) (u "u1")).
Defined.

(** Two Basic updates in a row change the [credits] fields at most once:
    one of the two leaves them all as they were. *)
Lemma basic_twice_at_most_once fs_db uid_or_email by_uid c1 c2 t1 t2 :
  let s1 := snd (_fs_set_user fs_db uid_or_email (u "Basic") c1 by_uid t1) in
  let s2 := snd (_fs_set_user s1 uid_or_email (u "Basic") c2 by_uid t2) in
  (forall id, credits_at s1 id = credits_at fs_db id) \/
  (forall id, credits_at s2 id = credits_at s1 id).
Proof.
  cbv zeta.
  destruct (fst (_fs_set_user fs_db uid_or_email (u "Basic") c1 by_uid t1))
    eqn:E.
  - right. intros id.
    destruct (fs_set_user_ok_store _ _ _ _ _ _ E) as (db & db1 & -> & H).
    rewrite H. cbn [snd].
    destruct (basic_sets_flag _ _ _ _ _ _ H) as (ref & Hloc & Hflag).
    eapply basic_no_regrant; eauto.
  - left. intros id. rewrite (fs_set_user_failed _ _ _ _ _ _ E). reflexivity.
Qed.

(** ** The transaction marker *)

(** No call changes the [processedTxns] field of any record: the marker is
    written under the field name [processedTxns.<id>], next to it. *)
Lemma fs_set_user_keeps_processedTxns fs_db uid_or_email plan c by_uid t id :
  field_at (snd (_fs_set_user fs_db uid_or_email plan c by_uid t)) id
    (u "processedTxns")
  = field_at fs_db id (u "processedTxns").
Proof.
  destruct fs_db as [db|]; [|reflexivity].
  unfold _fs_set_user, fs_set_user_try.
  destruct (locate db uid_or_email by_uid) as [ref|]; [|reflexivity].
  destruct (staged_updates (doc_of db ref) plan c t) as [updates|e] eqn:Hst;
    simpl; [|reflexivity].
  apply field_kept_by_set. eapply staged_no_processedTxns; exact Hst.
Qed.

(** A paid update with a transaction id, on a record whose [processedTxns]
    does not mark it, stages [credits] again after any earlier call. *)
Lemma paid_txn_regrants db uid_or_email by_uid plan dflt c1 c2 c0 t0 db1 ref :
  paid_default plan = Some dflt ->
  locate db uid_or_email by_uid = Some ref ->
  txns_readable (doc_of db ref) = true ->
  txn_marked (doc_of db ref) (c0 :: t0) = false ->
  _fs_set_user (Some db) uid_or_email plan c1 by_uid (Some (c0 :: t0))
    = (true, Some db1) ->
  exists db2,
    _fs_set_user (Some db1) uid_or_email plan c2 by_uid (Some (c0 :: t0))
      = (true, Some db2) /\
    credits_at (Some db2) ref
      = Some (PInt (match c2 with Some c => c | None => dflt end)).
Proof.
  intros Hp Hloc Hr Hm H1.
  destruct (fs_set_user_ok_inv _ _ _ _ _ _ _ H1)
    as (ref' & updates & Hloc' & Hst & ->).
  rewrite Hloc in Hloc'; injection Hloc' as <-.
  assert (Hk : dict_find (doc_of (store_set_merge db ref updates) ref)
                 (u "processedTxns")
               = dict_find (doc_of db ref) (u "processedTxns")).
  { apply field_kept_by_set. eapply staged_no_processedTxns; exact Hst. }
  apply fs_set_user_grant_overwrites_aux.
  - apply locate_after_set; [eapply staged_no_email; exact Hst | exact Hloc].
  - apply GrantPaidTxn; [exact Hp | |].
    + unfold txns_readable, dict_get in *. rewrite Hk; exact Hr.
    + unfold txn_marked, dict_get in *. rewrite Hk; exact Hm.
Qed.

(** C1 (what the code does).  Two paid updates with the same plan and the
    same transaction id, whatever the id, on a fresh account: the first
    grants the Pro pack of 200; the second, carrying an explicit amount, is
    granted as well and leaves that amount.  After the first call the marker
    sits in a field named [processedTxns.<id>], and the [processedTxns] map
    that the guard reads is absent. *)
Theorem paid_txn_granted_twice (c0 : N) (t0 : str) (c2 : Z) :
  let t := c0 :: t0 in
  let fresh : Store := [] in
  let s1 := snd (_fs_set_user (Some fresh) (u "u1") (u "Pro") None true (Some t)) in
  let s2 := snd (_fs_set_user s1 (u "u1") (u "Pro") (Some c2) true (Some t)) in
  credits_at s1 (u "u1") = Some (PInt 200) /\
  credits_at s2 (u "u1") = Some (PInt c2) /\
  field_at s1 (u "u1") (u "processedTxns." ++ t) = Some (PBool true) /\
  field_at s1 (u "u1") (u "processedTxns") = None.
Proof.
  cbv zeta.
  assert (G1 : grant_case (doc_of [] (u "u1")) None (u "Pro")
                 (Some (c0 :: t0)) 200).
  { apply (GrantPaidTxn _ None (u "Pro") 200 c0 t0); reflexivity. }
  destruct (fs_set_user_grant_overwrites_aux [] (u "u1") (u "Pro") (u "u1")
              None true (Some (c0 :: t0)) 200 eq_refl G1) as (db1 & H1 & C1).
  destruct (paid_txn_regrants [] (u "u1") true (u "Pro") 200 None (Some c2)
              c0 t0 db1 (u "u1") eq_refl eq_refl eq_refl eq_refl H1)
    as (db2 & H2 & C2).
  rewrite H1. cbn [snd]. rewrite H2. cbn [snd].
  split; [exact C1|]. split; [exact C2|].
  pose proof (fs_set_user_keeps_processedTxns (Some ([] : Store)) (u "u1") (u "Pro") None
                true (Some (c0 :: t0)) (u "u1")) as K.
  rewrite H1 in K. cbn [snd] in K.
  split; [|exact K].
  destruct (fs_set_user_ok_inv _ _ _ _ _ _ _ H1) as (ref & updates & Hl & Hs & ->).
  injection Hl as <-. unfold field_at.
  rewrite doc_of_set_same, doc_merge_find.
  unfold staged_updates in Hs. cbn in Hs. injection Hs as <-.
  cbn. rewrite N.eqb_refl, str_eqb_refl. reflexivity.
Qed.

(** With the identifiers [txn_01] and [txn.01]. *)
Example paid_txn_granted_twice_ids :
  let run t :=
    let s1 := snd (_fs_set_user (Some []) (u "u1") (u "Pro") None true (Some t)) in
    snd (_fs_set_user s1 (u "u1") (u "Pro") (Some 1000) true (Some t)) in
  credits_at (run (u "txn_01")) (u "u1") = Some (PInt 1000) /\
  credits_at (run (u "txn.01")) (u "u1") = Some (PInt 1000).
Proof. vm_compute. split; reflexivity. Qed.

(** The same with a spent balance in between: the record left by the first
    call, its balance brought down to 3, is refilled to 200 by a repeat of
    the same call. *)
Example paid_txn_refills_spent_balance :
  let doc1 :=
    [ (u "subscriptionSelected", PBool true); (u "subscriptionPlan", PStr (u "Pro"));
      (u "creditDepletedAt", PNone); (u "credits", PInt 3);
      (u "processedTxns.txn_01", PBool true); (u "lastPaidTxn", PStr (u "txn_01")) ] in
  credits_at
    (snd (_fs_set_user (Some [(u "u1", doc1)]) (u "u1") (u "Pro") (Some 200) true
            (Some (u "txn_01")))) (u "u1") = Some (PInt 200).
Proof. vm_compute. reflexivity. Qed.

(** Where the [processedTxns] map does mark the transaction, the guard
    holds: nothing is granted. *)
Lemma paid_txn_marked_skips db uid_or_email by_uid plan dflt c c0 t0 ref :
  paid_default plan = Some dflt ->
  locate db uid_or_email by_uid = Some ref ->
  txn_marked (doc_of db ref) (c0 :: t0) = true ->
  forall id,
    credits_at (snd (_fs_set_user (Some db) uid_or_email plan c by_uid
                       (Some (c0 :: t0)))) id
    = credits_at (Some db) id.
Proof.
  intros Hp Hloc Hm id.
  destruct (paid_default_in _ _ Hp) as (Hb & Hin & _).
  unfold _fs_set_user, fs_set_user_try. rewrite Hloc.
  unfold staged_updates. rewrite Hb, Hin.
  unfold txn_marked in Hm. unfold py_or.
  destruct (dict_get (doc_of db ref) (u "processedTxns"))
    as [|b|z|bits|s|l|m|tt]; try discriminate Hm.
  destruct m as [|kv m]; [discriminate Hm|].
  simpl truthy. unfold py_get, ebind. rewrite Hm. simpl.
  apply field_kept_by_set. reflexivity.
Qed.

(** ** Calls of [_fs_set_user] with a third positional argument *)

(** Three positional arguments never bind. *)
Lemma call_fs_set_user_three_positional fs_db a b c credits by_uid txn :
  call_fs_set_user fs_db [a; b; c] credits by_uid txn = Raise TypeError.
Proof. reflexivity. Qed.

(** The calls that name [credits_to_grant] reach the body. *)
Lemma call_fs_set_user_keywords fs_db uid_or_email plan c by_uid txn :
  call_fs_set_user fs_db [PStr uid_or_email; PStr plan] (Some c) (Some by_uid)
    (Some txn)
  = Ok (_fs_set_user fs_db uid_or_email plan c by_uid txn).
Proof. reflexivity. Qed.

(** C9 (what the code does).  A POST to [/api/confirm-plan/] whose body is
    a JSON object with a non-empty [uid] and a [plan] among Pro, Premium and
    Basic does not return: the call of [_fs_set_user] passes the credits as
    a third positional argument, and the [TypeError] leaves the view. *)
Theorem confirm_plan_raises
    (ns : string -> bool) (request : HttpRequest) (st : option Store)
    (text : str) (body_json uid plan : PyVal) :
  method request = POST ->
  body request = Some text ->
  json_loads text = Ok body_json ->
  py_get body_json (u "uid") = Ok uid ->
  truthy uid = true ->
  py_get body_json (u "plan") = Ok plan ->
  plan = PStr (u "Pro") \/ plan = PStr (u "Premium") \/ plan = PStr (u "Basic") ->
  confirm_plan ns request st = (Raise TypeError, st).
Proof.
  intros Hm Hb Hj Hu Htu Hp Hplan.
  unfold confirm_plan, decode_body. rewrite Hm, Hb. cbn [ebind]. rewrite Hj.
  replace (negb (str_eqb POST POST)) with false by (vm_compute; reflexivity).
  unfold sbind, lift. rewrite Hu, Hp, Htu.
  destruct Hplan as [-> | [-> | ->]]; reflexivity.
Qed.

Lemma confirm_plan_raises_witness :
  confirm_plan views_namespace
    {| method := POST; body := Some (j "{'uid': 'u1', 'plan': 'Pro'}") |}
    (Some [(u "u1", [])])
  = (Raise TypeError, Some [(u "u1", [])]).
Proof.
  apply (confirm_plan_raises views_namespace _ _
           (j "{'uid': 'u1', 'plan': 'Pro'}")
           (PDict [(u "uid", PStr (u "u1")); (u "plan", PStr (u "Pro"))])
           (PStr (u "u1")) (PStr (u "Pro")));
    try reflexivity.
  left; reflexivity.
Defined.

(** ** The webhook *)

(** With a user id or an e-mail in the event, the update raises. *)
Lemma webhook_update_raises uid email plan credits st :
  truthy uid = true \/ truthy email = true ->
  webhook_update uid email plan credits st = (Raise TypeError, st).
Proof.
  intros H. unfold webhook_update, sbind, run_call, sret.
  destruct (truthy uid) eqn:Hu; simpl; [reflexivity|].
  destruct H as [H|H]; [discriminate H|]. rewrite H. reflexivity.
Qed.

(** With neither, the event is acknowledged as unmatched. *)
Lemma webhook_update_no_identity uid email plan credits st :
  truthy uid = false -> truthy email = false ->
  webhook_update uid email plan credits st
  = (Ok (JsonResponse [(u "ok", PBool true); (u "no_user", PBool true)] 200), st).
Proof.
  intros Hu He. unfold webhook_update, sbind, run_call, sret.
  rewrite Hu, He. reflexivity.
Qed.

(** Every response the webhook does return has status 200, or is the 400 of
    a request it refuses. *)
Lemma paddle_webhook_event_applies ns lib request st payload uid email plan credits :
  method request = POST ->
  (text <- decode_body request ;;
   json_loads (match text with [] => u "{}" | _ => text end)) = Ok payload ->
  webhook_event ns lib payload = Ok (Apply uid email plan credits) ->
  truthy uid = true \/ truthy email = true ->
  paddle_webhook ns lib request st = (Raise TypeError, st).
Proof.
  intros Hm Hj He Hid.
  unfold paddle_webhook. rewrite Hm.
  replace (negb (str_eqb POST POST)) with false by (vm_compute; reflexivity).
  rewrite Hj. unfold sbind, lift. rewrite He.
  apply webhook_update_raises; exact Hid.
Qed.

(** C3 (what the code does).  A [transaction.completed] event that names
    the plan and the customer's e-mail: the view raises [TypeError], whatever
    the store holds, and returns no response. *)
Theorem paddle_webhook_type_error (lib : Library) (st : option Store) :
  paddle_webhook views_namespace lib
    {| method := POST;
       body := Some (j "{'event':{'type':'transaction.completed','data':{'custom_data':{'plan':'pro'},'customer':{'email':'a@b.co'}}}}") |}
    st
  = (Raise TypeError, st).
Proof.
  eapply paddle_webhook_event_applies with
    (uid := PNone) (email := PStr (u "a@b.co")) (plan := PStr (u "Pro"))
    (credits := 200).
  - reflexivity.
  - vm_compute. reflexivity.
  - vm_compute. reflexivity.
  - right; reflexivity.
Qed.

(** The same event without any identity is acknowledged with 200 and the
    flag [no_user]. *)
Example paddle_webhook_no_user (lib : Library) (st : option Store) :
  paddle_webhook views_namespace lib
    {| method := POST;
       body := Some (j "{'event':{'type':'transaction.completed','data':{'custom_data':{'plan':'pro'}}}}") |}
    st
  = (Ok (JsonResponse [(u "ok", PBool true); (u "no_user", PBool true)] 200), st).
Proof. vm_compute. reflexivity. Qed.

(** An event type outside the list is acknowledged and not processed. *)
Example paddle_webhook_ignored (lib : Library) (st : option Store) :
  paddle_webhook views_namespace lib
    {| method := POST; body := Some (j "{'type':'invoice.paid'}") |} st
  = (Ok (JsonResponse [(u "ok", PBool true);
                       (u "ignored", PStr (u "invoice.paid"))] 200), st).
Proof. vm_compute. reflexivity. Qed.

(** The sibling view names the argument and applies the plan. *)
Example finalize_checkout_pro :
  let r := finalize_checkout
             {| method := POST;
                body := Some (j "{'uid': 'u1', 'plan': 'pro'}") |}
             (Some []) in
  fst r = Ok (JsonResponse [(u "ok", PBool true)] 200) /\
  field_at (snd r) (u "u1") (u "subscriptionPlan") = Some (PStr (u "Pro")) /\
  field_at (snd r) (u "u1") (u "credits") = Some (PInt 200) /\
  field_at (snd r) (u "u1") (u "subscriptionSelected") = Some (PBool true).
Proof. vm_compute. repeat split. Qed.

(** ** The passthrough token *)

(** The token of a text that starts with a brace starts with the letter e. *)
Lemma b64encode_brace rest :
  exists tail, b64encode (123%N :: rest) = 101%N :: tail.
Proof.
  destruct rest as [|b [|c r]]; simpl; eexists; reflexivity.
Qed.

(** No JSON text starts with the letter e. *)
Lemma json_loads_e tail : json_loads (101%N :: tail) = Raise JSONDecodeError.
Proof. reflexivity. Qed.

(** In the namespace of the module the Base64 attempt raises [NameError],
    so a text token is read as JSON directly or lost. *)
Lemma decode_passthrough_text lib s :
  s <> [] ->
  _decode_passthrough views_namespace lib (PStr s)
  = match json_loads s with Ok v => v | Raise _ => PDict [] end.
Proof.
  intros Hs. unfold _decode_passthrough.
  destruct s as [|c r]; [congruence|]. reflexivity.
Qed.

(** C4 (what the code does).  The Base64 token of any JSON object text
    decodes to the empty mapping: [base64] is not a name of the module, the
    [NameError] is caught, and the token itself is no JSON. *)
Theorem decode_passthrough_base64_lost (lib : Library) (rest : list N) :
  _decode_passthrough views_namespace lib (PStr (b64encode (123%N :: rest)))
  = PDict [].
Proof.
  destruct (b64encode_brace rest) as (tail & ->).
  rewrite decode_passthrough_text by discriminate.
  rewrite json_loads_e. reflexivity.
Qed.

(** The mapping with [uid] bound to [u1]: its JSON text reads back as the
    mapping, the Base64 token of that text does not. *)
Example decode_passthrough_uid_lost (lib : Library) :
  let text := j "{'uid': 'u1'}" in
  let m := PDict [(u "uid", PStr (u "u1"))] in
  json_loads text = Ok m /\
  b64encode text = u "eyJ1aWQiOiAidTEifQ==" /\
  _decode_passthrough views_namespace lib (PStr (b64encode text)) = PDict [] /\
  _decode_passthrough views_namespace lib (PStr (b64encode text)) <> m.
Proof.
  cbv zeta. repeat split; try (vm_compute; reflexivity).
  vm_compute. discriminate.
Qed.

(** With [base64] bound, and a decoder that recovers the text, the token
    does decode to the mapping. *)
Lemma decode_passthrough_when_bound ns lib token text m :
  ns "base64"%string = true ->
  token <> [] ->
  b64decode_utf8 lib token = Ok text ->
  json_loads text = Ok m ->
  _decode_passthrough ns lib (PStr token) = m.
Proof.
  intros Hb Ht Hd Hj. unfold _decode_passthrough, load_global.
  destruct token as [|c r]; [congruence|]. simpl truthy. cbn [negb].
  rewrite Hb, Hd. cbn [ebind]. rewrite Hj. reflexivity.
Qed.

(** A mapping and a raw JSON text pass. *)
Lemma decode_passthrough_dict ns lib d :
  d <> [] -> _decode_passthrough ns lib (PDict d) = PDict d.
Proof. destruct d; [congruence|reflexivity]. Qed.

(** ** Auto top-up *)

Lemma refresh_updates_paid_empty ns lib now doc plan :
  paid_and_empty lib doc plan ->
  refresh_updates ns lib now doc =
  let updates :=
    if negb (truthy (dict_get doc (u "subscriptionSelected")))
    then [(u "subscriptionSelected", PBool true)] else [] in
  let depleted_at := dict_get doc (u "creditDepletedAt") in
  load_global ns "datetime"
    (if negb (truthy depleted_at) then
       Ok (dict_set updates (u "creditDepletedAt")
             (PStr (isoformat lib now ++ u "Z")))
     else
       let refill :=
         dict_set
           (dict_set updates (u "credits")
              (PInt (assoc_get PLAN_CREDITS plan 0)))
           (u "creditDepletedAt") PNone in
       match day_elapsed ns lib now depleted_at with
       | Ok true => Ok refill
       | Ok false => Ok updates
       | Raise _ => Ok refill
       end).
Proof.
  intros (Hp & Hin & c & Hc & Hle).
  unfold refresh_updates. rewrite Hp. cbn [ebind]. rewrite Hc. cbn [ebind].
  rewrite Hin. cbn [andb].
  assert (Hc0 : (c <=? 0) = true) by (apply Z.leb_le; exact Hle).
  rewrite Hc0.
  destruct (truthy (dict_get doc (u "subscriptionSelected"))); reflexivity.
Qed.

(** In the namespace of the module the refill branch raises [NameError]:
    [datetime] is not bound. *)
Lemma refresh_updates_name_error lib now doc plan :
  paid_and_empty lib doc plan ->
  refresh_updates views_namespace lib now doc = Raise (NameError "datetime").
Proof.
  intros H. rewrite (refresh_updates_paid_empty _ _ _ _ _ H). reflexivity.
Qed.

(** C8 (what the code does).  A refresh request for a paid user without
    credits does not return: reading the clock raises [NameError], before
    anything is stamped or refilled, and the store is as it was. *)
Theorem refresh_credits_name_error
    (lib : Library) (now : Z) (uid email : str) (db : Store) (plan : str) :
  uid <> [] ->
  paid_and_empty lib (doc_of db uid) plan ->
  refresh_user views_namespace lib now uid email (Some db)
  = (Raise (NameError "datetime"), Some db).
Proof.
  intros Hu H. unfold refresh_user.
  destruct uid as [|c r]; [congruence|].
  rewrite (refresh_updates_name_error _ _ _ _ H). reflexivity.
Qed.

(** A Pro user with 0 credits and no depletion timestamp. *)
Lemma refresh_credits_name_error_witness :
  refresh_user views_namespace no_library 0 (u "u1") []
    (Some [(u "u1", [(u "subscriptionPlan", PStr (u "Pro"));
                     (u "credits", PInt 0)])])
  = (Raise (NameError "datetime"),
     Some [(u "u1", [(u "subscriptionPlan", PStr (u "Pro"));
                     (u "credits", PInt 0)])]).
Proof.
  apply (refresh_credits_name_error no_library 0 (u "u1") [] _ (u "Pro")).
  - discriminate.
  - split; [reflexivity|]. split; [reflexivity|].
    exists 0. split; [reflexivity | lia].
Defined.

(** The whole view on that user. *)
Example refresh_credits_request (lib : Library) (now : Z) :
  let db := [(u "u1", [(u "subscriptionPlan", PStr (u "Pro"));
                       (u "credits", PInt 0)])] in
  refresh_credits views_namespace lib now
    {| method := POST; body := Some (j "{'uid': 'u1'}") |} (Some db)
  = (Raise (NameError "datetime"), Some db).
Proof. vm_compute. reflexivity. Qed.

(** With [datetime] and [timedelta] bound, the branch does what its
    docstring says: the first request stamps the time and grants nothing; a
    stamp a day old or older, or one that does not parse, refills the plan's
    pack and clears the stamp; a younger stamp changes neither. *)
Section RefillWhenBound.
Variable ns : string -> bool.
Variable lib : Library.
Hypothesis datetime_bound : ns "datetime"%string = true.
Hypothesis timedelta_bound : ns "timedelta"%string = true.
Variables (now : Z) (doc : Doc) (plan : str).
Hypothesis paid : paid_and_empty lib doc plan.

Lemma refresh_stamps :
  truthy (dict_get doc (u "creditDepletedAt")) = false ->
  exists updates,
    refresh_updates ns lib now doc = Ok updates /\
    updates <> [] /\
    dict_find updates (u "creditDepletedAt")
      = Some (PStr (isoformat lib now ++ u "Z")) /\
    dict_find updates (u "credits") = None.
Proof.
  intros Hd. rewrite (refresh_updates_paid_empty _ _ _ _ _ paid).
  unfold load_global. rewrite datetime_bound. cbv zeta. rewrite Hd.
  eexists; split; [reflexivity|].
  destruct (truthy (dict_get doc (u "subscriptionSelected")));
    cbn; repeat split; discriminate.
Qed.

Lemma refill_fields updates0 :
  updates0 = [] \/ updates0 = [(u "subscriptionSelected", PBool true)] ->
  let refill :=
    dict_set (dict_set updates0 (u "credits")
                (PInt (assoc_get PLAN_CREDITS plan 0)))
      (u "creditDepletedAt") PNone in
  dict_find refill (u "credits") = Some (PInt (assoc_get PLAN_CREDITS plan 0)) /\
  dict_find refill (u "creditDepletedAt") = Some PNone.
Proof. intros [-> | ->]; cbn; split; reflexivity. Qed.

Lemma refresh_refills_after_a_day s last :
  dict_get doc (u "creditDepletedAt") = PStr s -> s <> [] ->
  fromisoformat lib (remove_char 90 s) = Ok (last, false) ->
  day_us <= now - last ->
  exists updates,
    refresh_updates ns lib now doc = Ok updates /\
    dict_find updates (u "credits") = Some (PInt (assoc_get PLAN_CREDITS plan 0)) /\
    dict_find updates (u "creditDepletedAt") = Some PNone.
Proof.
  intros Hd Hs Hf Hday. rewrite (refresh_updates_paid_empty _ _ _ _ _ paid).
  unfold load_global, day_elapsed. rewrite datetime_bound. cbv zeta. rewrite Hd.
  destruct s as [|c r]; [congruence|]. cbn [truthy negb].
  unfold load_global. rewrite datetime_bound, Hf. cbn [ebind].
  rewrite timedelta_bound.
  apply Z.leb_le in Hday. rewrite Hday.
  eexists; split; [reflexivity|]. apply refill_fields.
  destruct (truthy (dict_get doc (u "subscriptionSelected"))); auto.
Qed.

Lemma refresh_refills_unparsable s e :
  dict_get doc (u "creditDepletedAt") = PStr s -> s <> [] ->
  fromisoformat lib (remove_char 90 s) = Raise e ->
  exists updates,
    refresh_updates ns lib now doc = Ok updates /\
    dict_find updates (u "credits") = Some (PInt (assoc_get PLAN_CREDITS plan 0)) /\
    dict_find updates (u "creditDepletedAt") = Some PNone.
Proof.
  intros Hd Hs Hf. rewrite (refresh_updates_paid_empty _ _ _ _ _ paid).
  unfold load_global, day_elapsed. rewrite datetime_bound. cbv zeta. rewrite Hd.
  destruct s as [|c r]; [congruence|]. cbn [truthy negb].
  unfold load_global. rewrite datetime_bound, Hf. cbn [ebind].
  eexists; split; [reflexivity|]. apply refill_fields.
  destruct (truthy (dict_get doc (u "subscriptionSelected"))); auto.
Qed.

Lemma refresh_waits_within_a_day s last :
  dict_get doc (u "creditDepletedAt") = PStr s -> s <> [] ->
  fromisoformat lib (remove_char 90 s) = Ok (last, false) ->
  now - last < day_us ->
  exists updates,
    refresh_updates ns lib now doc = Ok updates /\
    dict_find updates (u "credits") = None /\
    dict_find updates (u "creditDepletedAt") = None.
Proof.
  intros Hd Hs Hf Hday. rewrite (refresh_updates_paid_empty _ _ _ _ _ paid).
  unfold load_global, day_elapsed. rewrite datetime_bound. cbv zeta. rewrite Hd.
  destruct s as [|c r]; [congruence|]. cbn [truthy negb].
  unfold load_global. rewrite datetime_bound, Hf. cbn [ebind].
  rewrite timedelta_bound.
  apply Z.leb_gt in Hday. rewrite Hday.
  eexists; split; [reflexivity|].
  destruct (truthy (dict_get doc (u "subscriptionSelected"))); cbn; auto.
Qed.
End RefillWhenBound.

(** ** The completion call and its fallback *)

Section CompletionFacts.
Variable cfg : Config.
Variable lib : Library.
Variable upstream : nat -> PostOutcome.
Variable latency_ms : nat -> Z.

Lemma calls_of_log_post tr model messages :
  calls_of (tr ++ [EvPost model messages]) = calls_of tr.
Proof. unfold calls_of. rewrite flat_map_app. simpl. apply app_nil_r. Qed.

Lemma calls_of_log_sleep tr tries :
  calls_of (tr ++ [EvSleep tries]) = calls_of tr.
Proof. unfold calls_of. rewrite flat_map_app. simpl. apply app_nil_r. Qed.

Lemma calls_of_log_call tr model messages :
  calls_of (tr ++ [EvCall model messages]) = calls_of tr ++ [(model, messages)].
Proof. unfold calls_of. rewrite flat_map_app. reflexivity. Qed.

(** The retry loop posts and sleeps; it enters no completion call. *)
Lemma attempts_calls model messages n :
  forall attempt st w,
    calls_of (trace (snd (attempts cfg lib upstream model messages n attempt st w)))
    = calls_of (trace w).
Proof.
  induction n as [|n IH]; intros attempt st w; [reflexivity|].
  cbn [attempts].
  destruct (upstream (posts w)) as [code js text| |msg|msg];
    repeat match goal with
    | |- context [if ?b then _ else _] => destruct b
    | |- context [match ?x with inl _ => _ | inr _ => _ end] => destruct x
    | |- context [match content_of ?d with Ok _ => _ | Raise _ => _ end] =>
        destruct (content_of d)
    end;
    try rewrite IH; cbn [snd trace log];
    repeat rewrite calls_of_log_sleep; rewrite calls_of_log_post; reflexivity.
Qed.

(** One completion call enters exactly one call, with its model and
    messages. *)
Lemma call_openrouter_calls messages model w :
  calls_of (trace (snd (call_openrouter cfg lib upstream latency_ms messages model w)))
  = calls_of (trace w) ++ [(model, messages)].
Proof.
  unfold call_openrouter.
  destruct (OPENROUTER_API_KEY cfg) as [|c key].
  - cbn [snd trace log]. apply calls_of_log_call.
  - match goal with
    | |- context [attempts ?a ?b ?c ?d ?e ?f ?g ?h ?i] =>
        pose proof (attempts_calls d e f g h i) as H;
        destruct (attempts a b c d e f g h i) as [st w']
    end.
    cbn [snd] in *. rewrite H. cbn [trace log]. apply calls_of_log_call.
Qed.

(** C5.  When the completion call on the primary model comes back without
    content, [generate_with_fallback] makes one more call and no other, on
    the fallback model with the same messages, and ends in the world that
    call leaves.  When that call has no content either, the result has no
    content and its error holds the error of the primary call under
    [primary] and that of the fallback call under [fallback]. *)
Theorem generate_with_fallback_once
    (messages : Messages) (w w1 w2 : World)
    (content1 content2 err1 err2 : PyVal) (meta1 meta2 : Dict) :
  call_openrouter cfg lib upstream latency_ms messages
    (OPENROUTER_MODEL_PRIMARY cfg) w = ((content1, meta1, err1), w1) ->
  truthy content1 = false ->
  call_openrouter cfg lib upstream latency_ms messages
    (OPENROUTER_MODEL_FALLBACK cfg) w1 = ((content2, meta2, err2), w2) ->
  let '(result, w') :=
    generate_with_fallback cfg lib upstream latency_ms messages w in
  w' = w2 /\
  calls_of (trace w') =
    calls_of (trace w)
    ++ [ (OPENROUTER_MODEL_PRIMARY cfg, messages);
         (OPENROUTER_MODEL_FALLBACK cfg, messages) ] /\
  (truthy content2 = true -> result = (content2, meta2, PNone)) /\
  (truthy content2 = false ->
   result = (PNone, meta2,
             PDict [(u "primary", err1); (u "fallback", err2)])).
Proof.
  intros H1 Hfalsy H2.
  pose proof (call_openrouter_calls messages (OPENROUTER_MODEL_PRIMARY cfg) w) as C1.
  pose proof (call_openrouter_calls messages (OPENROUTER_MODEL_FALLBACK cfg) w1) as C2.
  rewrite H1 in C1. rewrite H2 in C2. cbn [snd] in C1, C2.
  unfold generate_with_fallback. rewrite H1, Hfalsy, H2.
  destruct (truthy content2) eqn:Ht.
  - split; [reflexivity|]. split.
    + rewrite C2, C1, <- app_assoc. reflexivity.
    + split; [reflexivity | discriminate].
  - split; [reflexivity|]. split.
    + rewrite C2, C1, <- app_assoc. reflexivity.
    + split; [discriminate | reflexivity].
Qed.

(** When the primary call has content there is no second call. *)
Lemma generate_with_fallback_primary
    (messages : Messages) (w w1 : World) (content1 err1 : PyVal) (meta1 : Dict) :
  call_openrouter cfg lib upstream latency_ms messages
    (OPENROUTER_MODEL_PRIMARY cfg) w = ((content1, meta1, err1), w1) ->
  truthy content1 = true ->
  generate_with_fallback cfg lib upstream latency_ms messages w
  = ((content1, meta1, PNone), w1).
Proof.
  intros H1 Ht. unfold generate_with_fallback. rewrite H1, Ht. reflexivity.
Qed.

End CompletionFacts.

(** Against a server that always times out, with two retries: three posts
    and two sleeps on each model, and the two timeout errors combined. *)
Lemma generate_with_fallback_once_witness :
  let messages := [system_msg SYSTEM_PROMPT; user_msg (u "topic")] in
  let timeout_error :=
    error_dict (u "UPSTREAM_TIMEOUT") (u "Model request timed out.") [] in
  let '(result, w') :=
    generate_with_fallback sample_config no_library always_timeout (fun _ => 0)
      messages world0 in
  w' = snd (call_openrouter sample_config no_library always_timeout (fun _ => 0)
              messages (OPENROUTER_MODEL_FALLBACK sample_config)
              (snd (call_openrouter sample_config no_library always_timeout
                      (fun _ => 0) messages
                      (OPENROUTER_MODEL_PRIMARY sample_config) world0))) /\
  calls_of (trace w') =
    [ (OPENROUTER_MODEL_PRIMARY sample_config, messages);
      (OPENROUTER_MODEL_FALLBACK sample_config, messages) ] /\
  (truthy PNone = true ->
   result = (PNone, meta_dict 0 3 0 (OPENROUTER_MODEL_FALLBACK sample_config), PNone)) /\
  (truthy PNone = false ->
   result = (PNone, meta_dict 0 3 0 (OPENROUTER_MODEL_FALLBACK sample_config),
             PDict [(u "primary", timeout_error); (u "fallback", timeout_error)])).
Proof.
  exact (generate_with_fallback_once sample_config no_library always_timeout
           (fun _ => 0)
           [system_msg SYSTEM_PROMPT; user_msg (u "topic")] world0 _ _
           PNone PNone _ _ _ _ eq_refl eq_refl eq_refl).
Defined.

(** The posts of that run: six, three on each model. *)
Example timeout_run_posts :
  let messages := [system_msg SYSTEM_PROMPT; user_msg (u "topic")] in
  posts (snd (generate_with_fallback sample_config no_library always_timeout
                (fun _ => 0) messages world0)) = 6%nat.
Proof. vm_compute. reflexivity. Qed.

(** ** Words and caps *)

Lemma wc_from_app b p x :
  wc_from b (p ++ x) = (wc_from b p + wc_from (state_after b p) x)%nat.
Proof.
  revert b; induction p as [|c p IH]; intros b; simpl; [reflexivity|].
  destruct (is_space c); simpl; rewrite IH; lia.
Qed.

Lemma state_after_app b p x :
  state_after b (p ++ x) = state_after (state_after b p) x.
Proof. revert b; induction p as [|c p IH]; intros b; simpl; auto. Qed.

Lemma wc_from_spacefree b w :
  spacefree w -> w <> [] -> wc_from b w = if b then 0%nat else 1%nat.
Proof.
  intros Hw Hne. destruct w as [|c w]; [congruence|]. simpl.
  rewrite (Hw c (or_introl eq_refl)).
  assert (H : forall v, spacefree v -> wc_from true v = 0%nat).
  { induction v as [|d v IH]; intros Hv; simpl; [reflexivity|].
    rewrite (Hv d (or_introl eq_refl)). simpl. apply IH.
    intros e He; apply Hv; right; exact He. }
  rewrite H; [destruct b; reflexivity|].
  intros e He; apply Hw; right; exact He.
Qed.

Lemma state_after_spacefree b w :
  spacefree w -> w <> [] -> state_after b w = true.
Proof.
  revert b; induction w as [|c w IH]; intros b Hw Hne; [congruence|].
  simpl. rewrite (Hw c (or_introl eq_refl)). simpl.
  destruct w as [|d w]; [reflexivity|].
  apply IH; [intros e He; apply Hw; right; exact He | discriminate].
Qed.

Lemma split_length s : List.length (split s) = wc_from false s.
Proof.
  induction s as [|c r IH]; [reflexivity|].
  simpl. destruct (is_space c) eqn:Ec; [exact IH|].
  destruct r as [|c' r']; [reflexivity|].
  destruct (is_space c') eqn:Ec'.
  - simpl in *. rewrite Ec' in *. simpl. rewrite IH. reflexivity.
  - simpl wc_from. rewrite Ec'. simpl wc_from in IH. rewrite Ec' in IH.
    destruct (split (c' :: r')) as [|w ws']; simpl in *; lia.
Qed.

Lemma split_good s : Forall good (split s).
Proof.
  induction s as [|c r IH]; [constructor|].
  simpl. destruct (is_space c) eqn:Ec; [exact IH|].
  assert (Hc : good [c]).
  { split; [intros d [<-|[]]; exact Ec | discriminate]. }
  destruct r as [|c' r']; [constructor; [exact Hc | constructor]|].
  destruct (is_space c') eqn:Ec'; [constructor; [exact Hc | exact IH]|].
  destruct (split (c' :: r')) as [|w ws']; [constructor; [exact Hc|constructor]|].
  inversion IH as [|? ? [Hw Hn] Hws]; subst.
  constructor; [|exact Hws].
  split; [|discriminate].
  intros d [<-|Hd]; [exact Ec | apply Hw; exact Hd].
Qed.

Lemma space_is_space : is_space 32 = true.
Proof. reflexivity. Qed.

Lemma join_words l :
  Forall good l ->
  wc_from false (join (u " ") l) = List.length l /\
  (l <> [] -> state_after false (join (u " ") l) = true).
Proof.
  induction 1 as [|w l [Hw Hn] Hl IH]; [split; [reflexivity|congruence]|].
  destruct l as [|w' l'].
  - simpl. rewrite (wc_from_spacefree _ _ Hw Hn).
    split; [reflexivity|]. intros _. apply state_after_spacefree; assumption.
  - change (join (u " ") (w :: w' :: l'))
      with (w ++ u " " ++ join (u " ") (w' :: l')).
    destruct IH as [IH1 IH2].
    rewrite wc_from_app, (wc_from_spacefree _ _ Hw Hn).
    rewrite state_after_app.
    change (u " " ++ join (u " ") (w' :: l'))
      with (32%N :: join (u " ") (w' :: l')).
    cbn [wc_from state_after]. rewrite space_is_space. cbn [negb].
    rewrite IH1. split; [simpl; lia|].
    intros _. apply IH2. discriminate.
Qed.

(** ** Stripping *)

Lemma lstrip_head s :
  match lstrip s with [] => True | c :: _ => is_space c = false end.
Proof.
  induction s as [|c r IH]; simpl; [exact I|].
  destruct (is_space c) eqn:E; [exact IH | exact E].
Qed.

Lemma tail_ok_strip s : tail_ok (strip s) = true.
Proof.
  unfold tail_ok, strip, rstrip. rewrite rev_involutive.
  pose proof (lstrip_head (rev (lstrip s))) as H.
  destruct (lstrip (rev (lstrip s))); [reflexivity|]. rewrite H; reflexivity.
Qed.

Lemma lstrip_chars_split set s :
  exists pre, s = pre ++ lstrip_chars set s /\
              Forall (fun c => existsb (N.eqb c) set = true) pre.
Proof.
  induction s as [|c r (pre & Hs & Hp)]; [exists []; split; [reflexivity|constructor]|].
  simpl. destruct (existsb (N.eqb c) set) eqn:E.
  - exists (c :: pre). split; [simpl; congruence | constructor; assumption].
  - exists []. split; [reflexivity | constructor].
Qed.

Lemma rstrip_chars_split set s :
  exists suf, s = rstrip_chars set s ++ suf /\
              Forall (fun c => existsb (N.eqb c) set = true) suf.
Proof.
  destruct (lstrip_chars_split set (rev s)) as (pre & Hs & Hp).
  exists (rev pre). split.
  - unfold rstrip_chars. rewrite <- rev_app_distr, <- Hs, rev_involutive. reflexivity.
  - apply Forall_rev; exact Hp.
Qed.

Lemma tail_ok_state b s : tail_ok s = true -> s <> [] -> state_after b s = true.
Proof.
  intros Ht Hne. unfold tail_ok in Ht.
  destruct (rev s) as [|c r] eqn:E.
  - apply (f_equal (@rev N)) in E. rewrite rev_involutive in E. simpl in E. congruence.
  - apply (f_equal (@rev N)) in E. rewrite rev_involutive in E. simpl in E. subst s.
    rewrite state_after_app. simpl. exact Ht.
Qed.

Lemma tail_ok_snoc s c : is_space c = false -> tail_ok (s ++ [c]) = true.
Proof. intros H. unfold tail_ok. rewrite rev_app_distr. simpl. rewrite H. reflexivity. Qed.

Lemma ends_in_punct_snoc s c :
  ends_in_punct (s ++ [c]) = existsb (N.eqb c) (u ".!?").
Proof. unfold ends_in_punct. rewrite rev_app_distr. reflexivity. Qed.

(** ** [_cap_words] *)

Lemma strip_set_spacefree suf :
  Forall (fun c => existsb (N.eqb c) (u ",;:–-") = true) suf -> spacefree suf.
Proof.
  intros H c Hc. rewrite Forall_forall in H. specialize (H c Hc).
  change (u ",;:–-") with [44; 59; 58; 8211; 45]%N in H. simpl in H.
  repeat rewrite orb_true_iff in H. rewrite !N.eqb_eq in H.
  destruct H as [->|[->|[->|[->|[->|H]]]]]; try reflexivity; discriminate H.
Qed.

Lemma spacefree_one c : is_space c = false -> spacefree [c].
Proof. intros H d [<-|[]]; exact H. Qed.

Lemma cap_words_ok t n :
  (0 < n)%nat -> tail_ok t = true ->
  (wc_from false (_cap_words t n) <= n)%nat /\ tail_ok (_cap_words t n) = true.
Proof.
  intros Hn Ht. unfold _cap_words.
  destruct (List.length (split t) <=? n)%nat eqn:E.
  - apply Nat.leb_le in E. rewrite <- split_length. auto.
  - apply Nat.leb_gt in E.
    change ELLIPSIS with [8230%N].
    split; [|apply tail_ok_snoc; reflexivity].
    set (l := firstn n (split t)).
    assert (Hl : Forall good l).
    { apply Forall_forall. intros w Hw.
      pose proof (split_good t) as G. rewrite Forall_forall in G.
      apply G. rewrite <- (firstn_skipn n (split t)).
      apply in_or_app; left; exact Hw. }
    assert (Hlen : List.length l = n) by (apply firstn_length_le; lia).
    assert (Hne : l <> []) by (intros H0; rewrite H0 in Hlen; simpl in Hlen; lia).
    destruct (join_words l Hl) as [Hwc Hst]. specialize (Hst Hne).
    destruct (rstrip_chars_split (u ",;:–-") (join (u " ") l)) as (suf & Hs & Hsuf).
    set (t' := rstrip_chars (u ",;:–-") (join (u " ") l)) in *.
    rewrite wc_from_app.
    rewrite (wc_from_spacefree _ [8230%N]);
      [|apply spacefree_one; reflexivity | discriminate].
    destruct suf as [|c suf].
    + rewrite app_nil_r in Hs. rewrite <- Hs, Hst, Hwc. lia.
    + rewrite Hs, wc_from_app in Hwc.
      rewrite (wc_from_spacefree _ (c :: suf)) in Hwc;
        [|apply strip_set_spacefree; exact Hsuf | discriminate].
      lia.
Qed.

(** ** [_ensure_end_punct] *)

Section Punct.
Variable lib : Library.

Lemma search_from_found r s n i res :
  search_from lib r s n i = Some res ->
  exists i' j g, match_at lib r s i' = Some (j, g).
Proof.
  revert i; induction n as [|n IH]; intros i; simpl;
    destruct (match_at lib r s i) as [[j g]|] eqn:E; intros H;
    try (exists i, j, g; exact E); [discriminate | eapply IH; exact H].
Qed.

Lemma nth_error_last (s : str) i c :
  nth_error s i = Some c -> S i = List.length s -> exists l, s = l ++ [c].
Proof.
  intros H Hl. destruct (nth_error_split s i H) as (l1 & l2 & -> & Hi).
  rewrite length_app in Hl. simpl in Hl.
  destruct l2; [exists l1; reflexivity | simpl in Hl; lia].
Qed.

Lemma end_punct_found s :
  tail_ok s = true -> found lib end_punct s = true -> ends_in_punct s = true.
Proof.
  intros Ht Hf. unfold found, search in Hf.
  destruct (search_from lib end_punct s (List.length s) 0) as [res|] eqn:E;
    [|discriminate].
  destruct (search_from_found _ _ _ _ _ E) as (i & j & g & Hm).
  unfold match_at, end_punct, one_of in Hm. cbn [rmatch] in Hm.
  destruct (nth_error s i) as [c|] eqn:Hc; [|discriminate Hm].
  destruct (existsb (N.eqb c) (u ".!?")) eqn:Hp; [|discriminate Hm].
  destruct (at_eol false s (S i)) eqn:He; [|discriminate Hm].
  unfold at_eol in He. apply orb_true_iff in He. destruct He as [He|He].
  - apply Nat.eqb_eq in He.
    destruct (nth_error_last s i c Hc He) as (l & ->).
    rewrite ends_in_punct_snoc. exact Hp.
  - destruct (nth_error s (S i)) as [d|] eqn:Hd; [|discriminate He].
    destruct (d =? 10)%N eqn:E10.
    + apply N.eqb_eq in E10; subst d. cbn [orb] in He.
      apply Nat.eqb_eq in He.
      destruct (nth_error_last s (S i) 10%N Hd He) as (l & ->).
      unfold tail_ok in Ht. rewrite rev_app_distr in Ht. discriminate Ht.
    + exfalso. destruct d as [|p]; [discriminate He|].
      repeat (destruct p as [p|p|]; try discriminate He; try discriminate E10).
Qed.

Lemma ensure_end_punct_ok s :
  tail_ok s = true ->
  wc_from false (_ensure_end_punct lib s) = wc_from false s /\
  (_ensure_end_punct lib s <> [] -> ends_in_punct (_ensure_end_punct lib s) = true).
Proof.
  intros Ht. unfold _ensure_end_punct.
  destruct (found lib end_punct s) eqn:Hf.
  - split; [reflexivity|]. intros _. apply end_punct_found; assumption.
  - destruct s as [|c r] eqn:Es; [split; [reflexivity|congruence]|].
    rewrite <- Es in *. change (u ".") with [46%N].
    split.
    + rewrite wc_from_app, (tail_ok_state false s Ht) by (subst; discriminate).
      simpl. lia.
    + intros _. rewrite ends_in_punct_snoc. reflexivity.
Qed.

Lemma splitlines_nil s : splitlines s = [] -> s = [].
Proof.
  destruct s as [|c r]; [reflexivity|]. simpl.
  destruct (is_linebreak c); [discriminate|].
  destruct (splitlines r); discriminate.
Qed.

Lemma first_sentence_tail s t :
  _first_sentence_or_line lib s = Ok t -> tail_ok t = true.
Proof.
  unfold _first_sentence_or_line.
  destruct (splitlines s) as [|line ls]; [discriminate|].
  destruct (group1 lib first_sentence (strip line));
    intros H; injection H as <-; apply tail_ok_strip.
Qed.

(** The first line is missing exactly for the empty text. *)
Lemma first_sentence_raises s :
  (s = [] -> _first_sentence_or_line lib s = Raise IndexError) /\
  (s <> [] -> exists t, _first_sentence_or_line lib s = Ok t).
Proof.
  split.
  - intros ->. reflexivity.
  - intros Hs. unfold _first_sentence_or_line.
    destruct (splitlines s) as [|line ls] eqn:E.
    + apply splitlines_nil in E. contradiction.
    + destruct (group1 lib first_sentence (strip line)); eexists; reflexivity.
Qed.

Lemma cap_then_punct t n :
  (0 < n)%nat -> tail_ok t = true ->
  let out := _ensure_end_punct lib (_cap_words t n) in
  (List.length (split out) <= n)%nat /\ (out <> [] -> ends_in_punct out = true).
Proof.
  intros Hn Ht out. subst out.
  destruct (cap_words_ok t n Hn Ht) as [Hwc Htail].
  destruct (ensure_end_punct_ok _ Htail) as [Hwc' Hp].
  rewrite split_length, Hwc'. auto.
Qed.

(** C7.  The tightened Hook, Body and CTA have at most 16, 80 and 20
    words, and a result that is not empty ends in [.], [!] or [?].  The Body
    always has a result; the Hook and the CTA have one unless the text left
    after the label and the formatting marks are removed is empty, in which
    case taking its first line raises [IndexError]. *)
Theorem tighten_caps (raw : str) :
  (forall out, _tighten_hook lib raw = Ok out ->
     (List.length (split out) <= 16)%nat /\ (out <> [] -> ends_in_punct out = true)) /\
  ((List.length (split (_tighten_body lib raw)) <= 80)%nat /\
   (_tighten_body lib raw <> [] -> ends_in_punct (_tighten_body lib raw) = true)) /\
  (forall out, _tighten_cta lib raw = Ok out ->
     (List.length (split out) <= 20)%nat /\ (out <> [] -> ends_in_punct out = true)).
Proof.
  split; [|split].
  - intros out H. unfold _tighten_hook in H.
    destruct (_first_sentence_or_line lib _) as [t|e] eqn:E; [|discriminate H].
    cbn [ebind] in H. injection H as <-.
    apply cap_then_punct; [lia | eapply first_sentence_tail; exact E].
  - unfold _tighten_body. apply cap_then_punct; [lia | apply tail_ok_strip].
  - intros out H. unfold _tighten_cta in H.
    destruct (_first_sentence_or_line lib _) as [t|e] eqn:E; [|discriminate H].
    cbn [ebind] in H. injection H as <-.
    apply cap_then_punct; [lia | eapply first_sentence_tail; exact E].
Qed.

(** When the Hook and the CTA have a result. *)
Lemma tighten_hook_defined (raw : str) :
  let cleaned := _strip_md_noise lib (_extract_after_label lib raw (u "Hook")) in
  (cleaned = [] -> _tighten_hook lib raw = Raise IndexError) /\
  (cleaned <> [] -> exists out, _tighten_hook lib raw = Ok out).
Proof.
  cbv zeta. unfold _tighten_hook.
  set (cleaned := _strip_md_noise lib _).
  destruct (first_sentence_raises cleaned) as [H0 H1]. split.
  - intros Hc. rewrite (H0 Hc). reflexivity.
  - intros Hc. destruct (H1 Hc) as (t & Ht). rewrite Ht. cbn [ebind].
    eexists; reflexivity.
Qed.

Lemma tighten_cta_defined (raw : str) :
  let cleaned := _strip_md_noise lib (_extract_after_label lib raw (u "CTA")) in
  (cleaned = [] -> _tighten_cta lib raw = Raise IndexError) /\
  (cleaned <> [] -> exists out, _tighten_cta lib raw = Ok out).
Proof.
  cbv zeta. unfold _tighten_cta.
  set (cleaned := _strip_md_noise lib _).
  destruct (first_sentence_raises cleaned) as [H0 H1]. split.
  - intros Hc. rewrite (H0 Hc). reflexivity.
  - intros Hc. destruct (H1 Hc) as (t & Ht). rewrite Ht. cbn [ebind].
    eexists; reflexivity.
Qed.
End Punct.

(** A hook of twenty words is cut to sixteen and closed; a bare label has
    no first line. *)
Example tighten_hook_long (lib : Library) :
  _tighten_hook lib
    (u "Hook: a1 a2 a3 a4 a5 a6 a7 a8 a9 a10 a11 a12 a13 a14 a15 a16, a17 a18 a19 a20")
  = Ok (u "a1 a2 a3 a4 a5 a6 a7 a8 a9 a10 a11 a12 a13 a14 a15 a16….").
Proof. vm_compute. reflexivity. Qed.

Example tighten_hook_bare_label (lib : Library) :
  _tighten_hook lib (u "Hook:") = Raise IndexError.
Proof. vm_compute. reflexivity. Qed.

Example tighten_body_bullets (lib : Library) :
  _tighten_body lib (j "Body:
- **Stop** guessing
- Save this post")
  = u "Stop guessing Save this post.".
Proof. vm_compute. reflexivity. Qed.

Lemma tighten_caps_witness :
  exists out,
    _tighten_hook no_library
      (u "Hook: a1 a2 a3 a4 a5 a6 a7 a8 a9 a10 a11 a12 a13 a14 a15 a16, a17 a18")
    = Ok out /\
    (List.length (split out) <= 16)%nat /\ ends_in_punct out = true.
Proof.
  exists (u "a1 a2 a3 a4 a5 a6 a7 a8 a9 a10 a11 a12 a13 a14 a15 a16….").
  assert (E : _tighten_hook no_library
      (u "Hook: a1 a2 a3 a4 a5 a6 a7 a8 a9 a10 a11 a12 a13 a14 a15 a16, a17 a18")
    = Ok (u "a1 a2 a3 a4 a5 a6 a7 a8 a9 a10 a11 a12 a13 a14 a15 a16….")).
  { vm_compute. reflexivity. }
  split; [exact E|].
  destruct (tighten_caps no_library
      (u "Hook: a1 a2 a3 a4 a5 a6 a7 a8 a9 a10 a11 a12 a13 a14 a15 a16, a17 a18"))
    as [H _].
  destruct (H _ E) as [A B].
  split; [exact A | apply B; discriminate].
Defined.

(** ** The stepwise pipeline and its fall-through *)

Section StepwiseFacts.
Variable cfg : Config.
Variable lib : Library.
Variable upstream : nat -> PostOutcome.
Variable latency_ms : nat -> Z.

Local Abbreviation generate' := (generate cfg lib upstream latency_ms).
Local Abbreviation hook_stage' := (hook_stage cfg lib upstream latency_ms).
Local Abbreviation body_stage' := (body_stage cfg lib upstream latency_ms).
Local Abbreviation cta_stage' := (cta_stage cfg lib upstream latency_ms).
Local Abbreviation premium_stepwise' :=
  (premium_stepwise cfg lib upstream latency_ms).
Local Abbreviation one_shot' := (one_shot cfg lib upstream latency_ms).
Local Abbreviation generate_review' :=
  (generate_review cfg lib upstream latency_ms).
Local Abbreviation stage_fails' := (stage_fails cfg lib upstream latency_ms).

(** A stage whose call has no content gives [None] and asks for nothing
    more. *)
Lemma hook_stage_none user_prompt w w1 raw meta err :
  generate' (hook_msgs user_prompt) w = (Ok (raw, meta, err), w1) ->
  truthy raw = false ->
  hook_stage' user_prompt w = (Ok None, w1).
Proof.
  intros Hg Hr. unfold hook_stage, gbind. rewrite Hg, Hr. reflexivity.
Qed.

Lemma body_stage_none user_prompt hook w w1 raw meta err :
  generate' (body_msgs user_prompt hook) w = (Ok (raw, meta, err), w1) ->
  truthy raw = false ->
  body_stage' user_prompt hook w = (Ok None, w1).
Proof.
  intros Hg Hr. unfold body_stage, gbind. rewrite Hg, Hr. reflexivity.
Qed.

Lemma cta_stage_none user_prompt body_txt w w1 raw meta err :
  generate' (cta_msgs user_prompt body_txt) w = (Ok (raw, meta, err), w1) ->
  truthy raw = false ->
  cta_stage' user_prompt body_txt w = (Ok None, w1).
Proof.
  intros Hg Hr. unfold cta_stage, gbind. rewrite Hg, Hr. reflexivity.
Qed.

(** A failed stage abandons the stepwise block. *)
Lemma premium_stepwise_abandons user_prompt w w1 :
  stage_fails' user_prompt w w1 ->
  premium_stepwise' user_prompt w = (Ok None, w1).
Proof.
  intros [raw meta err Hg Hr
         | hook hook_meta wh raw meta err Hh Hg Hr
         | hook hook_meta wh body_txt body_meta wb raw meta err Hh Hb Hg Hr];
    unfold premium_stepwise, gbind.
  - rewrite (hook_stage_none _ _ _ _ _ _ Hg Hr). reflexivity.
  - rewrite Hh, (body_stage_none _ _ _ _ _ _ _ Hg Hr). reflexivity.
  - rewrite Hh, Hb, (cta_stage_none _ _ _ _ _ _ _ Hg Hr). reflexivity.
Qed.

(** A stepwise response has all three sections: each stage had content. *)
Lemma premium_stepwise_complete user_prompt w w' response :
  premium_stepwise' user_prompt w = (Ok (Some response), w') ->
  exists hook hook_meta wh body_txt body_meta wb cta_txt cta_meta,
    hook_stage' user_prompt w = (Ok (Some (hook, hook_meta)), wh) /\
    body_stage' user_prompt hook wh = (Ok (Some (body_txt, body_meta)), wb) /\
    cta_stage' user_prompt body_txt wb = (Ok (Some (cta_txt, cta_meta)), w') /\
    response = stepwise_response lib hook body_txt cta_txt hook_meta body_meta
                 cta_meta.
Proof.
  unfold premium_stepwise, gbind, gret.
  destruct (hook_stage' user_prompt w) as [[[[hook hook_meta]|]|e] wh] eqn:Hh;
    try discriminate.
  destruct (body_stage' user_prompt hook wh) as [[[[body_txt body_meta]|]|e] wb]
    eqn:Hb; try discriminate.
  destruct (cta_stage' user_prompt body_txt wb) as [[[[cta_txt cta_meta]|]|e] wc]
    eqn:Hc; try discriminate.
  intros H. injection H as <- <-.
  exists hook, hook_meta, wh, body_txt, body_meta, wb, cta_txt, cta_meta.
  repeat split; assumption.
Qed.

(** The one-shot path answers 200 in mode [single_shot] or 502. *)
Lemma one_shot_responses user_prompt w w' response :
  one_shot' user_prompt w = (Ok response, w') ->
  single_shot_200 response \/ upstream_502 response.
Proof.
  unfold one_shot, gbind, gret, glift, generate.
  destruct (generate_with_fallback cfg lib upstream latency_ms _ w)
    as [[[content meta] upstream_err] w1].
  destruct (truthy content).
  - destruct (as_text content) as [text|e]; [|discriminate].
    intros H. injection H as <- <-. left. eexists _, _. reflexivity.
  - intros H. injection H as <- <-. right. eexists. split; [reflexivity|].
    destruct (DEBUG_MODE cfg && truthy upstream_err); reflexivity.
Qed.

(** With a completion that is text, or has no content, the one-shot path
    returns a response. *)
Lemma one_shot_returns user_prompt w w2 content meta err :
  generate' [system_msg SYSTEM_PROMPT; user_msg user_prompt] w
    = (Ok (content, meta, err), w2) ->
  (truthy content = true -> exists text, content = PStr text) ->
  exists response, one_shot' user_prompt w = (Ok response, w2).
Proof.
  intros Hg Htext. unfold one_shot, gbind. rewrite Hg.
  destruct (truthy content) eqn:T.
  - destruct (Htext eq_refl) as [text ->]. eexists. reflexivity.
  - eexists. reflexivity.
Qed.

(** C6.  A request routed to the Premium pipeline in which the Hook call
    fails, or the Body or CTA call fails after the stages before it were
    accepted, is answered by the one-shot path, run from the world the failed
    call leaves.  What that path returns is the 200 response in mode
    [single_shot] or the 502 response, never a stepwise one; and it does
    return one whenever the completion it obtains is text or has no
    content. *)
Theorem stepwise_failure_falls_through
    (fs : option Store) (request : HttpRequest) (user_prompt : str)
    (w w1 : World) :
  route lib fs request = Ok (Route (u "Premium") user_prompt) ->
  stage_fails' user_prompt w w1 ->
  generate_review' fs request w = one_shot' user_prompt w1 /\
  (forall response w2,
     generate_review' fs request w = (Ok response, w2) ->
     single_shot_200 response \/ upstream_502 response) /\
  (forall content meta err w2,
     generate' [system_msg SYSTEM_PROMPT; user_msg user_prompt] w1
       = (Ok (content, meta, err), w2) ->
     (truthy content = true -> exists text, content = PStr text) ->
     exists response,
       generate_review' fs request w = (Ok response, w2) /\
       (single_shot_200 response \/ upstream_502 response)).
Proof.
  intros Hroute Hfail.
  assert (E : generate_review' fs request w = one_shot' user_prompt w1).
  { unfold generate_review, gbind, glift. rewrite Hroute.
    rewrite str_eqb_refl.
    rewrite (premium_stepwise_abandons _ _ _ Hfail). reflexivity. }
  split; [exact E|]. split.
  - intros response w2 H. rewrite E in H.
    eapply one_shot_responses; exact H.
  - intros content meta err w2 Hg Htext.
    destruct (one_shot_returns _ _ _ _ _ _ Hg Htext) as [response Hr].
    exists response. rewrite E. split; [exact Hr|].
    eapply one_shot_responses; exact Hr.
Qed.

End StepwiseFacts.

(** A Premium user against a server that always times out: the Hook call
    fails and the answer is the 502 of the one-shot path. *)
Lemma stepwise_failure_falls_through_witness :
  let up := build_user_prompt (u "fitness") [] [] [] [] in
  let generate_review0 :=
    generate_review sample_config no_library always_timeout (fun _ => 0) in
  let generate0 :=
    generate sample_config no_library always_timeout (fun _ => 0) in
  let w1 := snd (generate0 (hook_msgs up) world0) in
  generate_review0 premium_store premium_request world0
  = one_shot sample_config no_library always_timeout (fun _ => 0) up w1 /\
  (forall response w2,
     generate_review0 premium_store premium_request world0 = (Ok response, w2) ->
     single_shot_200 response \/ upstream_502 response) /\
  (forall content meta err w2,
     generate0 [system_msg SYSTEM_PROMPT; user_msg up] w1
       = (Ok (content, meta, err), w2) ->
     (truthy content = true -> exists text, content = PStr text) ->
     exists response,
       generate_review0 premium_store premium_request world0
         = (Ok response, w2) /\
       (single_shot_200 response \/ upstream_502 response)).
Proof.
  cbv zeta.
  apply (stepwise_failure_falls_through sample_config no_library always_timeout
           (fun _ => 0) premium_store premium_request).
  - vm_compute. reflexivity.
  - eapply HookFails; [vm_compute; reflexivity | reflexivity].
Defined.

Example timeout_run_502 :
  exists payload w,
    generate_review sample_config no_library always_timeout (fun _ => 0)
      premium_store premium_request world0
    = (Ok (JsonResponse payload 502), w) /\
    posts w = 12%nat.
Proof. eexists _, _. vm_compute. split; reflexivity. Qed.

(* ##################################################################### *)
(** * Further properties *)
(* ##################################################################### *)

(** ** The ledger write *)

Lemma store_find_set_other db id updates id' :
  id' <> id -> store_find (store_set_merge db id updates) id' = store_find db id'.
Proof.
  intros Hne. induction db as [|[i d] r IH]; simpl.
  - rewrite (str_eqb_neq _ _ Hne). reflexivity.
  - destruct (str_eqb id i) eqn:E; simpl.
    + apply str_eqb_eq in E; subst i.
      rewrite (str_eqb_neq _ _ Hne). reflexivity.
    + destruct (str_eqb id' i); auto.
Qed.

Lemma store_find_set_same db id updates :
  store_find (store_set_merge db id updates) id
  = Some (doc_merge (doc_of db id) updates).
Proof.
  unfold doc_of. induction db as [|[i d] r IH]; simpl.
  - rewrite str_eqb_refl. reflexivity.
  - destruct (str_eqb id i) eqn:E; simpl; rewrite E; auto.
Qed.

(** The three fields every update stages. *)
Lemma staged_subscription doc plan c t :
  match staged_updates doc plan c t with
  | Ok updates =>
      dict_find updates (u "subscriptionSelected") = Some (PBool true) /\
      dict_find updates (u "subscriptionPlan") = Some (PStr plan) /\
      dict_find updates (u "creditDepletedAt") = Some PNone
  | Raise _ => True
  end.
Proof. stage_cases; vm_compute; auto. Qed.

(** X1.  Every update that succeeds leaves the record it addressed with
    [subscriptionSelected] true, [subscriptionPlan] equal to the plan passed
    in and [creditDepletedAt] cleared, whatever the plan and whether or not
    credits were granted. *)
Theorem fs_set_user_sets_subscription
    (db db1 : Store) (uid_or_email plan ref : str) (c : option Z)
    (by_uid : bool) (t : option str) :
  locate db uid_or_email by_uid = Some ref ->
  _fs_set_user (Some db) uid_or_email plan c by_uid t = (true, Some db1) ->
  field_at (Some db1) ref (u "subscriptionSelected") = Some (PBool true) /\
  field_at (Some db1) ref (u "subscriptionPlan") = Some (PStr plan) /\
  field_at (Some db1) ref (u "creditDepletedAt") = Some PNone.
Proof.
  intros Hloc H.
  destruct (fs_set_user_ok_inv _ _ _ _ _ _ _ H)
    as (ref0 & updates & Hloc0 & Hst & ->).
  rewrite Hloc in Hloc0. injection Hloc0 as <-.
  pose proof (staged_subscription (doc_of db ref) plan c t) as S.
  rewrite Hst in S. destruct S as (S1 & S2 & S3).
  unfold field_at. rewrite doc_of_set_same, !doc_merge_find, S1, S2, S3.
  repeat split.
Qed.

Lemma fs_set_user_sets_subscription_witness :
  let db := [(u "u1", [(u "subscriptionPlan", PStr (u "Pro"));
                       (u "creditDepletedAt", PStr (u "2025-08-23T07:47:00Z"))])] in
  let db1 := snd (_fs_set_user (Some db) (u "u1") (u "Gold") None true None) in
  field_at db1 (u "u1") (u "subscriptionSelected") = Some (PBool true) /\
  field_at db1 (u "u1") (u "subscriptionPlan") = Some (PStr (u "Gold")) /\
  field_at db1 (u "u1") (u "creditDepletedAt") = Some PNone.
Proof.
  cbv zeta.
  exact (fs_set_user_sets_subscription _ _ (u "u1") (u "Gold") (u "u1") None true
           None eq_refl eq_refl).
Defined.

(** X2.  An update writes to one record only: every other record of the
    store, present or absent, is as it was. *)
Theorem fs_set_user_other_records
    (db : Store) (uid_or_email plan ref id : str) (c : option Z)
    (by_uid : bool) (t : option str) :
  locate db uid_or_email by_uid = Some ref ->
  id <> ref ->
  exists db1,
    snd (_fs_set_user (Some db) uid_or_email plan c by_uid t) = Some db1 /\
    store_find db1 id = store_find db id.
Proof.
  intros Hloc Hne. unfold _fs_set_user, fs_set_user_try. rewrite Hloc.
  destruct (staged_updates (doc_of db ref) plan c t) as [updates|e]; simpl.
  - eexists. split; [reflexivity|]. apply store_find_set_other. exact Hne.
  - eexists. split; reflexivity.
Qed.

Lemma fs_set_user_other_records_witness :
  let db := [(u "u1", [(u "credits", PInt 3)]); (u "u2", [(u "credits", PInt 7)])] in
  exists db1,
    snd (_fs_set_user (Some db) (u "u1") (u "Pro") None true None) = Some db1 /\
    store_find db1 (u "u2") = Some [(u "credits", PInt 7)].
Proof.
  cbv zeta.
  destruct (fs_set_user_other_records
              [(u "u1", [(u "credits", PInt 3)]); (u "u2", [(u "credits", PInt 7)])]
              (u "u1") (u "Pro") (u "u1") (u "u2") None true None eq_refl)
    as (db1 & H1 & H2).
  - discriminate.
  - exists db1. split; [exact H1 | exact H2].
Defined.

Ltac key_cases H :=
  repeat match type of H with
  | context [if str_eqb ?k ?x then _ else _] =>
      let E := fresh "E" in
      destruct (str_eqb k x) eqn:E; [apply str_eqb_eq in E|]
  end.

(** Every key of the staged [updates] is one of the six fixed names or the
    marker of the transaction. *)
Lemma staged_names doc plan c t k :
  match staged_updates doc plan c t with
  | Ok updates =>
      dict_find updates k <> None ->
      In k ledger_fields \/
      exists t', t = Some t' /\ k = u "processedTxns." ++ t'
  | Raise _ => True
  end.
Proof.
  stage_cases; try exact I; cbn; intros H;
    key_cases H; try congruence;
    try (left; subst k; vm_compute; tauto);
    try (right; eexists; split; [reflexivity|]; subst k; reflexivity).
Qed.

(** X3.  The write is a merge: a field whose name is none of the six names
    the ledger stages, nor the marker of the transaction passed in, keeps
    its value on every record. *)
Theorem fs_set_user_other_fields
    (fs_db : option Store) (uid_or_email plan id k : str) (c : option Z)
    (by_uid : bool) (t : option str) :
  ~ In k ledger_fields ->
  (forall t', t = Some t' -> k <> u "processedTxns." ++ t') ->
  field_at (snd (_fs_set_user fs_db uid_or_email plan c by_uid t)) id k
  = field_at fs_db id k.
Proof.
  intros Hk Ht.
  destruct fs_db as [db|]; [|reflexivity].
  unfold _fs_set_user, fs_set_user_try.
  destruct (locate db uid_or_email by_uid) as [ref|]; [|reflexivity].
  pose proof (staged_names (doc_of db ref) plan c t k) as S.
  destruct (staged_updates (doc_of db ref) plan c t) as [updates|e];
    simpl; [|reflexivity].
  apply field_kept_by_set.
  destruct (dict_find updates k) as [v|] eqn:F; [|reflexivity].
  exfalso. destruct S as [S | (t' & -> & ->)]; [congruence | exact (Hk S) |].
  exact (Ht t' eq_refl eq_refl).
Qed.

Lemma fs_set_user_other_fields_witness :
  let db := [(u "u1", [(u "email", PStr (u "a@b.co")); (u "credits", PInt 3)])] in
  field_at
    (snd (_fs_set_user (Some db) (u "u1") (u "Pro") None true (Some (u "tx1"))))
    (u "u1") (u "email")
  = Some (PStr (u "a@b.co")).
Proof.
  cbv zeta.
  refine (fs_set_user_other_fields _ (u "u1") (u "Pro") (u "u1") (u "email")
            None true (Some (u "tx1")) _ _).
  - vm_compute. intros H. decompose [or] H; try discriminate; assumption.
  - intros t' E. injection E as <-. discriminate.
Defined.

(** X4.  A plan name the ledger does not know (the comparison is exact, so
    [pro] or [Gold] are such names) is recorded as the subscription plan of
    the addressed record, and no [credits] field changes. *)
Theorem fs_set_user_unknown_plan
    (db : Store) (uid_or_email plan ref : str) (c : option Z)
    (by_uid : bool) (t : option str) :
  unknown_plan plan = true ->
  locate db uid_or_email by_uid = Some ref ->
  exists db1,
    _fs_set_user (Some db) uid_or_email plan c by_uid t = (true, Some db1) /\
    field_at (Some db1) ref (u "subscriptionPlan") = Some (PStr plan) /\
    forall id, credits_at (Some db1) id = credits_at (Some db) id.
Proof.
  intros Hu Hloc. unfold unknown_plan in Hu.
  apply andb_true_iff in Hu. destruct Hu as [Hb Hp].
  apply negb_true_iff in Hb. apply negb_true_iff in Hp.
  unfold _fs_set_user, fs_set_user_try. rewrite Hloc.
  unfold staged_updates. rewrite Hb, Hp. simpl.
  eexists. split; [reflexivity|]. split.
  - unfold field_at. rewrite doc_of_set_same, doc_merge_find. reflexivity.
  - intros id. unfold credits_at. apply field_kept_by_set. reflexivity.
Qed.

Lemma fs_set_user_unknown_plan_witness :
  let db := [(u "u1", [(u "credits", PInt 3)])] in
  exists db1,
    _fs_set_user (Some db) (u "u1") (u "pro") (Some 200) true (Some (u "tx1"))
      = (true, Some db1) /\
    field_at (Some db1) (u "u1") (u "subscriptionPlan") = Some (PStr (u "pro")) /\
    forall id, credits_at (Some db1) id = credits_at (Some db) id.
Proof.
  cbv zeta.
  exact (fs_set_user_unknown_plan [(u "u1", [(u "credits", PInt 3)])] (u "u1")
           (u "pro") (u "u1") (Some 200) true (Some (u "tx1")) eq_refl eq_refl).
Defined.

(** Staging on a document without a [processedTxns] field never raises. *)
Lemma staged_on_absent plan c t :
  exists updates, staged_updates [] plan c t = Ok updates.
Proof.
  unfold staged_updates.
  destruct (str_eqb plan (u "Basic")); [eexists; reflexivity|].
  destruct (str_in plan PAID_PLANS); [|eexists; reflexivity].
  destruct t as [[|c0 t0]|]; eexists; reflexivity.
Qed.

(** X5.  Addressed by id, an update needs no record to exist: for an id the
    store does not hold it succeeds and creates the record, with the plan
    passed in as its subscription plan. *)
Theorem fs_set_user_creates_record
    (db : Store) (uid plan : str) (c : option Z) (t : option str) :
  store_find db uid = None ->
  exists db1 doc,
    _fs_set_user (Some db) uid plan c true t = (true, Some db1) /\
    store_find db1 uid = Some doc /\
    dict_find doc (u "subscriptionPlan") = Some (PStr plan).
Proof.
  intros Habs. unfold _fs_set_user, fs_set_user_try, locate.
  assert (Hdoc : doc_of db uid = []) by (unfold doc_of; rewrite Habs; reflexivity).
  rewrite Hdoc.
  destruct (staged_on_absent plan c t) as [updates Hst].
  pose proof (staged_subscription [] plan c t) as S. rewrite Hst in S.
  rewrite Hst. simpl.
  eexists _, _. split; [reflexivity|]. split.
  - apply store_find_set_same.
  - rewrite Hdoc, doc_merge_find. destruct S as (_ & -> & _). reflexivity.
Qed.

Lemma fs_set_user_creates_record_witness :
  exists db1 doc,
    _fs_set_user (Some []) (u "nobody") (u "Premium") None true None
      = (true, Some db1) /\
    store_find db1 (u "nobody") = Some doc /\
    dict_find doc (u "subscriptionPlan") = Some (PStr (u "Premium")).
Proof.
  exact (fs_set_user_creates_record [] (u "nobody") (u "Premium") None None
           eq_refl).
Defined.

(** X6.  A record whose [processedTxns] field holds something that is
    neither empty nor a map makes a paid update with a transaction id fail:
    the guard's lookup raises, the call returns [False], and nothing is
    written. *)
Theorem fs_set_user_unreadable_txns
    (db : Store) (uid_or_email plan ref : str) (dflt : Z) (c : option Z)
    (by_uid : bool) (c0 : N) (t0 : str) :
  paid_default plan = Some dflt ->
  locate db uid_or_email by_uid = Some ref ->
  txns_readable (doc_of db ref) = false ->
  _fs_set_user (Some db) uid_or_email plan c by_uid (Some (c0 :: t0))
  = (false, Some db).
Proof.
  intros Hp Hloc Hr.
  destruct (paid_default_in _ _ Hp) as (Hb & Hin & _).
  unfold _fs_set_user, fs_set_user_try. rewrite Hloc.
  unfold staged_updates. rewrite Hb, Hin.
  unfold txns_readable in Hr. unfold py_or.
  destruct (dict_get (doc_of db ref) (u "processedTxns"))
    as [|b|z|bits|s|l|m|tt]; try (simpl in Hr; discriminate Hr);
    apply negb_false_iff in Hr; rewrite Hr; reflexivity.
Qed.

Lemma fs_set_user_unreadable_txns_witness :
  let db := [(u "u1", [(u "credits", PInt 3);
                       (u "processedTxns", PList [PStr (u "tx0")])])] in
  _fs_set_user (Some db) (u "u1") (u "Pro") None true (Some (u "tx1"))
  = (false, Some db).
Proof.
  cbv zeta.
  exact (fs_set_user_unreadable_txns
           [(u "u1", [(u "credits", PInt 3);
                      (u "processedTxns", PList [PStr (u "tx0")])])]
           (u "u1") (u "Pro") (u "u1") 200 None true 116%N (u "x1")
           eq_refl eq_refl eq_refl).
Defined.

(** X7.  When the [processedTxns] map of the record does hold the
    transaction id with a true value, a paid update with that id succeeds
    without granting: no [credits] field and no [lastPaidTxn] field
    changes. *)
Theorem fs_set_user_marked_txn_skips
    (db : Store) (uid_or_email plan ref : str) (dflt : Z) (c : option Z)
    (by_uid : bool) (c0 : N) (t0 : str) :
  paid_default plan = Some dflt ->
  locate db uid_or_email by_uid = Some ref ->
  txn_marked (doc_of db ref) (c0 :: t0) = true ->
  exists db1,
    _fs_set_user (Some db) uid_or_email plan c by_uid (Some (c0 :: t0))
      = (true, Some db1) /\
    forall id,
      credits_at (Some db1) id = credits_at (Some db) id /\
      field_at (Some db1) id (u "lastPaidTxn")
      = field_at (Some db) id (u "lastPaidTxn").
Proof.
  intros Hp Hloc Hm.
  destruct (paid_default_in _ _ Hp) as (Hb & Hin & _).
  unfold _fs_set_user, fs_set_user_try. rewrite Hloc.
  unfold staged_updates. rewrite Hb, Hin.
  unfold txn_marked in Hm. unfold py_or.
  destruct (dict_get (doc_of db ref) (u "processedTxns"))
    as [|b|z|bits|s|l|m|tt]; try discriminate Hm.
  destruct m as [|kv m]; [discriminate Hm|].
  simpl truthy. unfold py_get, ebind. rewrite Hm. simpl.
  eexists. split; [reflexivity|]. intros id. split.
  - unfold credits_at. apply field_kept_by_set. reflexivity.
  - unfold field_at. apply field_kept_by_set. reflexivity.
Qed.

Lemma fs_set_user_marked_txn_skips_witness :
  let db := [(u "u1", [(u "credits", PInt 3);
                       (u "processedTxns", PDict [(u "tx1", PBool true)])])] in
  exists db1,
    _fs_set_user (Some db) (u "u1") (u "Pro") (Some 200) true (Some (u "tx1"))
      = (true, Some db1) /\
    forall id,
      credits_at (Some db1) id = credits_at (Some db) id /\
      field_at (Some db1) id (u "lastPaidTxn")
      = field_at (Some db) id (u "lastPaidTxn").
Proof.
  cbv zeta.
  exact (fs_set_user_marked_txn_skips
           [(u "u1", [(u "credits", PInt 3);
                      (u "processedTxns", PDict [(u "tx1", PBool true)])])]
           (u "u1") (u "Pro") (u "u1") 200 (Some 200) true 116%N (u "x1")
           eq_refl eq_refl eq_refl).
Defined.

(** The store stays available through an update. *)
Lemma fs_set_user_store db uid_or_email plan c by_uid t :
  exists db1, snd (_fs_set_user (Some db) uid_or_email plan c by_uid t) = Some db1.
Proof.
  unfold _fs_set_user, fs_set_user_try.
  destruct (locate db uid_or_email by_uid) as [ref|]; [|eexists; reflexivity].
  destruct (staged_updates (doc_of db ref) plan c t); eexists; reflexivity.
Qed.

(** X8.  The [freeBasicGranted] flag is never taken back: once it is set on
    a record it is set after every history of updates, whatever their plans
    and targets, and a Basic update that follows such a history still
    leaves the [credits] of that record alone. *)
Theorem free_basic_flag_stays
    (db : Store) (ref : str) (history : list Update) :
  truthy (dict_get (doc_of db ref) (u "freeBasicGranted")) = true ->
  exists db1,
    apply_updates history (Some db) = Some db1 /\
    truthy (dict_get (doc_of db1 ref) (u "freeBasicGranted")) = true /\
    forall uid_or_email by_uid c t,
      credits_at
        (snd (_fs_set_user (Some db1) uid_or_email (u "Basic") c by_uid t)) ref
      = credits_at (Some db1) ref.
Proof.
  revert db. induction history as [|call rest IH]; intros db Hflag.
  - exists db. split; [reflexivity|]. split; [exact Hflag|].
    intros. apply basic_keeps_flagged. exact Hflag.
  - unfold apply_updates. simpl. unfold apply_update at 2.
    destruct (fs_set_user_store db (upd_target call) (upd_plan call)
                (upd_credits call) (upd_by_uid call) (upd_txn call))
      as [db' Hdb'].
    rewrite Hdb'. apply IH.
    eapply flag_kept; [exact Hflag | exact Hdb'].
Qed.

Lemma free_basic_flag_stays_witness :
  let db := [(u "u1", [(u "credits", PInt 0); (u "freeBasicGranted", PBool true)])] in
  let history :=
    [ {| upd_target := u "u1"; upd_plan := u "Pro"; upd_credits := None;
         upd_by_uid := true; upd_txn := Some (u "tx1") |};
      {| upd_target := u "u1"; upd_plan := u "Basic"; upd_credits := None;
         upd_by_uid := true; upd_txn := None |} ] in
  exists db1,
    apply_updates history (Some db) = Some db1 /\
    truthy (dict_get (doc_of db1 (u "u1")) (u "freeBasicGranted")) = true /\
    forall uid_or_email by_uid c t,
      credits_at
        (snd (_fs_set_user (Some db1) uid_or_email (u "Basic") c by_uid t))
        (u "u1")
      = credits_at (Some db1) (u "u1").
Proof.
  cbv zeta.
  exact (free_basic_flag_stays
           [(u "u1", [(u "credits", PInt 0); (u "freeBasicGranted", PBool true)])]
           (u "u1") _ eq_refl).
Defined.

(** An update that returns [False] has written nothing: the store is
    the one it was given.  One that returns [True] had a store to write
    to. *)
Theorem fs_set_user_false_writes_nothing
    (fs_db : option Store) (uid_or_email plan : str) (c : option Z)
    (by_uid : bool) (t : option str) :
  let r := _fs_set_user fs_db uid_or_email plan c by_uid t in
  (fst r = false /\ snd r = fs_db) \/
  (fst r = true /\ fs_db <> None /\ snd r <> None).
Proof.
  cbv zeta. unfold _fs_set_user, fs_set_user_try.
  destruct fs_db as [db|]; [|left; split; reflexivity].
  destruct (locate db uid_or_email by_uid) as [ref|];
    [|left; split; reflexivity].
  destruct (staged_updates (doc_of db ref) plan c t); simpl.
  - right. repeat split; discriminate.
  - left. split; reflexivity.
Qed.

(** The e-mail query after a write that does not name the [email] field. *)
Lemma query_email_kept db id updates e :
  dict_find updates (u "email") = None ->
  query_email (store_set_merge db id updates) e = query_email db e.
Proof.
  intros Hk. induction db as [|[i d] r IH]; simpl.
  - rewrite doc_merge_find, Hk. reflexivity.
  - destruct (str_eqb id i) eqn:E; simpl.
    + rewrite doc_merge_find, Hk. reflexivity.
    + rewrite IH. reflexivity.
Qed.

(** No update changes which record an e-mail address resolves to:
    the lookup by e-mail gives the same answer, for every address, before
    and after. *)
Theorem fs_set_user_keeps_email_lookup
    (db : Store) (uid_or_email plan : str) (c : option Z)
    (by_uid : bool) (t : option str) :
  exists db1,
    snd (_fs_set_user (Some db) uid_or_email plan c by_uid t) = Some db1 /\
    forall e by_uid', locate db1 e by_uid' = locate db e by_uid'.
Proof.
  unfold _fs_set_user, fs_set_user_try.
  destruct (locate db uid_or_email by_uid) as [ref|];
    [|eexists; split; reflexivity].
  destruct (staged_updates (doc_of db ref) plan c t) as [updates|e0] eqn:Hst;
    simpl; [|eexists; split; reflexivity].
  eexists. split; [reflexivity|].
  intros e [|]; unfold locate; [reflexivity|].
  apply query_email_kept. eapply staged_no_email. exact Hst.
Qed.

(** ** The billing views *)

Lemma webhook_update_store uid email plan credits st :
  snd (webhook_update uid email plan credits st) = st.
Proof.
  destruct (truthy uid) eqn:Hu.
  - rewrite webhook_update_raises by (left; exact Hu). reflexivity.
  - destruct (truthy email) eqn:He.
    + rewrite webhook_update_raises by (right; exact He). reflexivity.
    + rewrite webhook_update_no_identity by assumption. reflexivity.
Qed.

(** X9.  The webhook never writes to the store: whatever the request, the
    namespace and the library, the store after the view is the store
    before.  Every path that reaches [_fs_set_user] passes three positional
    arguments and raises before the function body runs. *)
Theorem paddle_webhook_never_writes
    (ns : string -> bool) (lib : Library) (request : HttpRequest)
    (st : option Store) :
  snd (paddle_webhook ns lib request st) = st.
Proof.
  unfold paddle_webhook.
  destruct (negb (str_eqb (method request) POST)); [reflexivity|].
  destruct (text <- decode_body request ;;
            json_loads (match text with [] => u "{}" | _ => text end))
    as [payload|e].
  - unfold sbind, lift.
    destruct (webhook_event ns lib payload) as [[response|uid email plan credits]|e];
      [reflexivity | apply webhook_update_store | reflexivity].
  - destruct e; reflexivity.
Qed.

Lemma bad_request_unbound content :
  bad_request views_namespace content
  = Raise (NameError "HttpResponseBadRequest").
Proof. reflexivity. Qed.

Lemma webhook_event_ignore_ok ns lib payload response :
  webhook_event ns lib payload = Ok (Ignore response) ->
  exists data, response = JsonResponse ((u "ok", PBool true) :: data) 200.
Proof.
  unfold webhook_event.
  repeat match goal with
  | |- context [ebind ?m _] => destruct m; cbn [ebind]; [|discriminate]
  | |- context [let '(_, _) := ?p in _] => destruct p
  | |- context [if ?b then _ else _] => destruct b
  end;
  intros H; try discriminate H; injection H as <-; eexists; reflexivity.
Qed.

(** X10.  Whatever the webhook returns is a JSON response with status 200
    whose first field is [ok: true]; it never answers with another status.
    A request it cannot accept does not get a 400: the view raises. *)
Theorem paddle_webhook_only_200
    (lib : Library) (request : HttpRequest) (st st' : option Store)
    (response : Response) :
  paddle_webhook views_namespace lib request st = (Ok response, st') ->
  exists data, response = JsonResponse ((u "ok", PBool true) :: data) 200.
Proof.
  unfold paddle_webhook.
  destruct (negb (str_eqb (method request) POST)).
  { unfold lift. rewrite bad_request_unbound. discriminate. }
  destruct (text <- decode_body request ;;
            json_loads (match text with [] => u "{}" | _ => text end))
    as [payload|e].
  - unfold sbind, lift.
    destruct (webhook_event views_namespace lib payload)
      as [[r|uid email plan credits]|e] eqn:Hev.
    + intros H. injection H as <- <-.
      eapply webhook_event_ignore_ok. exact Hev.
    + destruct (truthy uid) eqn:Hu.
      * rewrite webhook_update_raises by (left; exact Hu). discriminate.
      * destruct (truthy email) eqn:He.
        -- rewrite webhook_update_raises by (right; exact He). discriminate.
        -- rewrite webhook_update_no_identity by assumption.
           intros H. injection H as <- <-. eexists. reflexivity.
    + discriminate.
  - destruct e; unfold lift, sraise; try rewrite bad_request_unbound;
      discriminate.
Qed.

Lemma paddle_webhook_only_200_witness :
  let request := {| method := POST; body := Some (j "{'type':'invoice.paid'}") |} in
  let response :=
    JsonResponse [(u "ok", PBool true); (u "ignored", PStr (u "invoice.paid"))]
      200 in
  paddle_webhook views_namespace no_library request None = (Ok response, None) /\
  exists data, response = JsonResponse ((u "ok", PBool true) :: data) 200.
Proof.
  cbv zeta. split; [vm_compute; reflexivity|].
  exact (paddle_webhook_only_200 no_library
           {| method := POST; body := Some (j "{'type':'invoice.paid'}") |}
           None None _ eq_refl).
Defined.

(** The two rejections of the webhook do not produce their 400: for a
    request that is not a POST, and for a POST whose body is not JSON, the
    view raises [NameError], since [HttpResponseBadRequest] is not a name
    of the module. *)
Theorem paddle_webhook_rejections_raise
    (lib : Library) (request : HttpRequest) (st : option Store) (text : str) :
  method request <> POST \/
  (body request = Some text /\
   json_loads (match text with [] => u "{}" | _ => text end)
   = Raise JSONDecodeError) ->
  paddle_webhook views_namespace lib request st
  = (Raise (NameError "HttpResponseBadRequest"), st).
Proof.
  intros H. unfold paddle_webhook.
  destruct (str_eqb (method request) POST) eqn:E; simpl.
  - destruct H as [H | [Hb Hj]].
    + apply str_eqb_eq in E. contradiction.
    + unfold decode_body. rewrite Hb. cbn [ebind]. rewrite Hj. reflexivity.
  - reflexivity.
Qed.

Lemma paddle_webhook_rejections_raise_witness :
  paddle_webhook views_namespace no_library
    {| method := POST; body := Some (u "plan=pro") |} None
  = (Raise (NameError "HttpResponseBadRequest"), None).
Proof.
  apply (paddle_webhook_rejections_raise no_library _ None (u "plan=pro")).
  right. split; [reflexivity | vm_compute; reflexivity].
Defined.

(** X11.  [confirm_plan] returns no response at all: a request it rejects
    (wrong method, body that is not JSON, missing uid, unknown plan) runs
    into the unbound [HttpResponseBadRequest]; a body that is JSON but not
    an object has no [get]; and a request it accepts runs into the
    ill-formed call of [_fs_set_user].  The store is never written. *)
Theorem confirm_plan_never_responds
    (request : HttpRequest) (st : option Store) :
  exists e,
    confirm_plan views_namespace request st = (Raise e, st) /\
    (e = NameError "HttpResponseBadRequest" \/ e = AttributeError \/
     e = TypeError).
Proof.
  unfold confirm_plan.
  destruct (negb (str_eqb (method request) POST)).
  { eexists. split; [reflexivity|]. left. reflexivity. }
  destruct (text <- decode_body request ;; json_loads text) as [body|e0].
  2:{ eexists. split; [reflexivity|]. left. reflexivity. }
  unfold sbind, lift.
  destruct (py_get body (u "uid")) as [uid|e1] eqn:Hu.
  2:{ destruct body; try discriminate Hu; injection Hu as <-;
      eexists; (split; [reflexivity|]); right; left; reflexivity. }
  destruct (py_get body (u "plan")) as [plan|e2] eqn:Hp.
  2:{ destruct body; try discriminate Hp; discriminate Hu. }
  destruct (negb (truthy uid)
            || negb (py_eq_str plan (u "Pro") || py_eq_str plan (u "Premium")
                     || py_eq_str plan (u "Basic"))).
  - eexists. split; [reflexivity|]. left. reflexivity.
  - unfold run_call. rewrite call_fs_set_user_three_positional.
    eexists. split; [reflexivity|]. right. right. reflexivity.
Qed.

(** X12.  An event of the shape Paddle sends, [{event: {type: s, ...}}],
    whose type [s] is a text outside the allow-list is acknowledged with
    [{ok: true, ignored: s}] and status 200; nothing of its data is read and
    the store is not touched. *)
Theorem paddle_webhook_ignores_other_events
    (ns : string -> bool) (lib : Library) (request : HttpRequest)
    (st : option Store) (text : str) (d e : Dict) (s : str) :
  method request = POST ->
  body request = Some text ->
  text <> [] ->
  json_loads text = Ok (PDict d) ->
  dict_find d (u "event") = Some (PDict e) ->
  dict_find e (u "type") = Some (PStr s) ->
  s <> [] ->
  str_in s interesting = false ->
  paddle_webhook ns lib request st
  = (Ok (JsonResponse [(u "ok", PBool true); (u "ignored", PStr s)] 200), st).
Proof.
  intros Hm Hb Ht Hj He Hty Hs Hin.
  unfold paddle_webhook, decode_body. rewrite Hm, Hb.
  replace (negb (str_eqb POST POST)) with false by (vm_compute; reflexivity).
  cbn [ebind]. destruct text as [|c0 text0]; [congruence|]. rewrite Hj.
  unfold sbind, lift, webhook_event, py_get, dict_get. rewrite He.
  destruct e as [|kv e0]; [discriminate Hty|].
  unfold py_or. cbn [truthy ebind]. unfold or_else, py_get, dict_get.
  cbn [ebind]. rewrite Hty.
  destruct s as [|s0 s1]; [congruence|]. cbn [truthy ebind].
  destruct (truthy match dict_find (kv :: e0) (u "data") with
                   | Some v => v | None => PNone end);
    cbn [ebind].
  - unfold not_interesting. cbn [hashable ebind]. rewrite Hin. reflexivity.
  - destruct (truthy match dict_find (kv :: e0) (u "object") with
                     | Some v => v | None => PNone end);
      cbn [ebind]; unfold not_interesting; cbn [hashable ebind];
      rewrite Hin; reflexivity.
Qed.

Lemma paddle_webhook_ignores_other_events_witness :
  paddle_webhook views_namespace no_library
    {| method := POST;
       body := Some (j "{'event': {'type': 'subscription.canceled', 'data': {'id': 'sub_1'}}}") |}
    (Some [])
  = (Ok (JsonResponse [(u "ok", PBool true);
                       (u "ignored", PStr (u "subscription.canceled"))] 200),
     Some []).
Proof.
  eapply (paddle_webhook_ignores_other_events views_namespace no_library _ (Some [])).
  - reflexivity.
  - reflexivity.
  - discriminate.
  - vm_compute. reflexivity.
  - vm_compute. reflexivity.
  - vm_compute. reflexivity.
  - discriminate.
  - reflexivity.
Defined.

Lemma py_or_left a b : truthy a = true -> py_or a b = a.
Proof. intros H. unfold py_or. rewrite H. reflexivity. Qed.

Lemma py_or_right a b : truthy a = false -> py_or a b = b.
Proof. intros H. unfold py_or. rewrite H. reflexivity. Qed.

Lemma plan_of_name_range name p :
  plan_of_name name = Some p -> p = PStr (u "Premium") \/ p = PStr (u "Pro").
Proof.
  unfold plan_of_name.
  destruct (contains (u "premium") name); [intros H; injection H as <-; auto|].
  destruct (contains (u "pro") name); [intros H; injection H as <-; auto|].
  discriminate.
Qed.

(** X13.  [_infer_plan_from_names] never raises and answers [None],
    [Pro] or [Premium] only, whatever the payload.  When the name of the
    first item's price is a text that contains [pro] in some letter case,
    the answer is not [None], and it is [Premium] exactly when the name
    also contains [premium]. *)
Theorem infer_plan_from_names_range (data : PyVal) :
  (_infer_plan_from_names data = PNone \/
   _infer_plan_from_names data = PStr (u "Pro") \/
   _infer_plan_from_names data = PStr (u "Premium")) /\
  (forall d item rest price name,
     data = PDict d ->
     dict_get d (u "items") = PList (PDict item :: rest) ->
     dict_get item (u "price") = PDict price ->
     dict_get price (u "name") = PStr name ->
     contains (u "pro") (lower name) = true ->
     _infer_plan_from_names data
     = if contains (u "premium") (lower name) then PStr (u "Premium")
       else PStr (u "Pro")).
Proof.
  split.
  - unfold _infer_plan_from_names.
    destruct (x <- py_get data (u "items") ;; Ok (py_or x (PList [])))
      as [items|]; cbn [ebind]; auto.
    match goal with
    | |- context [ebind ?m _] => destruct m as [[p|]|] eqn:F; cbn [ebind]; auto
    end.
    + assert (R : p = PStr (u "Premium") \/ p = PStr (u "Pro")).
      { destruct (truthy items); [|discriminate F].
        repeat match type of F with
        | context [ebind ?m _] =>
            destruct m; cbn [ebind] in F; [|discriminate F]
        end.
        injection F as F. eapply plan_of_name_range. exact F. }
      destruct R as [-> | ->]; auto.
    + repeat match goal with
      | |- context [ebind ?m _] => destruct m; cbn [ebind]; auto
      | |- context [if truthy ?b then _ else _] => destruct (truthy b); auto
      | |- context [match plan_of_name ?n with Some _ => _ | None => _ end] =>
          let E := fresh "E" in
          destruct (plan_of_name n) eqn:E;
          [destruct (plan_of_name_range _ _ E) as [-> | ->]; auto | auto]
      end.
  - intros d item rest price name -> Hi Hp Hn Hc.
    unfold _infer_plan_from_names, py_get. cbn [ebind]. rewrite Hi.
    rewrite (py_or_left (PList (PDict item :: rest))) by reflexivity.
    cbn [py_index0 ebind]. rewrite Hp.
    destruct price as [|kv price0]; [discriminate Hn|].
    rewrite (py_or_left (PDict (kv :: price0))) by reflexivity.
    cbn [ebind]. rewrite Hn.
    destruct name as [|n0 name0]; [discriminate Hc|].
    rewrite (py_or_left (PStr (n0 :: name0))) by reflexivity.
    cbn [py_lower ebind].
    unfold plan_of_name. rewrite Hc.
    destruct (contains (u "premium") (lower (n0 :: name0))); reflexivity.
Qed.

Lemma get_in_ok d k k2 :
  mapping_or_falsy (dict_get d k) = true ->
  exists x, get_in (PDict d) k k2 = Ok x.
Proof.
  unfold get_in, py_get, py_or. cbn [ebind].
  destruct (dict_get d k) as [|b|z|bits|s|l|m|tt]; simpl; intros H;
    try (apply negb_true_iff in H; rewrite H);
    try discriminate H; try (eexists; reflexivity).
  destruct m; eexists; reflexivity.
Qed.

Lemma get_in_absent d k k2 :
  dict_find d k = None -> get_in (PDict d) k k2 = Ok PNone.
Proof.
  intros H. unfold get_in, py_get, dict_get. rewrite H. reflexivity.
Qed.

Lemma decode_passthrough_json lib s v :
  s <> [] -> json_loads s = Ok v ->
  _decode_passthrough views_namespace lib (PStr s) = v.
Proof.
  intros Hs Hj. unfold _decode_passthrough, load_global.
  destruct s as [|c r]; [congruence|]. cbn [truthy negb].
  replace (views_namespace "base64") with false by reflexivity.
  rewrite Hj. reflexivity.
Qed.

(** X14.  A passthrough that is JSON text but not of an object (a list, a
    number, a quoted text, [null]) is handed on as it is decoded, and
    [_get_identity_and_plan] raises [AttributeError] when it asks it for the
    uid. *)
Theorem identity_and_plan_passthrough_not_object
    (lib : Library) (d : Dict) (s : str) (v : PyVal) :
  mapping_or_falsy (dict_get d (u "custom_data")) = true ->
  mapping_or_falsy (dict_get d (u "metadata")) = true ->
  dict_get d (u "passthrough") = PStr s ->
  s <> [] ->
  json_loads s = Ok v ->
  (forall m, v <> PDict m) ->
  _get_identity_and_plan views_namespace lib (PDict d) = Raise AttributeError.
Proof.
  intros Hc Hm Hp Hs Hj Hv.
  destruct (get_in_ok d (u "custom_data") (u "plan") Hc) as [x1 H1].
  destruct (get_in_ok d (u "metadata") (u "plan") Hm) as [x2 H2].
  unfold _get_identity_and_plan.
  assert (L : exists plan_label,
             or_else (get_in (PDict d) (u "custom_data") (u "plan"))
               (or_else (get_in (PDict d) (u "metadata") (u "plan")) (Ok PNone))
             = Ok plan_label).
  { unfold or_else. rewrite H1, H2. cbn [ebind].
    destruct (truthy x1); [eexists; reflexivity|].
    destruct (truthy x2); eexists; reflexivity. }
  destruct L as [plan_label ->]. cbn [ebind].
  unfold or_else at 1. unfold py_get at 1. cbn [ebind]. rewrite Hp.
  destruct s as [|c0 s0]; [congruence|]. cbn [truthy ebind].
  rewrite (decode_passthrough_json lib (c0 :: s0) v) by (congruence || assumption).
  destruct v; try reflexivity. exfalso. eapply Hv. reflexivity.
Qed.

Lemma identity_and_plan_passthrough_not_object_witness :
  _get_identity_and_plan views_namespace no_library
    (PDict [(u "passthrough", PStr (j "['u1', 'pro']"))])
  = Raise AttributeError.
Proof.
  apply (identity_and_plan_passthrough_not_object no_library _
           (j "['u1', 'pro']") (PList [PStr (u "u1"); PStr (u "pro")])).
  - reflexivity.
  - reflexivity.
  - reflexivity.
  - discriminate.
  - vm_compute. reflexivity.
  - discriminate.
Defined.

(** X15.  A passthrough that is the JSON text of an object carries the
    identity and the plan when the payload names them nowhere else: the uid
    and the e-mail are read from it, and its plan (taken here to be ASCII
    text) comes back in title case. *)
Theorem identity_and_plan_from_passthrough
    (lib : Library) (d m : Dict) (s p : str) :
  Forall (fun k => dict_find d k = None)
    [ u "custom_data"; u "metadata"; u "customer"; u "customer_email";
      u "billing_details" ] ->
  dict_get d (u "passthrough") = PStr s ->
  s <> [] ->
  json_loads s = Ok (PDict m) ->
  dict_get m (u "plan") = PStr p ->
  p <> [] ->
  Forall (fun c => (c < 128)%N) p ->
  _get_identity_and_plan views_namespace lib (PDict d)
  = Ok (dict_get m (u "uid"), dict_get m (u "email"), PStr (title p)).
Proof.
  intros Habs Hp Hs Hj Hplan Hpne _.
  inversion Habs as [|? ? A1 Habs1]; subst.
  inversion Habs1 as [|? ? A2 Habs2]; subst.
  inversion Habs2 as [|? ? A3 Habs3]; subst.
  inversion Habs3 as [|? ? A4 Habs4]; subst.
  inversion Habs4 as [|? ? A5 _]; subst.
  unfold _get_identity_and_plan, or_else.
  rewrite !get_in_absent by assumption. cbn [truthy ebind].
  unfold py_get at 1. cbn [ebind]. rewrite Hp.
  destruct s as [|c0 s0]; [congruence|]. cbn [truthy ebind].
  rewrite (decode_passthrough_json lib (c0 :: s0) (PDict m)) by (congruence || assumption).
  unfold py_get. cbn [ebind]. rewrite Hplan.
  replace (dict_get d (u "customer_email")) with PNone
    by (unfold dict_get; rewrite A4; reflexivity).
  cbn [truthy ebind negb].
  destruct p as [|p0 p1]; [congruence|]. reflexivity.
Qed.

Lemma identity_and_plan_from_passthrough_witness :
  _get_identity_and_plan views_namespace no_library
    (PDict [(u "passthrough", PStr (j "{'uid': 'u1', 'plan': 'pro'}"))])
  = Ok (PStr (u "u1"), PNone, PStr (u "Pro")).
Proof.
  apply (identity_and_plan_from_passthrough no_library
           [(u "passthrough", PStr (j "{'uid': 'u1', 'plan': 'pro'}"))]
           [(u "uid", PStr (u "u1")); (u "plan", PStr (u "pro"))]
           (j "{'uid': 'u1', 'plan': 'pro'}") (u "pro")).
  - repeat constructor.
  - reflexivity.
  - discriminate.
  - vm_compute. reflexivity.
  - reflexivity.
  - discriminate.
  - repeat constructor.
Defined.

(** [_apply_plan_to_user] cannot apply a plan: given a uid or an
    e-mail it raises [TypeError] at its call of [_fs_set_user]; given
    neither it returns [False].  The store is left as it was. *)
Theorem apply_plan_to_user_never_applies
    (uid email : PyVal) (plan : str) (st : option Store) :
  _apply_plan_to_user uid email plan st
  = (if truthy uid || truthy email then Raise TypeError else Ok false, st).
Proof.
  unfold _apply_plan_to_user, sbind, run_call, sret.
  destruct (truthy uid).
  - rewrite call_fs_set_user_three_positional. reflexivity.
  - cbn [negb andb orb]. destruct (truthy email).
    + rewrite call_fs_set_user_three_positional. reflexivity.
    + reflexivity.
Qed.

(** A call either returns [False] and the store it was given, or [True]
    and a store. *)
Lemma fs_set_user_false_or_true fs_db uid_or_email plan c by_uid t :
  let r := _fs_set_user fs_db uid_or_email plan c by_uid t in
  (fst r = false /\ snd r = fs_db) \/ (fst r = true /\ snd r <> None).
Proof.
  cbv zeta. unfold _fs_set_user, fs_set_user_try.
  destruct fs_db as [db|]; [|left; split; reflexivity].
  destruct (locate db uid_or_email by_uid) as [ref|];
    [|left; split; reflexivity].
  destruct (staged_updates (doc_of db ref) plan c t); simpl.
  - right. split; [reflexivity | discriminate].
  - left. split; reflexivity.
Qed.

(** The subscription fields after a successful update. *)
Lemma fs_set_user_sets_fields db db1 uid_or_email plan ref c by_uid t :
  locate db uid_or_email by_uid = Some ref ->
  _fs_set_user (Some db) uid_or_email plan c by_uid t = (true, Some db1) ->
  field_at (Some db1) ref (u "subscriptionSelected") = Some (PBool true) /\
  field_at (Some db1) ref (u "subscriptionPlan") = Some (PStr plan) /\
  field_at (Some db1) ref (u "creditDepletedAt") = Some PNone.
Proof.
  intros Hloc H.
  destruct (fs_set_user_ok_inv _ _ _ _ _ _ _ H)
    as (ref0 & updates & Hloc0 & Hst & ->).
  rewrite Hloc in Hloc0. injection Hloc0 as <-.
  pose proof (staged_subscription (doc_of db ref) plan c t) as S.
  rewrite Hst in S. destruct S as (S1 & S2 & S3).
  unfold field_at. rewrite doc_of_set_same, !doc_merge_find, S1, S2, S3.
  repeat split.
Qed.

(** What [finalize_checkout] reads off a JSON body: the four fields,
    stripped, the plan in title case. *)
Lemma finalize_checkout_reads request st text (json : PyVal) uid email p ptxn :
  method request = POST ->
  body request = Some text ->
  json_loads text = Ok json ->
  stripped_field json (u "uid") = Ok uid ->
  stripped_field json (u "email") = Ok email ->
  stripped_field json (u "plan") = Ok p ->
  stripped_field json (u "transaction_id") = Ok ptxn ->
  finalize_checkout request st =
  let plan := title p in
  if negb (str_in plan (map fst PLAN_CREDITS)) then
    (Ok (json_error (u "invalid_plan") 400), st)
  else
    let ident := match uid with [] => email | _ => uid end in
    match ident with
    | [] => (Ok (json_error (u "uid_or_email_required") 400), st)
    | _ =>
        let r := _fs_set_user st ident plan
                   (Some (assoc_get PLAN_CREDITS plan 0))
                   (match uid with [] => false | _ => true end)
                   (match ptxn with [] => None | _ => Some ptxn end) in
        (Ok (JsonResponse [(u "ok", PBool (fst r))] 200), snd r)
    end.
Proof.
  intros Hm Hb Hj Hu He Hp Ht.
  unfold finalize_checkout, require_POST, decode_body.
  rewrite Hm, Hb.
  replace (str_eqb POST POST) with true by (vm_compute; reflexivity).
  cbn [ebind]. rewrite Hj. unfold sbind, lift. rewrite Hu, He, Hp.
  cbn [ebind]. rewrite Ht. cbv zeta.
  destruct (negb (str_in (title p) (map fst PLAN_CREDITS))); [reflexivity|].
  destruct (match uid with [] => email | _ => uid end) as [|i0 i1] eqn:Hi;
    [reflexivity|].
  unfold run_call. rewrite call_fs_set_user_keywords.
  destruct (_fs_set_user st (i0 :: i1) (title p)
              (Some (assoc_get PLAN_CREDITS (title p) 0))
              match uid with [] => false | _ => true end
              match ptxn with [] => None | _ => Some ptxn end).
  reflexivity.
Qed.

(** X16.  [finalize_checkout] rejects before it writes: with a plan that
    is not Basic, Pro or Premium in title case it answers 400
    [invalid_plan], and with a valid plan but neither uid nor e-mail it
    answers 400 [uid_or_email_required]; the plan is checked first, and in
    both cases the store is untouched.  Otherwise it answers 200 with the
    result of the ledger update it calls by keyword. *)
Theorem finalize_checkout_outcomes
    (request : HttpRequest) (st : option Store) (text : str) (json : PyVal)
    (uid email p ptxn : str) :
  method request = POST ->
  body request = Some text ->
  json_loads text = Ok json ->
  stripped_field json (u "uid") = Ok uid ->
  stripped_field json (u "email") = Ok email ->
  stripped_field json (u "plan") = Ok p ->
  stripped_field json (u "transaction_id") = Ok ptxn ->
  let r := finalize_checkout request st in
  let valid := str_in (title p) (map fst PLAN_CREDITS) in
  (valid = false -> r = (Ok (json_error (u "invalid_plan") 400), st)) /\
  (valid = true -> uid = [] -> email = [] ->
   r = (Ok (json_error (u "uid_or_email_required") 400), st)) /\
  (valid = true -> uid <> [] \/ email <> [] ->
   exists ok, fst r = Ok (JsonResponse [(u "ok", PBool ok)] 200) /\
              (ok = false -> snd r = st)).
Proof.
  intros Hm Hb Hj Hu He Hp Ht. cbv zeta.
  rewrite (finalize_checkout_reads _ st _ _ _ _ _ _ Hm Hb Hj Hu He Hp Ht).
  cbv zeta. split; [|split].
  - intros ->. reflexivity.
  - intros -> -> ->. reflexivity.
  - intros -> Hid. cbn [negb].
    destruct (match uid with [] => email | _ => uid end) as [|i0 i1] eqn:Hi.
    { destruct uid; [|discriminate Hi]. destruct Hid; congruence. }
    eexists. split; [reflexivity|]. cbn [snd].
    intros Hf.
    destruct (fs_set_user_false_or_true st (i0 :: i1) (title p)
                (Some (assoc_get PLAN_CREDITS (title p) 0))
                (match uid with [] => false | _ => true end)
                (match ptxn with [] => None | _ => Some ptxn end))
      as [[_ K] | [K _]]; [exact K | congruence].
Qed.

Lemma finalize_checkout_outcomes_witness :
  let request :=
    {| method := POST; body := Some (j "{'uid': ' u1 ', 'plan': 'gold'}") |} in
  let r := finalize_checkout request (Some []) in
  let valid := str_in (title (u "gold")) (map fst PLAN_CREDITS) in
  (valid = false -> r = (Ok (json_error (u "invalid_plan") 400), Some [])) /\
  (valid = true -> u "u1" = [] -> @nil N = [] ->
   r = (Ok (json_error (u "uid_or_email_required") 400), Some [])) /\
  (valid = true -> u "u1" <> [] \/ @nil N <> [] ->
   exists ok, fst r = Ok (JsonResponse [(u "ok", PBool ok)] 200) /\
              (ok = false -> snd r = Some [])).
Proof.
  cbv zeta.
  refine (finalize_checkout_outcomes
            {| method := POST; body := Some (j "{'uid': ' u1 ', 'plan': 'gold'}") |}
            (Some []) (j "{'uid': ' u1 ', 'plan': 'gold'}")
            (PDict [(u "uid", PStr (u " u1 ")); (u "plan", PStr (u "gold"))])
            (u "u1") [] (u "gold") [] _ _ _ _ _ _ _);
    vm_compute; reflexivity.
Defined.

(** With the pack of the plan as the explicit amount, the grant is the
    pack. *)
Lemma grant_case_amount doc plan t amt :
  grant_case doc (Some (assoc_get PLAN_CREDITS plan 0)) plan t amt ->
  amt = assoc_get PLAN_CREDITS plan 0.
Proof. intros G. inversion G; subst; reflexivity. Qed.

(** X17.  A checkout that qualifies for a grant gets the pack of its plan:
    for a JSON body naming a plan that is Basic, Pro or Premium in title
    case and a uid or an e-mail that locates a record in a grant situation,
    [finalize_checkout] answers [{ok: true}] with status 200 and the record
    holds exactly the credits of the plan, its plan name, and the
    subscription flag. *)
Theorem finalize_checkout_grants_pack
    (request : HttpRequest) (db : Store) (text : str) (json : PyVal)
    (uid email p ptxn ref : str) (amt : Z) :
  method request = POST ->
  body request = Some text ->
  json_loads text = Ok json ->
  stripped_field json (u "uid") = Ok uid ->
  stripped_field json (u "email") = Ok email ->
  stripped_field json (u "plan") = Ok p ->
  stripped_field json (u "transaction_id") = Ok ptxn ->
  str_in (title p) (map fst PLAN_CREDITS) = true ->
  let ident := match uid with [] => email | _ => uid end in
  let by_uid := match uid with [] => false | _ => true end in
  let txn := match ptxn with [] => None | _ => Some ptxn end in
  ident <> [] ->
  locate db ident by_uid = Some ref ->
  grant_case (doc_of db ref) (Some (assoc_get PLAN_CREDITS (title p) 0))
    (title p) txn amt ->
  exists db1,
    finalize_checkout request (Some db)
    = (Ok (JsonResponse [(u "ok", PBool true)] 200), Some db1) /\
    amt = assoc_get PLAN_CREDITS (title p) 0 /\
    credits_at (Some db1) ref = Some (PInt amt) /\
    field_at (Some db1) ref (u "subscriptionPlan") = Some (PStr (title p)) /\
    field_at (Some db1) ref (u "subscriptionSelected") = Some (PBool true).
Proof.
  intros Hm Hb Hj Hu He Hp Ht Hv ident by_uid txn Hid Hloc G.
  rewrite (finalize_checkout_reads _ (Some db) _ _ _ _ _ _ Hm Hb Hj Hu He Hp Ht).
  cbv zeta. rewrite Hv. cbn [negb].
  fold ident by_uid txn.
  destruct ident as [|i0 i1] eqn:Hi; [congruence|].
  destruct (fs_set_user_grant_overwrites_aux db (i0 :: i1) (title p) ref
              (Some (assoc_get PLAN_CREDITS (title p) 0)) by_uid txn amt
              Hloc G) as (db1 & H1 & C1).
  destruct (fs_set_user_sets_fields db db1 (i0 :: i1) (title p) ref
              (Some (assoc_get PLAN_CREDITS (title p) 0)) by_uid txn Hloc H1)
    as (S1 & S2 & _).
  exists db1. rewrite H1. cbn [fst snd].
  split; [reflexivity|]. split.
  - eapply grant_case_amount. exact G.
  - split; [exact C1|]. split; [exact S2 | exact S1].
Qed.

Lemma finalize_checkout_grants_pack_witness :
  let db := [(u "u1", [(u "email", PStr (u "a@b.co")); (u "credits", PInt 3)])] in
  exists db1,
    finalize_checkout
      {| method := POST;
         body := Some (j "{'email': 'a@b.co', 'plan': 'premium', 'transaction_id': 'txn_9'}") |}
      (Some db)
    = (Ok (JsonResponse [(u "ok", PBool true)] 200), Some db1) /\
    1000 = assoc_get PLAN_CREDITS (title (u "premium")) 0 /\
    credits_at (Some db1) (u "u1") = Some (PInt 1000) /\
    field_at (Some db1) (u "u1") (u "subscriptionPlan")
    = Some (PStr (title (u "premium"))) /\
    field_at (Some db1) (u "u1") (u "subscriptionSelected") = Some (PBool true).
Proof.
  cbv zeta.
  refine (finalize_checkout_grants_pack
            {| method := POST;
               body := Some (j "{'email': 'a@b.co', 'plan': 'premium', 'transaction_id': 'txn_9'}") |}
            [(u "u1", [(u "email", PStr (u "a@b.co")); (u "credits", PInt 3)])]
            (j "{'email': 'a@b.co', 'plan': 'premium', 'transaction_id': 'txn_9'}")
            (PDict [(u "email", PStr (u "a@b.co")); (u "plan", PStr (u "premium"));
                    (u "transaction_id", PStr (u "txn_9"))])
            [] (u "a@b.co") (u "premium") (u "txn_9") (u "u1") 1000
            _ _ _ _ _ _ _ _ _ _ _);
    try (vm_compute; reflexivity); try discriminate.
  apply (GrantPaidTxn _ (Some 1000) (u "Premium") 1000 116%N (u "xn_9"));
    vm_compute; reflexivity.
Defined.

(** X18.  [select_basic] is the Basic ledger update under the identity of
    the request: for a JSON body with a uid, and with the store available,
    it answers [{ok: true}], the record's plan becomes Basic and the free
    flag is set; the record receives the 50 free credits if the flag was not
    set before, and otherwise no [credits] field changes. *)
Theorem select_basic_downgrades
    (request : HttpRequest) (db : Store) (text : str) (json : PyVal)
    (uid email : str) :
  method request = POST ->
  body request = Some text ->
  json_loads text = Ok json ->
  stripped_field json (u "uid") = Ok uid ->
  stripped_field json (u "email") = Ok email ->
  uid <> [] ->
  exists db1,
    select_basic request (Some db)
    = (Ok (JsonResponse [(u "ok", PBool true)] 200), Some db1) /\
    field_at (Some db1) uid (u "subscriptionPlan") = Some (PStr (u "Basic")) /\
    truthy (dict_get (doc_of db1 uid) (u "freeBasicGranted")) = true /\
    (if truthy (dict_get (doc_of db uid) (u "freeBasicGranted"))
     then forall id, credits_at (Some db1) id = credits_at (Some db) id
     else credits_at (Some db1) uid = Some (PInt 50)).
Proof.
  intros Hm Hb Hj Hu He Hne.
  unfold select_basic, require_POST, decode_body. rewrite Hm, Hb.
  replace (str_eqb POST POST) with true by (vm_compute; reflexivity).
  cbn [ebind]. rewrite Hj. unfold sbind, lift. rewrite Hu, He.
  destruct uid as [|u0 u1]; [congruence|].
  unfold run_call. rewrite call_fs_set_user_keywords.
  destruct (truthy (dict_get (doc_of db (u0 :: u1)) (u "freeBasicGranted")))
    eqn:Hflag.
  - pose proof (basic_no_regrant db (u0 :: u1) true None None (u0 :: u1)
                  eq_refl Hflag) as K.
    unfold _fs_set_user, fs_set_user_try, locate, staged_updates in K |- *.
    rewrite str_eqb_refl, Hflag in K |- *. cbn [negb ebind snd] in K |- *.
    eexists. split; [reflexivity|]. split; [|split].
    + unfold field_at. rewrite doc_of_set_same, doc_merge_find. reflexivity.
    + unfold dict_get. rewrite doc_of_set_same, doc_merge_find. exact Hflag.
    + exact K.
  - destruct (fs_set_user_grant_overwrites_aux db (u0 :: u1) (u "Basic")
                (u0 :: u1) None true None 50 eq_refl
                (GrantBasic _ None None Hflag)) as (db1 & H1 & C1).
    rewrite H1. exists db1. split; [reflexivity|].
    destruct (fs_set_user_sets_fields db db1 (u0 :: u1) (u "Basic") (u0 :: u1)
                None true None eq_refl H1) as (_ & S2 & _).
    destruct (basic_sets_flag _ _ _ _ _ _ H1) as (ref & Hloc & Hf).
    injection Hloc as <-.
    split; [exact S2|]. split; [exact Hf | exact C1].
Qed.

Lemma select_basic_downgrades_witness :
  let db := [(u "u1", [(u "subscriptionPlan", PStr (u "Pro"));
                       (u "credits", PInt 120);
                       (u "freeBasicGranted", PBool true)])] in
  exists db1,
    select_basic {| method := POST; body := Some (j "{'uid': 'u1'}") |} (Some db)
    = (Ok (JsonResponse [(u "ok", PBool true)] 200), Some db1) /\
    field_at (Some db1) (u "u1") (u "subscriptionPlan") = Some (PStr (u "Basic")) /\
    truthy (dict_get (doc_of db1 (u "u1")) (u "freeBasicGranted")) = true /\
    (if truthy (dict_get (doc_of db (u "u1")) (u "freeBasicGranted"))
     then forall id, credits_at (Some db1) id = credits_at (Some db) id
     else credits_at (Some db1) (u "u1") = Some (PInt 50)).
Proof.
  cbv zeta.
  refine (select_basic_downgrades
            {| method := POST; body := Some (j "{'uid': 'u1'}") |} _
            (j "{'uid': 'u1'}") (PDict [(u "uid", PStr (u "u1"))])
            (u "u1") [] _ _ _ _ _ _);
    try (vm_compute; reflexivity); discriminate.
Defined.

(** What [refresh_credits] stages under the namespace of the module: the
    subscription flag at most. *)
Lemma refresh_updates_heals_only lib now doc updates :
  refresh_updates views_namespace lib now doc = Ok updates ->
  updates = [] \/ updates = [(u "subscriptionSelected", PBool true)].
Proof.
  unfold refresh_updates.
  destruct (py_title (py_or (dict_get doc (u "subscriptionPlan")) (PStr [])))
    as [plan|]; cbn [ebind]; [|discriminate].
  destruct (py_int lib (py_or (dict_get doc (u "credits")) (PInt 0)))
    as [credits|]; cbn [ebind]; [|discriminate].
  destruct (str_in plan PAID_PLANS && (credits <=? 0)).
  - unfold load_global.
    replace (views_namespace "datetime") with false by reflexivity.
    discriminate.
  - destruct (str_in plan PAID_PLANS
              && negb (truthy (dict_get doc (u "subscriptionSelected"))));
      intros H; injection H as <-; auto.
Qed.

(** X19.  As the module stands, [refresh_credits] never refills and never
    stamps: whatever the request, the clock and the store, every [credits]
    field and every [creditDepletedAt] field is the same after the view as
    before.  The only field it can write is [subscriptionSelected]. *)
Theorem refresh_credits_never_refills
    (lib : Library) (now : Z) (request : HttpRequest) (st : option Store)
    (id : str) :
  let st' := snd (refresh_credits views_namespace lib now request st) in
  credits_at st' id = credits_at st id /\
  field_at st' id (u "creditDepletedAt") = field_at st id (u "creditDepletedAt").
Proof.
  cbv zeta. unfold refresh_credits, require_POST.
  destruct (str_eqb (method request) POST); [|split; reflexivity].
  destruct (text <- decode_body request ;; json_loads text) as [json|e];
    [|split; reflexivity].
  unfold sbind, lift.
  destruct (stripped_field json (u "uid")) as [uid|]; [|split; reflexivity].
  destruct (stripped_field json (u "email")) as [email|]; [|split; reflexivity].
  assert (R : credits_at (snd (refresh_user views_namespace lib now uid email st)) id
              = credits_at st id /\
              field_at (snd (refresh_user views_namespace lib now uid email st)) id
                (u "creditDepletedAt")
              = field_at st id (u "creditDepletedAt")).
  { unfold refresh_user. destruct st as [db|]; [|split; reflexivity].
    destruct (match uid with [] => query_email db email | _ => Some uid end)
      as [ref|]; [|split; reflexivity].
    destruct (refresh_updates views_namespace lib now (doc_of db ref))
      as [updates|e] eqn:Hup; [|split; reflexivity].
    destruct (refresh_updates_heals_only _ _ _ _ Hup) as [-> | ->];
      [split; reflexivity|].
    cbn [snd]. unfold credits_at, field_at.
    split; apply field_kept_by_set; reflexivity. }
  destruct uid as [|u0 u1]; [destruct email as [|e0 e1]|];
    [split; reflexivity | exact R | exact R].
Qed.

(** X20.  For a user who is not out of credits on a paid plan (the plan is
    not paid, or the balance is positive) [refresh_credits] reads no clock
    and refills nothing.  It answers [updated: true] exactly when the plan
    is paid and [subscriptionSelected] was not set, in which case it sets
    that flag; every other field of every record stays as it was. *)
Theorem refresh_credits_heals_flag
    (ns : string -> bool) (lib : Library) (now : Z) (uid email : str)
    (db : Store) (plan : str) (credits : Z) :
  uid <> [] ->
  py_title (py_or (dict_get (doc_of db uid) (u "subscriptionPlan")) (PStr []))
  = Ok plan ->
  py_int lib (py_or (dict_get (doc_of db uid) (u "credits")) (PInt 0))
  = Ok credits ->
  str_in plan PAID_PLANS = false \/ 0 < credits ->
  let heal :=
    str_in plan PAID_PLANS
    && negb (truthy (dict_get (doc_of db uid) (u "subscriptionSelected"))) in
  exists db1,
    refresh_user ns lib now uid email (Some db)
    = (Ok (updated_response heal), Some db1) /\
    (heal = false -> db1 = db) /\
    (heal = true ->
     field_at (Some db1) uid (u "subscriptionSelected") = Some (PBool true)) /\
    (forall id k, k <> u "subscriptionSelected" ->
                  field_at (Some db1) id k = field_at (Some db) id k).
Proof.
  intros Hne Hp Hc Hcase. cbv zeta.
  unfold refresh_user. destruct uid as [|u0 u1]; [congruence|].
  unfold refresh_updates. rewrite Hp, Hc. cbn [ebind].
  assert (E : str_in plan PAID_PLANS && (credits <=? 0) = false).
  { destruct Hcase as [-> | Hpos]; [reflexivity|].
    apply andb_false_iff. right. apply Z.leb_gt. exact Hpos. }
  rewrite E.
  destruct (str_in plan PAID_PLANS
            && negb (truthy (dict_get (doc_of db (u0 :: u1))
                               (u "subscriptionSelected")))).
  - cbn [dict_set]. eexists. split; [reflexivity|].
    split; [discriminate|]. split.
    + intros _. unfold field_at. rewrite doc_of_set_same, doc_merge_find.
      reflexivity.
    + intros id k Hk. unfold field_at. apply field_kept_by_set.
      cbn [dict_find]. rewrite (str_eqb_neq _ _ Hk). reflexivity.
  - eexists. split; [reflexivity|]. split; [reflexivity|].
    split; [discriminate | reflexivity].
Qed.

Lemma refresh_credits_heals_flag_witness :
  let db := [(u "u1", [(u "subscriptionPlan", PStr (u "pro"));
                       (u "credits", PInt 5)])] in
  exists db1,
    refresh_user views_namespace no_library 0 (u "u1") [] (Some db)
    = (Ok (updated_response true), Some db1) /\
    (true = false -> db1 = db) /\
    (true = true ->
     field_at (Some db1) (u "u1") (u "subscriptionSelected") = Some (PBool true)) /\
    (forall id k, k <> u "subscriptionSelected" ->
                  field_at (Some db1) id k = field_at (Some db) id k).
Proof.
  cbv zeta.
  refine (refresh_credits_heals_flag views_namespace no_library 0 (u "u1") []
            [(u "u1", [(u "subscriptionPlan", PStr (u "pro"));
                       (u "credits", PInt 5)])]
            (u "Pro") 5 _ _ _ _).
  - discriminate.
  - reflexivity.
  - reflexivity.
  - right. reflexivity.
Defined.

(** ** The completion endpoint: attempts, retries and errors *)

Section AttemptFacts.
Variable cfg : Config.
Variable lib : Library.
Variable upstream : nat -> PostOutcome.
Variable latency_ms : nat -> Z.

Lemma sleeps_of_app tr tr' : sleeps_of (tr ++ tr') = sleeps_of tr ++ sleeps_of tr'.
Proof. unfold sleeps_of. apply flat_map_app. Qed.

Lemma multipliers_shift (attempt : Z) (k : nat) :
  (1 <= k)%nat ->
  (attempt + 1)
    :: map (fun i => attempt + 1 + Z.of_nat i) (seq 1 (k - 1))
  = map (fun i => attempt + Z.of_nat i) (seq 1 (S k - 1)).
Proof.
  intros Hk. replace (S k - 1)%nat with (S (k - 1)) by lia.
  cbn [seq map]. f_equal.
  rewrite <- (seq_shift (k - 1) 1), map_map. apply map_ext. intros i. lia.
Qed.

Ltac loop_branches :=
  repeat match goal with
  | |- context [match ?x with inl _ => _ | inr _ => _ end] => destruct x
  | |- context [match content_of ?d with Ok _ => _ | Raise _ => _ end] =>
      destruct (content_of d)
  | |- context [if ?b then _ else _] => destruct b
  end.

(** The attempts of one call: how many are made, what [tries] ends as, and
    which sleeps separate them. *)
Lemma attempts_count model messages n :
  forall attempt st w,
    attempt + Z.of_nat n = MAX_RETRIES cfg + 1 ->
    let r := attempts cfg lib upstream model messages n attempt st w in
    exists k : nat,
      (n <> 0 -> 1 <= k)%nat /\ (k <= n)%nat /\
      posts (snd r) = (posts w + k)%nat /\
      (k <> 0%nat -> l_tries (fst r) = attempt + Z.of_nat k) /\
      sleeps_of (trace (snd r))
      = sleeps_of (trace w)
        ++ map (fun i => attempt + Z.of_nat i) (seq 1 (k - 1)).
Proof.
  induction n as [|n IH]; intros attempt st w Hn; cbv zeta.
  { exists 0%nat. cbn. rewrite app_nil_r.
    repeat split; try lia; congruence. }
  assert (Retry : forall st1 w1,
    (attempt <? MAX_RETRIES cfg) = true ->
    posts w1 = S (posts w) ->
    sleeps_of (trace w1) = sleeps_of (trace w) ++ [attempt + 1] ->
    let r := attempts cfg lib upstream model messages n (attempt + 1) st1 w1 in
    exists k : nat,
      (S n <> 0 -> 1 <= k)%nat /\ (k <= S n)%nat /\
      posts (snd r) = (posts w + k)%nat /\
      (k <> 0%nat -> l_tries (fst r) = attempt + Z.of_nat k) /\
      sleeps_of (trace (snd r))
      = sleeps_of (trace w)
        ++ map (fun i => attempt + Z.of_nat i) (seq 1 (k - 1))).
  { intros st1 w1 Hlt Hp Hs. cbv zeta. apply Z.ltb_lt in Hlt.
    destruct (IH (attempt + 1) st1 w1 ltac:(lia)) as (k & K1 & K2 & K3 & K4 & K5).
    assert (1 <= k)%nat by (apply K1; lia).
    exists (S k). repeat split; try lia.
    rewrite K5, Hs, <- app_assoc. cbn [app]. f_equal.
    apply multipliers_shift. assumption. }
  assert (Last : forall st1 w1,
    (attempt <? MAX_RETRIES cfg) = false ->
    posts w1 = S (posts w) ->
    sleeps_of (trace w1) = sleeps_of (trace w) ->
    l_tries st1 = attempt + 1 ->
    let r := attempts cfg lib upstream model messages n (attempt + 1) st1 w1 in
    exists k : nat,
      (S n <> 0 -> 1 <= k)%nat /\ (k <= S n)%nat /\
      posts (snd r) = (posts w + k)%nat /\
      (k <> 0%nat -> l_tries (fst r) = attempt + Z.of_nat k) /\
      sleeps_of (trace (snd r))
      = sleeps_of (trace w)
        ++ map (fun i => attempt + Z.of_nat i) (seq 1 (k - 1))).
  { intros st1 w1 Hlt Hp Hs Ht. cbv zeta. apply Z.ltb_ge in Hlt.
    destruct n as [|n']; [|lia]. cbn [attempts fst snd].
    exists 1%nat. cbn [seq map Nat.sub]. rewrite app_nil_r.
    repeat split; try lia; assumption. }
  assert (Stop : forall st1 w1,
    posts w1 = S (posts w) ->
    sleeps_of (trace w1) = sleeps_of (trace w) ->
    l_tries st1 = attempt + 1 ->
    exists k : nat,
      (S n <> 0 -> 1 <= k)%nat /\ (k <= S n)%nat /\
      posts (snd (st1, w1)) = (posts w + k)%nat /\
      (k <> 0%nat -> l_tries (fst (st1, w1)) = attempt + Z.of_nat k) /\
      sleeps_of (trace (snd (st1, w1)))
      = sleeps_of (trace w)
        ++ map (fun i => attempt + Z.of_nat i) (seq 1 (k - 1))).
  { intros st1 w1 Hp Hs Ht. exists 1%nat. cbn [seq map Nat.sub fst snd].
    rewrite app_nil_r. repeat split; try lia; assumption. }
  cbn [attempts].
  destruct (attempt <? MAX_RETRIES cfg) eqn:Hlt;
    destruct (upstream (posts w)) as [code js text| |msg|msg];
    rewrite ?andb_true_r, ?andb_false_r;
    loop_branches;
    first
      [ apply Retry;
        [ reflexivity | reflexivity
        | cbn [trace log]; rewrite !sleeps_of_app; cbn; rewrite app_nil_r;
          reflexivity ]
      | apply Last;
        [ reflexivity | reflexivity
        | cbn [trace log]; rewrite !sleeps_of_app; cbn; rewrite app_nil_r;
          reflexivity
        | reflexivity ]
      | apply Stop;
        [ reflexivity
        | cbn [trace log]; rewrite !sleeps_of_app; cbn; rewrite app_nil_r;
          reflexivity
        | reflexivity ] ].
Qed.

Ltac loop_branches_content :=
  repeat match goal with
  | |- context [match ?x with inl _ => _ | inr _ => _ end] => destruct x
  | |- context [match content_of ?d with Ok _ => _ | Raise _ => _ end] =>
      destruct (content_of d)
  | |- context [if negb (truthy ?c) then _ else _] =>
      let E := fresh "Hcontent" in destruct (truthy c) eqn:E; cbn [negb]
  | |- context [if ?b then _ else _] => destruct b
  end.

(** The loop ends with content and no error, or without content and with
    an error. *)
Lemma attempts_xor model messages n :
  forall attempt st w,
    attempt + Z.of_nat n = MAX_RETRIES cfg + 1 ->
    truthy (l_content st) = false ->
    l_error st = PNone ->
    let r := attempts cfg lib upstream model messages n attempt st w in
    (truthy (l_content (fst r)) = true -> l_error (fst r) = PNone) /\
    (n <> 0%nat -> truthy (l_content (fst r)) = false ->
     is_error (l_error (fst r))).
Proof.
  induction n as [|n IH]; intros attempt st w Hn Hc He; cbv zeta.
  { cbn. split; [congruence | intros H; congruence]. }
  assert (Retry : forall st1 w1,
    (attempt <? MAX_RETRIES cfg) = true ->
    l_content st1 = l_content st -> l_error st1 = l_error st ->
    let r := attempts cfg lib upstream model messages n (attempt + 1) st1 w1 in
    (truthy (l_content (fst r)) = true -> l_error (fst r) = PNone) /\
    (S n <> 0%nat -> truthy (l_content (fst r)) = false ->
     is_error (l_error (fst r)))).
  { intros st1 w1 Hlt E1 E2. cbv zeta. apply Z.ltb_lt in Hlt.
    destruct (IH (attempt + 1) st1 w1 ltac:(lia) ltac:(congruence)
                ltac:(congruence)) as [I1 I2].
    split; [exact I1|]. intros _. apply I2. lia. }
  assert (Last : forall st1 w1,
    (attempt <? MAX_RETRIES cfg) = false ->
    l_content st1 = l_content st -> is_error (l_error st1) ->
    let r := attempts cfg lib upstream model messages n (attempt + 1) st1 w1 in
    (truthy (l_content (fst r)) = true -> l_error (fst r) = PNone) /\
    (S n <> 0%nat -> truthy (l_content (fst r)) = false ->
     is_error (l_error (fst r)))).
  { intros st1 w1 Hlt E1 E2. cbv zeta. apply Z.ltb_ge in Hlt.
    destruct n as [|n']; [|lia]. cbn [attempts fst].
    split; [rewrite E1; congruence | intros _ _; exact E2]. }
  assert (Err : forall code message extra,
             is_error (error_dict code message extra))
    by (intros; eexists _, _, _; reflexivity).
  cbn [attempts].
  destruct (attempt <? MAX_RETRIES cfg) eqn:Hlt;
    destruct (upstream (posts w)) as [code js text| |msg|msg];
    rewrite ?andb_true_r, ?andb_false_r;
    loop_branches_content;
    first
      [ apply Retry; reflexivity
      | apply Last; [reflexivity | reflexivity | apply Err]
      | cbn [fst l_content l_error]; split;
        [ intros H; congruence
        | intros _ H; first [apply Err | congruence] ] ].
Qed.

(** X21.  [call_openrouter] returns content or an error, never both and
    (with a retry count that is not negative) never neither: when the
    content is truthy the error is [None], and when it is not the error is a
    dict that carries a code and a message. *)
Theorem call_openrouter_content_xor_error
    (messages : Messages) (model : str) (w : World) :
  0 <= MAX_RETRIES cfg ->
  let r := fst (call_openrouter cfg lib upstream latency_ms messages model w) in
  (truthy (fst (fst r)) = true -> snd r = PNone) /\
  (truthy (fst (fst r)) = false -> is_error (snd r)).
Proof.
  intros HM. cbv zeta. unfold call_openrouter.
  destruct (OPENROUTER_API_KEY cfg) as [|c key].
  - cbn [fst snd]. split; [discriminate|].
    intros _. eexists _, _, _. reflexivity.
  - match goal with
    | |- context [attempts ?a ?b ?c ?d ?e ?f ?g ?h ?i] =>
        pose proof (attempts_xor d e f g h i) as X;
        destruct (attempts a b c d e f g h i) as [st w']
    end.
    cbn [fst snd] in *.
    destruct X as [X1 X2]; [rewrite Z2Nat.id; lia | reflexivity | reflexivity |].
    split; [exact X1|]. apply X2.
    intros E. apply (f_equal Z.of_nat) in E. rewrite Z2Nat.id in E; lia.
Qed.

(** X22.  With an API key and a retry count that is not negative, one call
    makes between one and [MAX_RETRIES + 1] POSTs; the [tries] it reports is
    the number of POSTs it made; and it sleeps exactly once between two
    consecutive attempts, with the multipliers 1, 2, ... in order. *)
Theorem call_openrouter_tries
    (messages : Messages) (model : str) (w : World) :
  OPENROUTER_API_KEY cfg <> [] ->
  0 <= MAX_RETRIES cfg ->
  let r := call_openrouter cfg lib upstream latency_ms messages model w in
  exists k : nat,
    (1 <= k)%nat /\ Z.of_nat k <= MAX_RETRIES cfg + 1 /\
    posts (snd r) = (posts w + k)%nat /\
    dict_find (snd (fst (fst r))) (u "tries") = Some (PInt (Z.of_nat k)) /\
    sleeps_of (trace (snd r))
    = sleeps_of (trace w) ++ map Z.of_nat (seq 1 (k - 1)).
Proof.
  intros Hkey HM. cbv zeta. unfold call_openrouter.
  destruct (OPENROUTER_API_KEY cfg) as [|c key]; [congruence|].
  match goal with
  | |- context [attempts ?a ?b ?c ?d ?e ?f ?g ?h ?i] =>
      pose proof (attempts_count d e f g h i) as X;
      destruct (attempts a b c d e f g h i) as [st w']
  end.
  cbn [fst snd] in *.
  destruct X as (k & K1 & K2 & K3 & K4 & K5); [rewrite Z2Nat.id; lia|].
  assert (Hk : (1 <= k)%nat).
  { apply K1. intros E. apply (f_equal Z.of_nat) in E.
    rewrite Z2Nat.id in E; lia. }
  exists k. split; [exact Hk|]. split; [lia|]. split; [exact K3|]. split.
  - unfold meta_dict. cbn. rewrite K4 by lia. reflexivity.
  - rewrite K5. cbn [trace log]. rewrite sleeps_of_app. cbn.
    rewrite app_nil_r. f_equal.
Qed.

End AttemptFacts.

Lemma call_openrouter_content_xor_error_witness :
  let r := fst (call_openrouter sample_config no_library always_timeout
                  (fun _ => 0) [user_msg (u "topic")] (u "m") world0) in
  (truthy (fst (fst r)) = true -> snd r = PNone) /\
  (truthy (fst (fst r)) = false -> is_error (snd r)).
Proof.
  cbv zeta.
  apply (call_openrouter_content_xor_error sample_config no_library
           always_timeout (fun _ => 0)).
  vm_compute. discriminate.
Defined.

Lemma call_openrouter_tries_witness :
  let r := call_openrouter sample_config no_library always_timeout
             (fun _ => 0) [user_msg (u "topic")] (u "m") world0 in
  exists k : nat,
    (1 <= k)%nat /\ Z.of_nat k <= MAX_RETRIES sample_config + 1 /\
    posts (snd r) = (posts world0 + k)%nat /\
    dict_find (snd (fst (fst r))) (u "tries") = Some (PInt (Z.of_nat k)) /\
    sleeps_of (trace (snd r))
    = sleeps_of (trace world0) ++ map Z.of_nat (seq 1 (k - 1)).
Proof.
  cbv zeta.
  apply (call_openrouter_tries sample_config no_library always_timeout
           (fun _ => 0)).
  - discriminate.
  - vm_compute. discriminate.
Defined.

Section FirstAttempt.
Variable cfg : Config.
Variable lib : Library.
Variable upstream : nat -> PostOutcome.
Variable latency_ms : nat -> Z.

(** X23.  A status of 400 or more that is not one of the eight retry
    statuses ends the call at once: one POST, no sleep, no content, and the
    error [UPSTREAM_ERROR] with the status in its message; the upstream body
    is shown only in debug mode. *)
Theorem call_openrouter_no_retry
    (messages : Messages) (model : str) (w : World)
    (status : Z) (js : PyVal + str) (text : str) (c0 : N) (key : str) :
  OPENROUTER_API_KEY cfg = c0 :: key ->
  0 <= MAX_RETRIES cfg ->
  upstream (posts w) = Responded status js text ->
  400 <= status ->
  existsb (Z.eqb status) RETRY_STATUS = false ->
  let r := call_openrouter cfg lib upstream latency_ms messages model w in
  fst r
  = (PNone,
     meta_dict status 1 (latency_ms (S (calls w))) model,
     error_dict (u "UPSTREAM_ERROR") (str_of_Z status ++ u " from OpenRouter")
       [(u "upstream",
         if DEBUG_MODE cfg
         then match js with
              | inl v => v
              | inr _ => PDict [(u "raw", PStr (firstn 1000 text))]
              end
         else hint)]) /\
  posts (snd r) = S (posts w) /\
  sleeps_of (trace (snd r)) = sleeps_of (trace w).
Proof.
  intros Hkey HM Hup Hs Hr. cbv zeta. unfold call_openrouter. rewrite Hkey.
  destruct (Z.to_nat (MAX_RETRIES cfg + 1)) as [|n] eqn:En; [lia|].
  cbn [attempts posts calls trace log]. rewrite Hup.
  replace (400 <=? status) with true by (symmetry; apply Z.leb_le; exact Hs).
  rewrite Hr. cbn [andb fst snd l_content l_tries l_last_status l_error].
  replace (status =? 0) with false by (symmetry; apply Z.eqb_neq; lia).
  split; [reflexivity|]. split; [reflexivity|].
  cbn [trace log]. rewrite !sleeps_of_app. cbn. rewrite !app_nil_r.
  reflexivity.
Qed.

(** X24.  When the first POST on the primary model answers below 400 with
    a body whose first choice has truthy content, that content is the
    result: one POST, [tries] 1, no error, and the fallback model is not
    called. *)
Theorem generate_with_fallback_first_success
    (messages : Messages) (w : World)
    (status : Z) (data content : PyVal) (text : str) (c0 : N) (key : str) :
  OPENROUTER_API_KEY cfg = c0 :: key ->
  0 <= MAX_RETRIES cfg ->
  upstream (posts w) = Responded status (inl data) text ->
  status < 400 ->
  content_of data = Ok content ->
  truthy content = true ->
  let r := generate_with_fallback cfg lib upstream latency_ms messages w in
  fst r
  = (content,
     meta_dict status 1 (latency_ms (S (calls w)))
       (OPENROUTER_MODEL_PRIMARY cfg),
     PNone) /\
  posts (snd r) = S (posts w) /\
  calls_of (trace (snd r))
  = calls_of (trace w) ++ [(OPENROUTER_MODEL_PRIMARY cfg, messages)].
Proof.
  intros Hkey HM Hup Hs Hc Ht. cbv zeta.
  unfold generate_with_fallback, call_openrouter. rewrite Hkey.
  destruct (Z.to_nat (MAX_RETRIES cfg + 1)) as [|n] eqn:En; [lia|].
  cbn [attempts posts calls trace log]. rewrite Hup.
  replace (400 <=? status) with false by (symmetry; apply Z.leb_gt; exact Hs).
  rewrite Hc, Ht. cbn [negb fst snd l_content l_tries l_last_status l_error].
  rewrite Ht. cbn [fst snd posts trace].
  replace (if status =? 0 then 0 else status) with status
    by (destruct (status =? 0) eqn:E; [apply Z.eqb_eq in E; lia | reflexivity]).
  split; [reflexivity|]. split; [reflexivity|].
  cbn [trace log]. rewrite calls_of_log_post, calls_of_log_call. reflexivity.
Qed.

End FirstAttempt.

Lemma call_openrouter_no_retry_witness :
  let upstream := fun _ : nat => Responded 401 (inr (u "no json")) (u "Unauthorized") in
  let r := call_openrouter sample_config no_library upstream (fun _ => 0)
             [user_msg (u "topic")] (u "m") world0 in
  fst r
  = (PNone,
     meta_dict 401 1 0 (u "m"),
     error_dict (u "UPSTREAM_ERROR") (str_of_Z 401 ++ u " from OpenRouter")
       [(u "upstream", hint)]) /\
  posts (snd r) = 1%nat /\
  sleeps_of (trace (snd r)) = sleeps_of (trace world0).
Proof.
  cbv zeta.
  refine (call_openrouter_no_retry sample_config no_library
            (fun _ => Responded 401 (inr (u "no json")) (u "Unauthorized"))
            (fun _ => 0) [user_msg (u "topic")] (u "m") world0
            401 (inr (u "no json")) (u "Unauthorized") _ _ _ _ _ _ _);
    try reflexivity; vm_compute; discriminate.
Defined.

Lemma generate_with_fallback_first_success_witness :
  let data :=
    PDict [(u "choices",
            PList [PDict [(u "message",
                           PDict [(u "content", PStr (u "Hook: hi"))])]])] in
  let upstream := fun _ : nat => Responded 200 (inl data) [] in
  let r := generate_with_fallback sample_config no_library upstream (fun _ => 0)
             [user_msg (u "topic")] world0 in
  fst r
  = (PStr (u "Hook: hi"),
     meta_dict 200 1 0 (OPENROUTER_MODEL_PRIMARY sample_config), PNone) /\
  posts (snd r) = 1%nat /\
  calls_of (trace (snd r))
  = [(OPENROUTER_MODEL_PRIMARY sample_config, [user_msg (u "topic")])].
Proof.
  cbv zeta.
  refine (generate_with_fallback_first_success sample_config no_library
            (fun _ => Responded 200 (inl _) []) (fun _ => 0)
            [user_msg (u "topic")] world0 200 _ (PStr (u "Hook: hi")) []
            _ _ _ _ _ _ _ _);
    try reflexivity; vm_compute; discriminate.
Defined.

(** ** [generate_review]: what a request can cost *)

Section ReviewCost.
Variable cfg : Config.
Variable lib : Library.
Variable upstream : nat -> PostOutcome.
Variable latency_ms : nat -> Z.

Local Abbreviation generate1 := (generate cfg lib upstream latency_ms).
Local Abbreviation reforged1 := (reforged cfg lib upstream latency_ms).
Local Abbreviation hook_stage1 := (hook_stage cfg lib upstream latency_ms).
Local Abbreviation body_stage1 := (body_stage cfg lib upstream latency_ms).
Local Abbreviation cta_stage1 := (cta_stage cfg lib upstream latency_ms).
Local Abbreviation premium_stepwise1 :=
  (premium_stepwise cfg lib upstream latency_ms).
Local Abbreviation one_shot1 := (one_shot cfg lib upstream latency_ms).
Local Abbreviation generate_review1 :=
  (generate_review cfg lib upstream latency_ms).

Lemma spent_refl w : spent cfg 0 w w.
Proof. unfold spent. lia. Qed.

Lemma spent_trans a b w w1 w2 :
  spent cfg a w w1 -> spent cfg b w1 w2 -> spent cfg (a + b) w w2.
Proof. unfold spent. nia. Qed.

Lemma spent_more a b w w' : (a <= b)%nat -> spent cfg a w w' -> spent cfg b w w'.
Proof. unfold spent. nia. Qed.

Lemma attempts_spent model messages n :
  forall attempt st w,
    let w' := snd (attempts cfg lib upstream model messages n attempt st w) in
    calls w' = calls w /\ (posts w' <= posts w + n)%nat.
Proof.
  induction n as [|n IH]; intros attempt st w; cbv zeta.
  { cbn. lia. }
  cbn [attempts].
  destruct (upstream (posts w)) as [code js text| |msg|msg];
    repeat match goal with
    | |- context [if ?b then _ else _] => destruct b
    | |- context [match ?x with inl _ => _ | inr _ => _ end] => destruct x
    | |- context [match content_of ?d with Ok _ => _ | Raise _ => _ end] =>
        destruct (content_of d)
    end;
    try match goal with
    | |- context [attempts ?a ?b ?c ?d ?e ?f ?g ?h ?i] =>
        destruct (IH g h i) as [I1 I2]; rewrite I1; cbn [calls posts log] in *
    end;
    cbn [snd calls posts log]; lia.
Qed.

Lemma call_openrouter_spent messages model w :
  spent cfg 1 w (snd (call_openrouter cfg lib upstream latency_ms messages model w)).
Proof.
  unfold call_openrouter, spent.
  destruct (OPENROUTER_API_KEY cfg) as [|c key].
  - cbn. lia.
  - match goal with
    | |- context [attempts ?a ?b ?c ?d ?e ?f ?g ?h ?i] =>
        pose proof (attempts_spent d e f g h i) as X;
        destruct (attempts a b c d e f g h i) as [st w']
    end.
    cbn [snd calls posts log] in *. lia.
Qed.

Lemma generate_spent messages w : spent cfg 2 w (snd (generate1 messages w)).
Proof.
  unfold generate, generate_with_fallback.
  pose proof (call_openrouter_spent messages (OPENROUTER_MODEL_PRIMARY cfg) w) as P.
  destruct (call_openrouter cfg lib upstream latency_ms messages
              (OPENROUTER_MODEL_PRIMARY cfg) w) as [[[c1 m1] e1] w1].
  cbn [snd] in P. destruct (truthy c1).
  - cbn [snd]. eapply spent_more; [|exact P]. lia.
  - pose proof (call_openrouter_spent messages (OPENROUTER_MODEL_FALLBACK cfg) w1)
      as F.
    destruct (call_openrouter cfg lib upstream latency_ms messages
                (OPENROUTER_MODEL_FALLBACK cfg) w1) as [[[c2 m2] e2] w2].
    cbn [snd] in F. destruct (truthy c2); cbn [snd];
      exact (spent_trans _ _ _ _ _ P F).
Qed.

Lemma generate_ok messages w :
  exists r, fst (generate1 messages w) = Ok r.
Proof.
  unfold generate.
  destruct (generate_with_fallback cfg lib upstream latency_ms messages w).
  eexists. reflexivity.
Qed.

Lemma reforged_spent needs tighten messages section w :
  spent cfg 2 w (snd (reforged1 needs tighten messages section w)).
Proof.
  unfold reforged. destruct (needs section).
  - unfold gbind. pose proof (generate_spent (messages section) w) as G.
    destruct (generate1 (messages section) w) as [[[[raw m] e]|e] w1];
      cbn [snd] in G; [|exact G].
    destruct (truthy raw); exact G.
  - eapply spent_more; [|apply spent_refl]. lia.
Qed.

(** A stage that gives [None] has made one [generate_with_fallback] call;
    any other outcome, at most two. *)
Lemma stage_spent (first_msgs : Messages) needs tighten messages
    (stage : GE (option (str * Dict))) w :
  stage =
    (r <~ generate1 first_msgs ;;
     let '(raw, meta, err) := r in
     if truthy raw then
       t <~ glift (t <- as_text raw ;; tighten t) ;;
       t <~ reforged1 needs tighten messages t ;;
       gret (Some (t, meta))
     else gret None) ->
  match fst (stage w) with
  | Ok None => spent cfg 2 w (snd (stage w))
  | _ => spent cfg 4 w (snd (stage w))
  end.
Proof.
  intros ->. unfold gbind, glift, gret.
  pose proof (generate_spent first_msgs w) as G.
  destruct (generate1 first_msgs w) as [[[[raw m] e]|e] w1]; cbn [snd] in G.
  2:{ cbn [fst snd]. eapply spent_more; [|exact G]. lia. }
  destruct (truthy raw); [|exact G].
  destruct (t <- as_text raw ;; tighten t) as [t|e1]; cbn [fst snd].
  2:{ eapply spent_more; [|exact G]. lia. }
  pose proof (reforged_spent needs tighten messages t w1) as R.
  destruct (reforged1 needs tighten messages t w1) as [[t'|e2] w2];
    cbn [fst snd] in *; exact (spent_trans _ _ _ _ _ G R).
Qed.

Lemma hook_stage_spent user_prompt w :
  match fst (hook_stage1 user_prompt w) with
  | Ok None => spent cfg 2 w (snd (hook_stage1 user_prompt w))
  | _ => spent cfg 4 w (snd (hook_stage1 user_prompt w))
  end.
Proof. eapply stage_spent. reflexivity. Qed.

Lemma body_stage_spent user_prompt hook w :
  match fst (body_stage1 user_prompt hook w) with
  | Ok None => spent cfg 2 w (snd (body_stage1 user_prompt hook w))
  | _ => spent cfg 4 w (snd (body_stage1 user_prompt hook w))
  end.
Proof.
  eapply (stage_spent _ _ (fun t => Ok (_tighten_body lib t))). reflexivity.
Qed.

Lemma cta_stage_spent user_prompt body_txt w :
  match fst (cta_stage1 user_prompt body_txt w) with
  | Ok None => spent cfg 2 w (snd (cta_stage1 user_prompt body_txt w))
  | _ => spent cfg 4 w (snd (cta_stage1 user_prompt body_txt w))
  end.
Proof. eapply stage_spent. reflexivity. Qed.

Lemma premium_stepwise_spent user_prompt w :
  match fst (premium_stepwise1 user_prompt w) with
  | Ok None => spent cfg 10 w (snd (premium_stepwise1 user_prompt w))
  | _ => spent cfg 12 w (snd (premium_stepwise1 user_prompt w))
  end.
Proof.
  unfold premium_stepwise, gbind, gret.
  pose proof (hook_stage_spent user_prompt w) as H.
  destruct (hook_stage1 user_prompt w) as [[[[hook hm]|]|e] w1];
    cbn [fst snd] in H |- *;
    [| eapply spent_more; [|exact H]; lia
     | eapply spent_more; [|exact H]; lia ].
  pose proof (body_stage_spent user_prompt hook w1) as B.
  destruct (body_stage1 user_prompt hook w1) as [[[[body_txt bm]|]|e] w2];
    cbn [fst snd] in B |- *;
    [| eapply spent_more; [|exact (spent_trans _ _ _ _ _ H B)]; lia
     | eapply spent_more; [|exact (spent_trans _ _ _ _ _ H B)]; lia ].
  pose proof (cta_stage_spent user_prompt body_txt w2) as C.
  destruct (cta_stage1 user_prompt body_txt w2) as [[[[cta_txt cm]|]|e] w3];
    cbn [fst snd] in C |- *;
    (eapply spent_more;
     [|exact (spent_trans _ _ _ _ _ (spent_trans _ _ _ _ _ H B) C)]; lia).
Qed.

Lemma one_shot_spent user_prompt w :
  spent cfg 2 w (snd (one_shot1 user_prompt w)).
Proof.
  unfold one_shot, gbind, glift, gret.
  pose proof (generate_spent [system_msg SYSTEM_PROMPT; user_msg user_prompt] w)
    as G.
  destruct (generate1 [system_msg SYSTEM_PROMPT; user_msg user_prompt] w)
    as [[[[content m] e]|e] w1]; cbn [snd] in G; [|exact G].
  destruct (truthy content); [|exact G].
  destruct (as_text content); exact G.
Qed.

(** X25.  One request to [generate_review] makes at most twelve calls of
    [call_openrouter], and so at most twelve times [MAX_RETRIES + 1] POSTs,
    whatever the upstream answers and whichever path the request takes. *)
Theorem generate_review_cost
    (fs : option Store) (request : HttpRequest) (w : World) :
  spent cfg 12 w (snd (generate_review1 fs request w)).
Proof.
  unfold generate_review, gbind, glift, gret.
  destruct (route lib fs request) as [[response|plan user_prompt]|e];
    cbn [snd]; try (eapply spent_more; [|apply spent_refl]; lia).
  destruct (str_eqb plan (u "Premium")).
  - pose proof (premium_stepwise_spent user_prompt w) as P.
    destruct (premium_stepwise1 user_prompt w) as [[[response|]|e] w1];
      cbn [fst snd] in P |- *; try exact P.
    pose proof (one_shot_spent user_prompt w1) as O.
    exact (spent_trans _ _ _ _ _ P O).
  - eapply spent_more; [|apply one_shot_spent]. lia.
Qed.

(** Without an API key a completion makes no request and has no
    content. *)
Lemma generate_without_key messages w :
  OPENROUTER_API_KEY cfg = [] ->
  exists meta err w',
    generate1 messages w = (Ok (PNone, meta, err), w') /\ posts w' = posts w.
Proof.
  intros Hkey. unfold generate, generate_with_fallback, call_openrouter.
  rewrite Hkey. cbn. eexists _, _, _. split; reflexivity.
Qed.

(** X26.  Without an API key every request that gets as far as a prompt,
    on any plan, is answered with the 502 [Upstream model failed], and no
    POST is made. *)
Theorem generate_review_without_key
    (fs : option Store) (request : HttpRequest) (w : World)
    (plan user_prompt : str) :
  OPENROUTER_API_KEY cfg = [] ->
  route lib fs request = Ok (Route plan user_prompt) ->
  exists payload w',
    generate_review1 fs request w = (Ok (JsonResponse payload 502), w') /\
    dict_find payload (u "error") = Some (PStr (u "Upstream model failed")) /\
    posts w' = posts w.
Proof.
  intros Hkey Hroute.
  assert (O : forall w0,
    exists payload w',
      one_shot1 user_prompt w0 = (Ok (JsonResponse payload 502), w') /\
      dict_find payload (u "error") = Some (PStr (u "Upstream model failed")) /\
      posts w' = posts w0).
  { intros w0. unfold one_shot, gbind, gret.
    destruct (generate_without_key
                [system_msg SYSTEM_PROMPT; user_msg user_prompt] w0 Hkey)
      as (meta & err & w' & -> & Hp).
    cbn [truthy]. eexists _, w'. split; [reflexivity|]. split; [|exact Hp].
    destruct (DEBUG_MODE cfg && truthy err); reflexivity. }
  unfold generate_review, gbind, glift. rewrite Hroute.
  destruct (str_eqb plan (u "Premium")); [|apply O].
  destruct (generate_without_key (hook_msgs user_prompt) w Hkey)
    as (meta & err & w1 & Hg & Hp).
  unfold premium_stepwise, gbind.
  rewrite (hook_stage_none cfg lib upstream latency_ms user_prompt w w1
             PNone meta err Hg eq_refl).
  unfold gret. destruct (O w1) as (payload & w' & H1 & H2 & H3).
  exists payload, w'. split; [exact H1|]. split; [exact H2 | congruence].
Qed.

End ReviewCost.

Lemma generate_review_without_key_witness :
  let cfg := {| OPENROUTER_API_KEY := [];
                OPENROUTER_MODEL_PRIMARY := u "openai/gpt-4o-mini";
                OPENROUTER_MODEL_FALLBACK := u "meta-llama/llama-3.1-70b-instruct";
                MAX_RETRIES := 2; DEBUG_MODE := false |} in
  exists payload w',
    generate_review cfg no_library always_timeout (fun _ => 0)
      premium_store premium_request world0
    = (Ok (JsonResponse payload 502), w') /\
    dict_find payload (u "error") = Some (PStr (u "Upstream model failed")) /\
    posts w' = posts world0.
Proof.
  cbv zeta.
  eapply (generate_review_without_key _ no_library always_timeout (fun _ => 0)
            premium_store premium_request world0).
  - reflexivity.
  - vm_compute. reflexivity.
Defined.

(** ** Text helpers *)

Lemma split_one_word w : good w -> split w = [w].
Proof.
  intros [Hs Hn]. induction w as [|c r IH]; [congruence|].
  assert (Hc : is_space c = false) by (apply Hs; left; reflexivity).
  cbn [split]. rewrite Hc. destruct r as [|c' r']; [reflexivity|].
  assert (Hc' : is_space c' = false) by (apply Hs; right; left; reflexivity).
  rewrite Hc'. rewrite IH; [reflexivity | | discriminate].
  intros d Hd. apply Hs. right. exact Hd.
Qed.

Lemma split_word_space w s : good w -> split (w ++ 32%N :: s) = w :: split s.
Proof.
  intros [Hs Hn]. induction w as [|c r IH]; [congruence|].
  assert (Hc : is_space c = false) by (apply Hs; left; reflexivity).
  change ((c :: r) ++ 32%N :: s) with (c :: (r ++ 32%N :: s)).
  cbn [split]. rewrite Hc. destruct r as [|c' r'].
  - cbn [app]. rewrite space_is_space. reflexivity.
  - assert (Hc' : is_space c' = false) by (apply Hs; right; left; reflexivity).
    cbn [app]. rewrite Hc'.
    change (c' :: r' ++ 32%N :: s) with ((c' :: r') ++ 32%N :: s).
    rewrite IH; [reflexivity | | discriminate].
    intros d Hd. apply Hs. right. exact Hd.
Qed.

Lemma split_join l : Forall good l -> split (join (u " ") l) = l.
Proof.
  induction 1 as [|w l Hw Hl IH]; [reflexivity|].
  destruct l as [|w' l'].
  - apply split_one_word. exact Hw.
  - change (join (u " ") (w :: w' :: l'))
      with (w ++ 32%N :: join (u " ") (w' :: l')).
    rewrite split_word_space by exact Hw. rewrite IH. reflexivity.
Qed.

(** X27.  The words of [_limit_words(text, n)] are the first [n] words of
    the text: the text comes back unchanged when it has at most [n] words,
    and the function applied twice gives the same as applied once. *)
Theorem limit_words_first_words (text : str) (max_words : nat) :
  split (_limit_words text max_words) = firstn max_words (split text) /\
  ((List.length (split text) <= max_words)%nat ->
   _limit_words text max_words = text) /\
  _limit_words (_limit_words text max_words) max_words
  = _limit_words text max_words.
Proof.
  assert (W : split (_limit_words text max_words)
              = firstn max_words (split text)).
  { unfold _limit_words.
    destruct (List.length (split text) <=? max_words)%nat eqn:E.
    - apply Nat.leb_le in E. rewrite firstn_all2 by exact E. reflexivity.
    - apply split_join. apply Forall_forall. intros w Hw.
      pose proof (split_good text) as G. rewrite Forall_forall in G.
      apply G. rewrite <- (firstn_skipn max_words (split text)).
      apply in_or_app. left. exact Hw. }
  split; [exact W|]. split.
  - intros H. unfold _limit_words. apply Nat.leb_le in H. rewrite H.
    reflexivity.
  - unfold _limit_words at 1. rewrite W.
    replace (List.length (firstn max_words (split text)) <=? max_words)%nat
      with true; [reflexivity|].
    symmetry. apply Nat.leb_le. rewrite length_firstn. lia.
Qed.

(** *** Stripping *)

Lemma lstrip_app_word a c b :
  is_space c = false -> lstrip (a ++ c :: b) = lstrip a ++ c :: b.
Proof.
  intros Hc. induction a as [|x a IH]; cbn [lstrip app].
  - rewrite Hc. reflexivity.
  - destruct (is_space x); [exact IH | reflexivity].
Qed.

Lemma rstrip_cons_word c r : is_space c = false -> rstrip (c :: r) = c :: rstrip r.
Proof.
  intros Hc. unfold rstrip. cbn [rev].
  rewrite lstrip_app_word by exact Hc. rewrite rev_app_distr. reflexivity.
Qed.

Lemma rstrip_tail_ok t : tail_ok t = true -> rstrip t = t.
Proof.
  unfold tail_ok, rstrip. intros H.
  destruct (rev t) as [|c r] eqn:E.
  - cbn. apply (f_equal (@rev N)) in E. rewrite rev_involutive in E.
    symmetry. exact E.
  - cbn [lstrip]. apply negb_true_iff in H. rewrite H.
    rewrite <- E. apply rev_involutive.
Qed.

Lemma strip_strip s : strip (strip s) = strip s.
Proof.
  assert (L : lstrip (strip s) = strip s).
  { unfold strip. pose proof (lstrip_head s) as H.
    destruct (lstrip s) as [|c r]; [reflexivity|].
    rewrite rstrip_cons_word by exact H. cbn [lstrip]. rewrite H. reflexivity. }
  unfold strip at 1. rewrite L. apply rstrip_tail_ok. apply tail_ok_strip.
Qed.

Lemma In_lstrip x s : In x (lstrip s) -> In x s.
Proof.
  induction s as [|c r IH]; cbn [lstrip]; [auto|].
  destruct (is_space c); [right; auto | auto].
Qed.

Lemma In_strip x s : In x (strip s) -> In x s.
Proof.
  unfold strip, rstrip. intros H.
  apply In_lstrip. apply in_rev. apply In_lstrip. apply in_rev. exact H.
Qed.

Lemma In_replace_char x a b s :
  In x (replace_char a b s) -> (x <> a /\ In x s) \/ In x b.
Proof.
  unfold replace_char. intros H. apply in_flat_map in H.
  destruct H as (c & Hc & Hx).
  destruct (c =? a)%N eqn:E.
  - right. exact Hx.
  - destruct Hx as [<-|[]]. left. split; [|exact Hc].
    apply N.eqb_neq. exact E.
Qed.

Lemma replace_char_absent a b s : ~ In a s -> replace_char a b s = s.
Proof.
  unfold replace_char. induction s as [|c r IH]; [reflexivity|].
  intros H. cbn [flat_map].
  destruct (c =? a)%N eqn:E.
  - apply N.eqb_eq in E. exfalso. apply H. left. exact E.
  - cbn [app]. rewrite IH; [reflexivity|]. intros K. apply H. right. exact K.
Qed.

Section NormFacts.
Variable lib : Library.

(** X28.  [_norm] returns a single clean line: no line feed and no
    carriage return anywhere in it, no white space at either end, the empty
    text for every falsy value; and it changes nothing on its own
    results. *)
Theorem norm_single_clean_line (v : PyVal) :
  ~ In 10%N (_norm lib v) /\ ~ In 13%N (_norm lib v) /\
  strip (_norm lib v) = _norm lib v /\
  (truthy v = false -> _norm lib v = []) /\
  _norm lib (PStr (_norm lib v)) = _norm lib v.
Proof.
  assert (A : ~ In 10%N (_norm lib v) /\ ~ In 13%N (_norm lib v) /\
              strip (_norm lib v) = _norm lib v).
  { unfold _norm. destruct (negb (truthy v)); [repeat split; auto|].
    split; [|split].
    - intros H. apply In_strip in H. apply In_replace_char in H.
      destruct H as [[_ H]|H].
      + apply In_replace_char in H. destruct H as [[H _]|H]; [congruence|].
        destruct H as [H|[]]; discriminate H.
      + destruct H as [H|[]]; discriminate H.
    - intros H. apply In_strip in H. apply In_replace_char in H.
      destruct H as [[H _]|H]; [congruence|].
      destruct H as [H|[]]; discriminate H.
    - apply strip_strip. }
  destruct A as (A1 & A2 & A3).
  split; [exact A1|]. split; [exact A2|]. split; [exact A3|]. split.
  - intros H. unfold _norm. rewrite H. reflexivity.
  - remember (_norm lib v) as r eqn:Er. unfold _norm at 1.
    destruct r as [|c r']; [reflexivity|]. cbn [truthy negb].
    rewrite (replace_char_absent 10 _ _ A1), (replace_char_absent 13 _ _ A2).
    exact A3.
Qed.

End NormFacts.

Section PatternFacts.
Variable lib : Library.

(** A match at any start the search tries is found. *)
Lemma search_from_hit r s i' x :
  match_at lib r s i' = Some x ->
  forall n i, (i <= i')%nat -> (i' <= i + n)%nat ->
  search_from lib r s n i <> None.
Proof.
  intros Hm. induction n as [|n IH]; intros i H1 H2; cbn [search_from].
  - assert (i' = i) by lia. subst i'. rewrite Hm. destruct x. discriminate.
  - destruct (match_at lib r s i) as [[j g]|] eqn:E; [discriminate|].
    apply IH; [|lia].
    destruct (Nat.eq_dec i i') as [->|]; [congruence | lia].
Qed.

Lemma end_punct_after_dot s :
  found lib end_punct (s ++ u ".") = true.
Proof.
  unfold found, search.
  assert (M : match_at lib end_punct (s ++ u ".") (List.length s)
              = Some (S (List.length s), None)).
  { unfold match_at, end_punct, one_of. cbn [rmatch].
    rewrite nth_error_app2 by lia. rewrite Nat.sub_diag.
    change (u ".") with [46%N]. cbn [nth_error].
    change (existsb (N.eqb 46) (u ".!?")) with true. cbv iota.
    unfold at_eol. rewrite length_app. cbn [List.length].
    replace (S (List.length s) =? List.length s + 1)%nat with true
      by (symmetry; apply Nat.eqb_eq; lia).
    reflexivity. }
  pose proof (search_from_hit _ _ _ _ M (List.length (s ++ u ".")) 0) as H.
  destruct (search_from lib end_punct (s ++ u ".") (List.length (s ++ u ".")) 0);
    [reflexivity|].
  exfalso. apply H; [lia | rewrite length_app; lia | reflexivity].
Qed.

(** X29.  [_ensure_end_punct] puts an end to a text once: applied to its
    own result it changes nothing, the empty text stays empty, and a text
    it changes grows by exactly one full stop. *)
Theorem ensure_end_punct_idempotent (s : str) :
  _ensure_end_punct lib (_ensure_end_punct lib s) = _ensure_end_punct lib s /\
  _ensure_end_punct lib [] = [] /\
  (_ensure_end_punct lib s = s \/ _ensure_end_punct lib s = s ++ u ".").
Proof.
  split; [|split].
  - unfold _ensure_end_punct at 2.
    destruct (found lib end_punct s) eqn:F.
    + unfold _ensure_end_punct. rewrite F. reflexivity.
    + destruct s as [|c r]; [unfold _ensure_end_punct; rewrite F; reflexivity|].
      unfold _ensure_end_punct. rewrite end_punct_after_dot, F. reflexivity.
  - reflexivity.
  - unfold _ensure_end_punct. destruct (found lib end_punct s); [left; reflexivity|].
    destruct s; [left | right]; reflexivity.
Qed.

(** *** Deleting the formatting marks *)

Lemma span_len_le p l : (span_len p l <= List.length l)%nat.
Proof.
  induction l as [|c r IH]; cbn; [lia|]. destruct (p c); lia.
Qed.

Lemma skipn_nth (s : str) i c :
  nth_error s i = Some c -> skipn i s = c :: skipn (S i) s.
Proof.
  revert i. induction s as [|x s IH]; intros [|i] H; try discriminate H.
  - injection H as ->. reflexivity.
  - cbn [skipn]. apply IH. exact H.
Qed.

Lemma skipn_none (s : str) i : nth_error s i = None -> skipn i s = [].
Proof.
  intros H. apply skipn_all2. apply nth_error_None. exact H.
Qed.

Lemma rmatch_chr_star {R} p s i g (k : nat -> capt -> option R) :
  rmatch lib (Star true (Chr p)) s i g k
  = chr_star_loop p s k (S (List.length s)) i g.
Proof. reflexivity. Qed.

(** A greedy [p*] from [i] takes the whole run of [p]. *)
Lemma star_run p s i g :
  rmatch lib (Star true (Chr p)) s i g (fun j g' => Some (j, g'))
  = Some ((i + span_len p (skipn i s))%nat, g).
Proof.
  rewrite rmatch_chr_star.
  assert (L : forall n i,
             (span_len p (skipn i s) < n)%nat ->
             chr_star_loop p s (fun j g' => Some (j, g')) n i g
             = Some ((i + span_len p (skipn i s))%nat, g)).
  { clear i. induction n as [|n IH]; intros i Hn; [lia|].
    cbn [chr_star_loop].
    destruct (nth_error s i) as [c|] eqn:E.
    - rewrite (skipn_nth _ _ _ E) in Hn |- *. cbn [span_len] in Hn |- *.
      destruct (p c).
      + replace (S i <=? i)%nat with false by (symmetry; apply Nat.leb_gt; lia).
        rewrite IH by lia. f_equal. f_equal. lia.
      + f_equal. f_equal. lia.
    - rewrite (skipn_none _ _ E). cbn [span_len]. f_equal. f_equal. lia. }
  apply L. pose proof (span_len_le p (skipn i s)) as H.
  rewrite length_skipn in H. lia.
Qed.

Lemma plus_run p s i :
  match_at lib (Plus true (Chr p)) s i
  = match nth_error s i with
    | Some c =>
        if p c then Some ((S i + span_len p (skipn (S i) s))%nat, None)
        else None
    | None => None
    end.
Proof.
  unfold match_at, Plus. cbn [rmatch].
  destruct (nth_error s i) as [c|]; [|reflexivity].
  destruct (p c); [|reflexivity].
  apply star_run.
Qed.

Lemma filter_span p (l : str) :
  filter (fun c => negb (p c)) l
  = filter (fun c => negb (p c)) (skipn (span_len p l) l).
Proof.
  induction l as [|c r IH]; [reflexivity|].
  cbn [span_len]. destruct (p c) eqn:E.
  - cbn [skipn filter]. rewrite E. exact IH.
  - reflexivity.
Qed.

(** Replacing every run of [p] by nothing is deleting the characters that
    satisfy [p]. *)
Lemma sub_plus_deletes p s :
  forall n i, (List.length s < n + i)%nat ->
  sub_from lib (Plus true (Chr p)) [] s n i
  = filter (fun c => negb (p c)) (skipn i s).
Proof.
  induction n as [|n IH]; intros i Hn.
  - cbn [sub_from]. rewrite skipn_all2 by lia. reflexivity.
  - cbn [sub_from]. rewrite plus_run.
    destruct (nth_error s i) as [c|] eqn:E.
    + rewrite (skipn_nth _ _ _ E). cbn [filter].
      destruct (p c) eqn:Ep; cbn [negb].
      * replace (i <? S i + span_len p (skipn (S i) s))%nat with true
          by (symmetry; apply Nat.ltb_lt; lia).
        cbn [app]. rewrite IH by lia.
        rewrite (filter_span p (skipn (S i) s)), skipn_skipn.
        f_equal. f_equal. lia.
      * rewrite IH by lia. reflexivity.
    + rewrite (skipn_none _ _ E). reflexivity.
Qed.

(** X30.  [_strip_md_noise] deletes every asterisk, underscore, backtick,
    [>], [#] and tilde, wherever it stands, strips the white space at the
    two ends, and does nothing else; so none of the six characters is left
    in its result. *)
Theorem strip_md_noise_deletes (s : str) :
  _strip_md_noise lib s = strip (filter (fun c => negb (is_md_noise c)) s) /\
  forall c, In c (_strip_md_noise lib s) -> is_md_noise c = false.
Proof.
  assert (E : _strip_md_noise lib s
              = strip (filter (fun c => negb (is_md_noise c)) s)).
  { unfold _strip_md_noise, sub, md_noise, one_of.
    rewrite (sub_plus_deletes (fun c => existsb (N.eqb c) (u "*_`>#~")) s
               (S (List.length s)) 0) by lia.
    reflexivity. }
  split; [exact E|].
  intros c H. rewrite E in H. apply In_strip in H.
  apply filter_In in H. destruct H as [_ H].
  apply negb_true_iff in H. exact H.
Qed.

End PatternFacts.
